(** * Batch gradient-descent trainers of fundamental-ml

    A shallow embedding of the two estimator classes of the notebooks
    [linear_regression.ipynb] and [logistic_regression.ipynb]
    ([LinearRegression] and [LogisticRegression]) together with the part
    of the array library they call into, and the properties of their
    [fit] / [predict] methods.

    The classes are written once, over an interface of scalar
    operations, and read at three arithmetics:
    - the real numbers (exact arithmetic, where the algebraic facts live),
    - the rationals (exact and executable, for concrete runs),
    - reals extended with the IEEE special values, where a result beyond
      the largest double overflows to an infinity (rounding is not
      modelled). *)

From Stdlib Require Import String.
From Stdlib Require Import Reals Lra Psatz Lia Arith Bool QArith Qreduction List.
From Stdlib Require Import Permutation ZArith.
Import ListNotations.

Close Scope Q_scope.
Set Implicit Arguments.

(** ** Scalars *)

(** The scalar operations the notebooks use on array elements. [half] is
    the literal [0.5], [of_nat] the conversion of a Python [int] (a row
    count) to a float. *)
Class Arith (F : Type) : Type := {
  zero : F;
  one : F;
  half : F;
  add : F -> F -> F;
  sub : F -> F -> F;
  mul : F -> F -> F;
  div : F -> F -> F;
  neg : F -> F;
  of_nat : nat -> F
}.

(** [np.exp] and [np.log] on one element. *)
Class Transc (F : Type) : Type := {
  fexp : F -> F;
  flog : F -> F
}.

(** ** Python exceptions and the method monad *)

Inductive exn : Type :=
| AttributeError (attr : string)
    (* 'LinearRegression' object has no attribute <attr> *)
| ValueError_matmul (core operand : nat)
    (* matmul: ... mismatch in its core dimension (size <operand> is
       different from <core>) *)
| ValueError_broadcast (shape1 shape2 : nat)
    (* operands could not be broadcast together with shapes
       (<shape1>,) (<shape2>,) *)
| ZeroDivisionError.
    (* float division by zero *)

Inductive outcome (A : Type) : Type :=
| Return (a : A)
| Raise (e : exn).

Arguments Return {A} a.
Arguments Raise {A} e.

(** A method body: it reads and writes the attributes of [self] and
    either returns or raises. The attributes written before an exception
    stay written. *)
Definition M (S A : Type) : Type := S -> outcome A * S.

Definition ret {S A : Type} (a : A) : M S A := fun s => (Return a, s).

Definition bind {S A B : Type} (c : M S A) (k : A -> M S B) : M S B :=
  fun s =>
    match c s with
    | (Return a, s') => k a s'
    | (Raise e, s') => (Raise e, s')
    end.

Definition lift {S A : Type} (o : outcome A) : M S A := fun s => (o, s).

Notation "x <- c ;; k" := (bind c (fun x => k))
  (at level 61, c at next level, right associativity).
Notation "c ;;; k" := (bind c (fun _ => k))
  (at level 61, right associativity).

Definition returned {A S : Type} (r : outcome A * S) : Prop :=
  exists a, fst r = Return a.

Definition raised {A S : Type} (r : outcome A * S) : Prop :=
  exists e, fst r = Raise e.

(** ** Arrays *)

Section Numpy.
Context {F : Type} {AF : Arith F}.

(** A 1-D array. *)
Definition vec : Type := list F.

(** A 2-D array with its [shape]; [rows] holds [nrows] lists of
    [ncols] elements each. *)
Record matrix : Type := Matrix {
  nrows : nat;
  ncols : nat;
  rows : list (list F)
}.

Definition wf_matrix (X : matrix) : Prop :=
  length (rows X) = nrows X /\
  Forall (fun r => length r = ncols X) (rows X).

(** [np.zeros(n)] *)
Definition np_zeros (n : nat) : vec := repeat zero n.

(** [np.sum] of a 1-D array. *)
Definition np_sum (v : vec) : F := fold_right add zero v.

(** [np.mean] of a 1-D array. *)
Definition np_mean (v : vec) : F := div (np_sum v) (of_nat (length v)).

(** [np.square] *)
Definition np_square (v : vec) : vec := map (fun x => mul x x) v.

(** Elementwise operation on two 1-D arrays of one shape. *)
Definition zip (op : F -> F -> F) (u v : vec) : vec :=
  map (fun p => op (fst p) (snd p)) (combine u v).

(** Elementwise operation on two 1-D arrays under the broadcasting
    rule: the lengths agree, or one of them is 1 and that element is
    repeated; any other pair of shapes raises. *)
Definition broadcast (op : F -> F -> F) (u v : vec) : outcome vec :=
  if length u =? length v then
    Return (zip op u v)
  else
    match u, v with
    | [a], _ => Return (map (fun x => op a x) v)
    | _, [b] => Return (map (fun x => op x b) u)
    | _, _ => Raise (ValueError_broadcast (length u) (length v))
    end.

(** array [+] / [-] / [*] scalar and scalar [-] / [+] / [/] array *)
Definition vec_scalar (op : F -> F -> F) (v : vec) (b : F) : vec :=
  map (fun x => op x b) v.

Definition scalar_vec (op : F -> F -> F) (a : F) (v : vec) : vec :=
  map (fun x => op a x) v.

(** Inner product of a row with a 1-D array. *)
Definition dot (u v : vec) : F := np_sum (zip mul u v).

(** The rows of [X] against [v]. *)
Definition matvec (X : matrix) (v : vec) : vec :=
  map (fun r => dot r v) (rows X).

(** [X @ v] for a 2-D [X] and a 1-D [v]: the core dimensions must
    agree. *)
Definition matmul (X : matrix) (v : vec) : outcome vec :=
  if ncols X =? length v then
    Return (matvec X v)
  else
    Raise (ValueError_matmul (ncols X) (length v)).

(** Column [j] of [X]. *)
Definition column (X : matrix) (j : nat) : vec :=
  map (fun r => nth j r zero) (rows X).

(** [X.T] *)
Definition transpose (X : matrix) : matrix :=
  {| nrows := ncols X;
     ncols := nrows X;
     rows := map (column X) (seq 0 (ncols X)) |}.

(** scalar [*] 2-D array *)
Definition scale (c : F) (X : matrix) : matrix :=
  {| nrows := nrows X;
     ncols := ncols X;
     rows := map (map (mul c)) (rows X) |}.

(** Python [float / int]: raises on a zero divisor. *)
Definition truediv (a : F) (m : nat) : outcome F :=
  if m =? 0 then Raise ZeroDivisionError
  else Return (div a (of_nat m)).

(** In-place [w -= g] on a 1-D array: [g] must broadcast to the shape
    of [w]. *)
Definition isub (w g : vec) : outcome vec :=
  if length w =? length g then
    Return (zip sub w g)
  else
    match g with
    | [b] => Return (map (fun x => sub x b) w)
    | _ => Raise (ValueError_broadcast (length w) (length g))
    end.

(** ** Instances of the estimator classes *)

(** The attributes of an estimator object. [coef] and [bias] do not
    exist until [initialize] has run. [initialize] binds [coef] to a
    fresh array on every call of [fit], so the array a call returned is
    never written by a later one; within a call the in-place update is
    the only writer, and an attribute holding the current value is all
    there is to model. *)
Record obj : Type := Obj {
  max_iterations : nat;
  learning_rate : F;
  coef : option vec;
  bias : option F
}.

Definition getattr {A : Type} (name : string) (field : obj -> option A)
  : M obj A :=
  fun self =>
    match field self with
    | Some a => (Return a, self)
    | None => (Raise (AttributeError name), self)
    end.

Definition self_coef : M obj vec := getattr "coef" coef.
Definition self_bias : M obj F := getattr "bias" bias.
Definition self_learning_rate : M obj F :=
  fun self => (Return (learning_rate self), self).
Definition self_max_iterations : M obj nat :=
  fun self => (Return (max_iterations self), self).

Definition set_coef (w : vec) : M obj unit :=
  fun self =>
    (Return tt,
     {| max_iterations := max_iterations self;
        learning_rate := learning_rate self;
        coef := Some w;
        bias := bias self |}).

Definition set_bias (b : F) : M obj unit :=
  fun self =>
    (Return tt,
     {| max_iterations := max_iterations self;
        learning_rate := learning_rate self;
        coef := coef self;
        bias := Some b |}).

(** [for i in range(k): losses = body(losses)], the loop variable
    being unused by both trainers. *)
Fixpoint for_range (k : nat) (body : list F -> M obj (list F))
  (losses : list F) : M obj (list F) :=
  match k with
  | O => ret losses
  | S k' => losses' <- body losses ;; for_range k' body losses'
  end.

(** The parameters and the empty trace a call of [fit] starts from. *)
Definition fit_start (n : nat) : list F * vec * F :=
  ([], np_zeros n, zero).

(** *** The life cycle of an estimator

    The state machine of the specification, read on the classes, which
    keep no state flag: the state of an object is decided by the calls
    made on it. A constructed object is [UNINITIALIZED]; a call of
    [fit] enters [FITTING], and reaches [FITTED] when it returns. A call
    of [fit] that raises never returns, so its object stays in
    [FITTING]. *)
Inductive state : Type := UNINITIALIZED | FITTING | FITTED.

Section Lifecycle.
Variable init : nat -> F -> obj.
Variable fit_method : matrix -> vec -> M obj (list F * vec * F).

Inductive lifecycle : obj -> state -> Prop :=
| life_constructed (k : nat) (lr : F) :
    lifecycle (init k lr) UNINITIALIZED
| life_fit_raised (o o' : obj) (s : state) (X : matrix) (y : vec)
    (e : exn) :
    lifecycle o s ->
    fit_method X y o = (Raise e, o') ->
    lifecycle o' FITTING
| life_fit_returned (o o' : obj) (s : state) (X : matrix) (y : vec)
    (res : list F * vec * F) :
    lifecycle o s ->
    fit_method X y o = (Return res, o') ->
    lifecycle o' FITTED.
End Lifecycle.

End Numpy.

Arguments vec F : clear implicits.
Arguments matrix F : clear implicits.
Arguments obj F : clear implicits.

(** ** LinearRegression *)

Module LinearRegression.
Section Class.
Context {F : Type} {AF : Arith F}.

Definition __init__ (max_iterations : nat) (learning_rate : F) : obj F :=
  {| max_iterations := max_iterations;
     learning_rate := learning_rate;
     coef := None;
     bias := None |}.

Definition initialize (num_features : nat) : M (obj F) unit :=
  set_coef (np_zeros num_features) ;;;
  set_bias zero.

(** One pass of the body of the training loop. *)
Definition fit_body (X : matrix F) (y : vec F) (m : nat)
  (losses : list F) : M (obj F) (list F) :=
  (* preds = X @ self.coef + self.bias *)
  w <- self_coef ;;
  xw <- lift (matmul X w) ;;
  b <- self_bias ;;
  let preds := vec_scalar add xw b in
  (* loss = 0.5 * np.mean(np.square(preds - y)) *)
  r <- lift (broadcast sub preds y) ;;
  let loss := mul half (np_mean (np_square r)) in
  (* losses.append(loss) *)
  let losses := losses ++ [loss] in
  (* self.coef -= self.learning_rate / m * X.T @ (preds - y) *)
  w <- self_coef ;;
  lr <- self_learning_rate ;;
  c <- lift (truediv lr m) ;;
  let cXT := scale c (transpose X) in
  r <- lift (broadcast sub preds y) ;;
  g <- lift (matmul cXT r) ;;
  w' <- lift (isub w g) ;;
  set_coef w' ;;;
  (* self.bias -= self.learning_rate * np.mean(preds - y) *)
  b <- self_bias ;;
  lr <- self_learning_rate ;;
  r <- lift (broadcast sub preds y) ;;
  set_bias (sub b (mul lr (np_mean r))) ;;;
  ret losses.

Definition fit (X : matrix F) (y : vec F)
  : M (obj F) (list F * vec F * F) :=
  (* m, n = X.shape *)
  let m := nrows X in
  let n := ncols X in
  initialize n ;;;
  k <- self_max_iterations ;;
  losses <- for_range k (fit_body X y m) [] ;;
  (* return losses, self.coef, self.bias *)
  w <- self_coef ;;
  b <- self_bias ;;
  ret (losses, w, b).

Definition predict (X : matrix F) : M (obj F) (vec F) :=
  (* return X @ self.coef + self.bias *)
  w <- self_coef ;;
  xw <- lift (matmul X w) ;;
  b <- self_bias ;;
  ret (vec_scalar add xw b).

(** What one pass of the loop body leaves in [losses], [self.coef] and
    [self.bias] when [y] has one element per row of [X], so that no
    operation raises. *)
Definition pass (X : matrix F) (y : vec F) (lr : F)
  (st : list F * vec F * F) : list F * vec F * F :=
  let '(losses, w, b) := st in
  let preds := vec_scalar add (matvec X w) b in
  let r := zip sub preds y in
  let loss := mul half (np_mean (np_square r)) in
  let cXT := scale (div lr (of_nat (nrows X))) (transpose X) in
  (losses ++ [loss], zip sub w (matvec cXT r), sub b (mul lr (np_mean r))).

End Class.
End LinearRegression.

(** ** LogisticRegression *)

Module LogisticRegression.
Section Class.
Context {F : Type} {AF : Arith F} {TF : Transc F}.

Definition __init__ (max_iterations : nat) (learning_rate : F) : obj F :=
  {| max_iterations := max_iterations;
     learning_rate := learning_rate;
     coef := None;
     bias := None |}.

Definition initialize (num_features : nat) : M (obj F) unit :=
  set_coef (np_zeros num_features) ;;;
  set_bias zero.

(** [1 / (1 + np.exp(-z))] on a 1-D array. *)
Definition sigmoid (z : vec F) : vec F :=
  scalar_vec div one (scalar_vec add one (map fexp (map neg z))).

(** The line left as a comment in the notebook:
    [np.exp(z) / (1 + np.exp(z))]. *)
Definition sigmoid_commented_out (z : vec F) : vec F :=
  zip div (map fexp z) (scalar_vec add one (map fexp z)).

(** [-np.mean(y * np.log(preds) + (1 - y) * np.log(1 - preds))] *)
Definition nll (y preds : vec F) : outcome F :=
  match broadcast mul y (map flog preds) with
  | Raise e => Raise e
  | Return t1 =>
      match broadcast mul (scalar_vec sub one y)
              (map flog (scalar_vec sub one preds)) with
      | Raise e => Raise e
      | Return t2 =>
          match broadcast add t1 t2 with
          | Raise e => Raise e
          | Return s => Return (neg (np_mean s))
          end
      end
  end.

(** One pass of the body of the training loop. *)
Definition fit_body (X : matrix F) (y : vec F) (m : nat)
  (losses : list F) : M (obj F) (list F) :=
  (* preds = self.sigmoid(X @ self.coef + self.bias) *)
  w <- self_coef ;;
  xw <- lift (matmul X w) ;;
  b <- self_bias ;;
  let preds := sigmoid (vec_scalar add xw b) in
  (* loss = -np.mean(y * np.log(preds) + (1 - y) * np.log(1 - preds)) *)
  loss <- lift (nll y preds) ;;
  (* losses.append(loss) *)
  let losses := losses ++ [loss] in
  (* self.coef -= self.learning_rate / m * X.T @ (preds - y) *)
  w <- self_coef ;;
  lr <- self_learning_rate ;;
  c <- lift (truediv lr m) ;;
  let cXT := scale c (transpose X) in
  r <- lift (broadcast sub preds y) ;;
  g <- lift (matmul cXT r) ;;
  w' <- lift (isub w g) ;;
  set_coef w' ;;;
  (* self.bias -= self.learning_rate * np.mean(preds - y) *)
  b <- self_bias ;;
  lr <- self_learning_rate ;;
  r <- lift (broadcast sub preds y) ;;
  set_bias (sub b (mul lr (np_mean r))) ;;;
  ret losses.

Definition fit (X : matrix F) (y : vec F)
  : M (obj F) (list F * vec F * F) :=
  (* m, n = X.shape *)
  let m := nrows X in
  let n := ncols X in
  initialize n ;;;
  k <- self_max_iterations ;;
  losses <- for_range k (fit_body X y m) [] ;;
  (* return losses, self.coef, self.bias *)
  w <- self_coef ;;
  b <- self_bias ;;
  ret (losses, w, b).

Definition predict (X : matrix F) : M (obj F) (vec F) :=
  (* return self.sigmoid(X @ self.coef + self.bias) *)
  w <- self_coef ;;
  xw <- lift (matmul X w) ;;
  b <- self_bias ;;
  ret (sigmoid (vec_scalar add xw b)).

(** What one pass of the loop body leaves in [losses], [self.coef] and
    [self.bias] when [y] has one element per row of [X], so that no
    operation raises. *)
Definition pass (X : matrix F) (y : vec F) (lr : F)
  (st : list F * vec F * F) : list F * vec F * F :=
  let '(losses, w, b) := st in
  let preds := sigmoid (vec_scalar add (matvec X w) b) in
  let loss :=
    neg (np_mean
           (zip add
              (zip mul y (map flog preds))
              (zip mul (scalar_vec sub one y)
                 (map flog (scalar_vec sub one preds))))) in
  let r := zip sub preds y in
  let cXT := scale (div lr (of_nat (nrows X))) (transpose X) in
  (losses ++ [loss], zip sub w (matvec cXT r), sub b (mul lr (np_mean r))).

End Class.
End LogisticRegression.

(** ** The three arithmetics *)

(** Exact real arithmetic. *)
#[export] Instance R_arith : Arith R := {|
  zero := 0%R;
  one := 1%R;
  half := 0.5%R;
  add := Rplus;
  sub := Rminus;
  mul := Rmult;
  div := Rdiv;
  neg := Ropp;
  of_nat := INR
|}.

#[export] Instance R_transc : Transc R := {|
  fexp := exp;
  flog := ln
|}.

(** Exact rational arithmetic, every result in lowest terms. *)
#[export] Instance Q_arith : Arith Q := {|
  zero := 0%Q;
  one := 1%Q;
  half := (1 # 2)%Q;
  add := fun a b => Qred (a + b)%Q;
  sub := fun a b => Qred (a - b)%Q;
  mul := fun a b => Qred (a * b)%Q;
  div := fun a b => Qred (a / b)%Q;
  neg := fun a => Qred (- a)%Q;
  of_nat := fun n => inject_Z (Z.of_nat n)
|}.

(** Reals with the IEEE special values. A finite result beyond [fmax],
    the largest finite double, becomes an infinity; an undefined one
    becomes [NaN]. Results within range are exact (no rounding, no
    signed zero). *)
Inductive xreal : Type :=
| Fin (r : R)
| PInf
| NInf
| NaN.

Definition fmax : R := ((2 - / 2 ^ 52) * 2 ^ 1023)%R.

Definition overflow (r : R) : xreal :=
  if Rlt_dec fmax r then PInf
  else if Rlt_dec r (- fmax) then NInf
  else Fin r.

Definition x_neg (a : xreal) : xreal :=
  match a with
  | Fin r => Fin (- r)
  | PInf => NInf
  | NInf => PInf
  | NaN => NaN
  end.

Definition x_add (a b : xreal) : xreal :=
  match a, b with
  | NaN, _ | _, NaN => NaN
  | PInf, NInf | NInf, PInf => NaN
  | PInf, _ | _, PInf => PInf
  | NInf, _ | _, NInf => NInf
  | Fin r, Fin s => overflow (r + s)
  end.

Definition x_sub (a b : xreal) : xreal := x_add a (x_neg b).

(** An infinity times, or over, a finite [r]. *)
Definition x_signed (inf : xreal) (r : R) : xreal :=
  if Rlt_dec 0 r then inf
  else if Rlt_dec r 0 then x_neg inf
  else NaN.

Definition x_mul (a b : xreal) : xreal :=
  match a, b with
  | NaN, _ | _, NaN => NaN
  | Fin r, Fin s => overflow (r * s)
  | Fin r, inf => x_signed inf r
  | inf, Fin s => x_signed inf s
  | PInf, PInf | NInf, NInf => PInf
  | PInf, NInf | NInf, PInf => NInf
  end.

Definition x_div (a b : xreal) : xreal :=
  match a, b with
  | NaN, _ | _, NaN => NaN
  | Fin r, Fin s =>
      if Req_dec_T s 0 then x_signed PInf r
      else overflow (r / s)
  | Fin _, _ => Fin 0
  | inf, Fin s => if Rlt_dec s 0 then x_neg inf else inf
  | _, _ => NaN
  end.

Definition x_exp (a : xreal) : xreal :=
  match a with
  | Fin r => overflow (exp r)
  | PInf => PInf
  | NInf => Fin 0
  | NaN => NaN
  end.

Definition x_log (a : xreal) : xreal :=
  match a with
  | Fin r =>
      if Rlt_dec r 0 then NaN
      else if Req_dec_T r 0 then NInf
      else Fin (ln r)
  | PInf => PInf
  | _ => NaN
  end.

#[export] Instance X_arith : Arith xreal := {|
  zero := Fin 0;
  one := Fin 1;
  half := Fin (/ 2);
  add := x_add;
  sub := x_sub;
  mul := x_mul;
  div := x_div;
  neg := x_neg;
  of_nat := fun n => overflow (INR n)
|}.

#[export] Instance X_transc : Transc xreal := {|
  fexp := x_exp;
  flog := x_log
|}.

(** The object a trainer holds after [initialize]: hyperparameters [k]
    and [lr], and the parameters of [st]. *)
Definition holding {F : Type} (k : nat) (lr : F)
  (st : list F * vec F * F) : obj F :=
  Obj k lr (Some (snd (fst st))) (Some (snd st)).

(** ** The trainers as the specification words them

    The formulas of the contract of [fit], over the reals: written from
    the text of the specification, to be compared with the classes. *)
Module Spec.
Local Open Scope R_scope.

(** mean(v) *)
Definition mean (v : list R) : R :=
  fold_right Rplus 0 v / INR (length v).

(** y_hat = X.w + b, one entry per row *)
Definition predictions (X : matrix R) (w : list R) (b : R) : list R :=
  map (fun row => fold_right Rplus 0 (zip Rmult row w) + b) (rows X).

(** X^T.r, one entry per column: the sum over the rows i of X_ij r_i *)
Definition Xt_times (X : matrix R) (r : list R) : list R :=
  map (fun j => fold_right Rplus 0 (zip Rmult (column X j) r))
    (seq 0 (ncols X)).

(** w <- w - (learning_rate/m).X^T.r and b <- b - learning_rate.mean(r) *)
Definition gd_update (X : matrix R) (lr : R) (r : list R)
  (wb : list R * R) : list R * R :=
  let m := INR (nrows X) in
  (zip Rminus (fst wb) (map (Rmult (lr / m)) (Xt_times X r)),
   snd wb - lr * mean r).

(** The logistic link g(z) = 1 / (1 + e^(-z)) *)
Definition g (z : R) : R := 1 / (1 + exp (- z)).

(** One iteration of the linear trainer: predictions, loss
    0.5 * mean((y_hat - y)^2) appended, then both updates from the same
    residual. *)
Definition linear_iteration (X : matrix R) (y : list R) (lr : R)
  (st : list R * list R * R) : list R * list R * R :=
  let '(losses, w, b) := st in
  let yhat := predictions X w b in
  let r := zip Rminus yhat y in
  let loss := 0.5 * mean (map (fun e => e ^ 2) r) in
  let wb := gd_update X lr r (w, b) in
  (losses ++ [loss], fst wb, snd wb).

(** A trace that never goes up: losses[i+1] <= losses[i]. *)
Definition non_increasing (losses : list R) : Prop :=
  forall i : nat,
    (i + 1 < length losses)%nat ->
    nth (i + 1) losses 0 <= nth i losses 0.

End Spec.

(** The invariants of the data model: a rectangular design matrix with
    at least one row and one column, and one target per row. *)
Definition valid_data {F : Type} (X : matrix F) (y : vec F) : Prop :=
  wf_matrix X /\ 1 <= nrows X /\ 1 <= ncols X /\ length y = nrows X.

(** A small data set over the rationals: two samples of one feature. *)
Definition X_small : matrix Q :=
  {| nrows := 2; ncols := 1; rows := [[1%Q]; [2%Q]] |}.

Definition y_small : vec Q := [3%Q; 5%Q].

(** A small data set over the reals: two samples of one feature, with
    binary labels. *)
Definition X_two : matrix R :=
  {| nrows := 2; ncols := 1; rows := [[1%R]; [2%R]] |}.

Definition y_two : vec R := [0%R; 1%R].

(** ** Quantities of the descent analysis *)

(** The sum over the rows of [r_i] times row [i]: a vector with one
    entry per column. *)
Fixpoint lincomb (n : nat) (Xs : list (list R)) (r : list R) : list R :=
  match Xs, r with
  | x :: Xs', ri :: r' => zip Rplus (map (Rmult ri) x) (lincomb n Xs' r')
  | _, _ => repeat 0%R n
  end.

(** The squared Frobenius norm of [X] with a column of ones added. *)
Definition frobenius1 (Xs : list (list R)) : R :=
  fold_right Rplus 0%R (map (fun x => (dot x x + 1)%R) Xs).

(** A learning rate below this bound makes every step of the linear
    trainer a descent step; it depends on [X] alone. *)
Definition lr_bound (X : matrix R) : R :=
  (2 * INR (nrows X) / frobenius1 (rows X))%R.

(** The loss of the linear trainer at the parameters of a state. *)
Definition mse (X : matrix R) (y : list R) (st : list R * list R * R) : R :=
  (0.5 * Spec.mean
           (map (fun e => e ^ 2)
              (zip Rminus (Spec.predictions X (snd (fst st)) (snd st)) y)))%R.

(** ** Parameters of an object *)

(** [initialize] has run on the object: both parameters exist. *)
Definition initialized {F : Type} (o : obj F) : Prop :=
  exists w b, coef o = Some w /\ bias o = Some b.

(** A method body that never removes the parameters, whether it returns
    or raises. *)
Definition keeps_initialized {F A : Type} (c : M (obj F) A) : Prop :=
  forall s, initialized s -> initialized (snd (c s)).

(** Targets of the wrong shape for [X_small]. *)
Definition y_one : vec Q := [5%Q].

Definition y_three : vec Q := [1%Q; 2%Q; 3%Q].

(** The logistic trainer after one iteration on [X_two], [y_two] with
    learning rate 1. *)
Definition final_two : list R * vec R * R :=
  LogisticRegression.pass X_two y_two 1%R (fit_start 1).

Definition fitted_two : obj R := holding 1 1%R final_two.

(** The error of the first pass of [fit] on targets that are neither one
    per row nor a single one: [m] rows against [k] targets. The logistic
    trainer meets the targets first as a left operand ([swap]). *)
Definition mismatch_error (swap : bool) (m k : nat) : exn :=
  if m =? 1 then ValueError_matmul m k
  else if swap then ValueError_broadcast k m
  else ValueError_broadcast m k.

(** A misshapen target vector for [X_two]. *)
Definition y_three_R : vec R := [1%R; 2%R; 3%R].

(** The linear trainer over the rationals with one iteration and
    learning rate 0.1, as constructed and after a call of [fit] that
    raised in its first pass. *)
Definition fresh_small : obj Q := LinearRegression.__init__ 1 (1 # 10)%Q.

Definition failed_small : obj Q :=
  Obj 1 (1 # 10)%Q (Some [0%Q]) (Some 0%Q).

(** ** Shapes alone decide whether a pass raises *)

(** The length two 1-D shapes broadcast to, when they do. *)
Definition broadcast_shape (a b : nat) : option nat :=
  if a =? b then Some a
  else if a =? 1 then Some b
  else if b =? 1 then Some a
  else None.

(** The exception a pass of the loop body of [fit] raises, read off the
    shapes of [X] and [y]; [None] when the pass returns. The residual
    has one entry per element of [rows X], broadcast against [y]; the
    logistic trainer ([swap]) meets [y] first as the left operand of its
    loss line. *)
Definition first_pass_error {F : Type} (swap : bool) (X : matrix F)
  (y : vec F) : option exn :=
  let p := length (rows X) in
  match broadcast_shape p (length y) with
  | None =>
      Some (if swap then ValueError_broadcast (length y) p
            else ValueError_broadcast p (length y))
  | Some r =>
      if nrows X =? 0 then Some ZeroDivisionError
      else if nrows X =? r then None
      else Some (ValueError_matmul (nrows X) r)
  end.

(** The exception of a whole call of [fit]: none without a pass. *)
Definition fit_error {F : Type} (swap : bool) (X : matrix F) (y : vec F)
  (max_iterations : nat) : option exn :=
  if max_iterations =? 0 then None else first_pass_error swap X y.

(** A design matrix without rows. *)
Definition X_empty : matrix R := {| nrows := 0; ncols := 1; rows := [] |}.

(** ** The evaluation cells of the notebooks *)

Section Evaluation.
Context {F : Type} {AF : Arith F}.

(** [0.5*np.mean(np.square(y_preds - y_test))], the test error of the
    linear notebook. *)
Definition test_mse (y_preds y_test : vec F) : outcome F :=
  match broadcast sub y_preds y_test with
  | Raise e => Raise e
  | Return r => Return (mul half (np_mean (np_square r)))
  end.

End Evaluation.

(** The comparison [>] of two array elements. *)
Class Compare (F : Type) : Type := {
  gtb : F -> F -> bool
}.

#[export] Instance R_compare : Compare R := {|
  gtb := fun a b => if Rlt_dec b a then true else false
|}.

#[export] Instance Q_compare : Compare Q := {|
  gtb := fun a b => if Qlt_le_dec b a then true else false
|}.

Section Threshold.
Context {F : Type} {AF : Arith F} {CF : Compare F}.

(** [(y_preds > 0.5).astype(int)], the class labels of the logistic
    notebook. *)
Definition threshold (y_preds : vec F) : list Z :=
  map (fun p => if gtb p half then 1%Z else 0%Z) y_preds.

End Threshold.

(** ** The train/test split of the notebooks *)

(** Python [int(q)] of a float: truncation toward zero. *)
Definition python_int (q : Q) : Z := Z.quot (Qnum q) (Z.pos (Qden q)).

(** [train_size = int(num_samples * 0.8)], the product being taken
    exactly. *)
Definition train_size (num_samples : nat) : nat :=
  Z.to_nat (python_int (inject_Z (Z.of_nat num_samples) * 0.8)%Q).

(** The outcome of indexing with an array of indices. *)
Inductive selection (A : Type) : Type :=
| Selected (a : A)
| IndexError (index size : nat).
    (* index <index> is out of bounds for axis 0 with size <size> *)

Arguments Selected {A} a.
Arguments IndexError {A} index size.

(** [a[indices]] along the first axis, for indices that are not
    negative: the elements in the order of the indices, or the first
    index out of bounds. *)
Fixpoint take {A : Type} (a : list A) (indices : list nat)
  : selection (list A) :=
  match indices with
  | [] => Selected []
  | i :: indices' =>
      match nth_error a i with
      | None => IndexError i (length a)
      | Some x =>
          match take a indices' with
          | Selected xs => Selected (x :: xs)
          | IndexError j size => IndexError j size
          end
      end
  end.

Section Split.
Context {F : Type}.

(** [X[indices]] on a 2-D array: rows are selected. *)
Definition take_rows (X : matrix F) (indices : list nat)
  : selection (matrix F) :=
  match take (rows X) indices with
  | Selected r =>
      Selected {| nrows := length indices; ncols := ncols X; rows := r |}
  | IndexError j size => IndexError j size
  end.

(** The two split cells. [permutated_indicies] is what
    [rng.permutation(num_samples)] returned. *)
Definition train_test_split (X : matrix F) (y : vec F)
  (permutated_indicies : list nat)
  : selection (matrix F * vec F * matrix F * vec F) :=
  let num_samples := nrows X in
  let train_size := train_size num_samples in
  let train_indices := firstn train_size permutated_indicies in
  let test_indices := skipn train_size permutated_indicies in
  match take_rows X train_indices with
  | IndexError j size => IndexError j size
  | Selected X_train =>
      match take y train_indices with
      | IndexError j size => IndexError j size
      | Selected y_train =>
          match take_rows X test_indices with
          | IndexError j size => IndexError j size
          | Selected X_test =>
              match take y test_indices with
              | IndexError j size => IndexError j size
              | Selected y_test =>
                  Selected (X_train, y_train, X_test, y_test)
              end
          end
      end
  end.

End Split.

(** One sample of one feature. *)
Definition X_single : matrix R := {| nrows := 1; ncols := 1; rows := [[1%R]] |}.

(** ** The standardisation cell of the logistic notebook *)

(** [np.sqrt] on one element. *)
Class Sqrt (F : Type) : Type := {
  fsqrt : F -> F
}.

#[export] Instance R_sqrt : Sqrt R := {| fsqrt := sqrt |}.

Section Standardize.
Context {F : Type} {AF : Arith F} {SF : Sqrt F}.

(** [X.mean(axis=0)]: the mean of every column. *)
Definition mean_axis0 (X : matrix F) : vec F :=
  map (fun j => np_mean (column X j)) (seq 0 (ncols X)).

(** [X.std(axis=0)]: for every column, the square root of the mean
    squared deviation from the column mean. *)
Definition std_axis0 (X : matrix F) : vec F :=
  map (fun j =>
         let c := column X j in
         fsqrt (np_mean (np_square (vec_scalar sub c (np_mean c)))))
    (seq 0 (ncols X)).

(** Elementwise operation of a 2-D array with a 1-D array, which is
    broadcast over the rows: the last dimensions agree, or one of them
    is 1. The shapes in the error are those last dimensions. *)
Definition broadcast_rows (op : F -> F -> F) (X : matrix F) (v : vec F)
  : outcome (matrix F) :=
  if ncols X =? length v then
    Return {| nrows := nrows X;
              ncols := ncols X;
              rows := map (fun r => zip op r v) (rows X) |}
  else
    match v with
    | [c] =>
        Return {| nrows := nrows X;
                  ncols := ncols X;
                  rows := map (map (fun x => op x c)) (rows X) |}
    | _ =>
        if ncols X =? 1 then
          Return {| nrows := nrows X;
                    ncols := length v;
                    rows := map (fun r => map (op (nth 0 r zero)) v)
                              (rows X) |}
        else Raise (ValueError_broadcast (ncols X) (length v))
    end.

(** The cell, on the notebook variables [X_train] and [X_test]:
    [means = X_train.mean(axis=0)], [std = X_train.std(axis=0)],
    [X_train = (X_train - means) / std],
    [X_test = (X_test - means) / std]. A statement that raises leaves
    the variables assigned before it. *)
Definition standardize : M (matrix F * matrix F) unit :=
  fun vars =>
    let '(X_train, X_test) := vars in
    let means := mean_axis0 X_train in
    let std := std_axis0 X_train in
    match broadcast_rows sub X_train means with
    | Raise e => (Raise e, (X_train, X_test))
    | Return centred =>
        match broadcast_rows div centred std with
        | Raise e => (Raise e, (X_train, X_test))
        | Return X_train' =>
            match broadcast_rows sub X_test means with
            | Raise e => (Raise e, (X_train', X_test))
            | Return centred' =>
                match broadcast_rows div centred' std with
                | Raise e => (Raise e, (X_train', X_test))
                | Return X_test' => (Return tt, (X_train', X_test'))
                end
            end
        end
    end.

End Standardize.

(** A test matrix with one column more than [X_two]. *)
Definition X_wide : matrix R :=
  {| nrows := 1; ncols := 3; rows := [[1%R; 2%R; 3%R]] |}.

(** Two samples of two features, no feature constant. *)
Definition X_square : matrix R :=
  {| nrows := 2; ncols := 2; rows := [[1%R; 4%R]; [3%R; 0%R]] |}.

(** What the cell assigns to a matrix of as many columns as there are
    means and deviations. *)
Definition standardized (X : matrix R) (means std : list R) : matrix R :=
  {| nrows := nrows X;
     ncols := ncols X;
     rows := map (fun r => zip Rdiv (zip Rminus r means) std) (rows X) |}.

(** Three samples of one feature with binary labels; the first two, the
    training part under the identity permutation, differ. *)
Definition X_three : matrix R :=
  {| nrows := 3; ncols := 1; rows := [[1%R]; [3%R]; [5%R]] |}.

Definition y_labels : vec R := [0%R; 1%R; 1%R].

(** * Properties *)

Unset Implicit Arguments.

(** ** Shapes of the array operations *)

Section Shapes.
Context {F : Type} {AF : Arith F}.

Lemma zip_length (op : F -> F -> F) (u v : vec F) :
  length (zip op u v) = Nat.min (length u) (length v).
Proof. unfold zip. now rewrite length_map, length_combine. Qed.

Lemma zip_length_same (op : F -> F -> F) (u v : vec F) :
  length u = length v -> length (zip op u v) = length u.
Proof. intros E. rewrite zip_length, E. apply Nat.min_id. Qed.

Lemma matvec_length (X : matrix F) (v : vec F) :
  length (matvec X v) = length (rows X).
Proof. apply length_map. Qed.

Lemma transpose_rows_length (X : matrix F) :
  length (rows (transpose X)) = ncols X.
Proof. simpl. now rewrite length_map, length_seq. Qed.

Lemma scale_rows_length (c : F) (X : matrix F) :
  length (rows (scale c X)) = length (rows X).
Proof. simpl. apply length_map. Qed.

Lemma matmul_returns (X : matrix F) (v : vec F) :
  ncols X = length v -> matmul X v = Return (matvec X v).
Proof. intros E. unfold matmul. now rewrite (proj2 (Nat.eqb_eq _ _) E). Qed.

Lemma matmul_raises (X : matrix F) (v : vec F) :
  ncols X <> length v ->
  matmul X v = Raise (ValueError_matmul (ncols X) (length v)).
Proof. intros E. unfold matmul. now rewrite (proj2 (Nat.eqb_neq _ _) E). Qed.

Lemma truediv_returns (a : F) (m : nat) :
  m <> 0 -> truediv a m = Return (div a (of_nat m)).
Proof. intros E. unfold truediv. now rewrite (proj2 (Nat.eqb_neq _ _) E). Qed.

Lemma isub_returns (w g : vec F) :
  length w = length g -> isub w g = Return (zip sub w g).
Proof. intros E. unfold isub. now rewrite (proj2 (Nat.eqb_eq _ _) E). Qed.

Lemma broadcast_same (op : F -> F -> F) (u v : vec F) :
  length u = length v -> broadcast op u v = Return (zip op u v).
Proof. intros E. unfold broadcast. now rewrite (proj2 (Nat.eqb_eq _ _) E). Qed.

(** A one-element right operand is repeated over the left one. *)
Lemma broadcast_one_r (op : F -> F -> F) (u : vec F) (c : F) :
  broadcast op u [c] = Return (map (fun x => op x c) u).
Proof.
  unfold broadcast. destruct (length u =? length [c]) eqn:E.
  - apply Nat.eqb_eq in E. destruct u as [|a [|a' u]]; try discriminate.
    reflexivity.
  - destruct u as [|a [|a' u]]; reflexivity.
Qed.

(** Two shapes that differ, neither of them [(1,)], do not broadcast. *)
Lemma broadcast_raises (op : F -> F -> F) (u v : vec F) :
  length u <> length v -> length u <> 1 -> length v <> 1 ->
  broadcast op u v = Raise (ValueError_broadcast (length u) (length v)).
Proof.
  intros E Hu Hv. unfold broadcast.
  rewrite (proj2 (Nat.eqb_neq _ _) E).
  destruct u as [|a [|a' u]]; destruct v as [|c [|c' v]];
    simpl in *; congruence.
Qed.

(** What [broadcast] returns has the larger of the two shapes, unless
    one operand is empty. *)
Lemma broadcast_length (op : F -> F -> F) (u v r : vec F) :
  broadcast op u v = Return r ->
  (length u = length v /\ length r = length u) \/
  (length u = 1 /\ length r = length v) \/
  (length v = 1 /\ length r = length u).
Proof.
  unfold broadcast. destruct (length u =? length v) eqn:E.
  - apply Nat.eqb_eq in E. intros [= <-]. left. split; [exact E|].
    now apply zip_length_same.
  - destruct u as [|a [|a' u]]; destruct v as [|c [|c' v]];
      try discriminate; intros [= <-]; simpl;
      rewrite ?length_map; simpl; auto.
Qed.

Lemma vec_scalar_length (op : F -> F -> F) (v : vec F) (b : F) :
  length (vec_scalar op v b) = length v.
Proof. apply length_map. Qed.

Lemma scalar_vec_length (op : F -> F -> F) (a : F) (v : vec F) :
  length (scalar_vec op a v) = length v.
Proof. apply length_map. Qed.

Lemma np_zeros_length (n : nat) : length (np_zeros (F := F) n) = n.
Proof. apply repeat_length. Qed.

End Shapes.

(** ** The method monad *)

Section Monad.
Context {S A B : Type}.

Lemma bind_returns (c : M S A) (k : A -> M S B) (s s' : S) (a : A) :
  c s = (Return a, s') -> bind c k s = k a s'.
Proof. intros E. unfold bind. now rewrite E. Qed.

Lemma bind_raises (c : M S A) (k : A -> M S B) (s s' : S) (e : exn) :
  c s = (Raise e, s') -> bind c k s = (Raise e, s').
Proof. intros E. unfold bind. now rewrite E. Qed.

Lemma bind_lift (o : outcome A) (k : A -> M S B) (s : S) (a : A) :
  o = Return a -> bind (lift o) k s = k a s.
Proof. intros ->. reflexivity. Qed.

Lemma bind_lift_raise (o : outcome A) (k : A -> M S B) (s : S) (e : exn) :
  o = Raise e -> bind (lift o) k s = (Raise e, s).
Proof. intros ->. reflexivity. Qed.

End Monad.

(** ** The training loop *)

Section Loop.
Context {F : Type} {AF : Arith F}.

(** A loop whose body, on every state the invariant allows, acts on
    the trace and the parameters as [step] does, acts as the iterated
    [step]. *)
Lemma for_range_passes
  (body : list F -> M (obj F) (list F))
  (step : list F * vec F * F -> list F * vec F * F)
  (Inv : list F * vec F * F -> Prop) (k : nat) (lr : F) :
  (forall st, Inv st -> Inv (step st)) ->
  (forall st, Inv st ->
     body (fst (fst st)) (holding k lr st) =
     (Return (fst (fst (step st))), holding k lr (step st))) ->
  forall n st, Inv st ->
    for_range n body (fst (fst st)) (holding k lr st) =
    (Return (fst (fst (Nat.iter n step st))),
     holding k lr (Nat.iter n step st)).
Proof.
  intros Hinv Hbody n. induction n as [|n IH]; intros st Hst.
  - reflexivity.
  - cbn [for_range]. rewrite (bind_returns _ _ _ _ _ (Hbody st Hst)).
    rewrite (IH (step st) (Hinv st Hst)).
    now rewrite <- Nat.iter_succ_r.
Qed.

Lemma wf_matvec_length (X : matrix F) (v : vec F) :
  wf_matrix X -> length (matvec X v) = nrows X.
Proof. intros [E _]. now rewrite matvec_length. Qed.

Lemma descent_length (X : matrix F) (c : F) (w r : vec F) :
  ncols X = length w ->
  length (zip sub w (matvec (scale c (transpose X)) r)) = ncols X.
Proof.
  intros E. rewrite zip_length_same; [now symmetry|].
  now rewrite matvec_length, scale_rows_length, transpose_rows_length.
Qed.

End Loop.

(** ** One pass of the linear trainer *)

Section LinearPass.
Context {F : Type} {AF : Arith F}.
Variables (X : matrix F) (y : vec F).

(** The body returns as soon as the residual broadcasts to one entry
    per row; [r] is that residual. *)
Lemma linear_fit_body_returns (m : nat) (losses : list F) (k : nat)
  (lr : F) (w : vec F) (b : F) (r : vec F) :
  m = nrows X -> m <> 0 -> ncols X = length w ->
  broadcast sub (vec_scalar add (matvec X w) b) y = Return r ->
  length r = m ->
  LinearRegression.fit_body X y m losses (Obj k lr (Some w) (Some b)) =
  (Return (losses ++ [mul half (np_mean (np_square r))]),
   Obj k lr
     (Some (zip sub w (matvec (scale (div lr (of_nat m)) (transpose X)) r)))
     (Some (sub b (mul lr (np_mean r))))).
Proof.
  intros Hm Hm0 Hw Hr Hlen.
  unfold LinearRegression.fit_body.
  unfold self_coef, self_bias, self_learning_rate, getattr, bind at 1.
  cbn [coef]. rewrite (bind_lift _ _ _ _ (matmul_returns X w Hw)).
  unfold bind at 1. cbn [bias].
  rewrite (bind_lift _ _ _ _ Hr).
  unfold bind at 1. cbn [coef]. unfold bind at 1. cbn [learning_rate].
  rewrite (bind_lift _ _ _ _ (truediv_returns lr m Hm0)).
  rewrite (bind_lift _ _ _ _ Hr).
  rewrite (bind_lift _ _ _ _ (matmul_returns (scale _ (transpose X)) r
                            (eq_trans (eq_sym Hm) (eq_sym Hlen)))).
  assert (Hg : length w =
    length (matvec (scale (div lr (of_nat m)) (transpose X)) r)).
  { now rewrite matvec_length, scale_rows_length, transpose_rows_length. }
  rewrite (bind_lift _ _ _ _ (isub_returns w _ Hg)).
  unfold bind at 1, set_coef at 1. unfold bind at 1. cbn [bias].
  unfold bind at 1. cbn [learning_rate].
  rewrite (bind_lift _ _ _ _ Hr).
  reflexivity.
Qed.

Lemma linear_pass_shape (t : vec F) (lr : F) (st : list F * vec F * F) :
  ncols X = length (snd (fst st)) ->
  ncols X = length (snd (fst (LinearRegression.pass X t lr st))).
Proof.
  destruct st as [[losses w] b]. cbn [fst snd LinearRegression.pass].
  intros Hw. symmetry. now apply descent_length.
Qed.

Lemma linear_pass_trace (t : vec F) (lr : F) (st : list F * vec F * F) :
  length (fst (fst (LinearRegression.pass X t lr st))) =
  S (length (fst (fst st))).
Proof.
  destruct st as [[losses w] b]. cbn [fst snd LinearRegression.pass].
  rewrite length_app. simpl. lia.
Qed.

(** [y'] is what [y] stands for in the loop: [y] itself when it has
    one entry per row, its single entry repeated when it has one. *)
Variable y' : vec F.
Hypothesis WF : wf_matrix X.
Hypothesis Hrows : nrows X <> 0.
Hypothesis Hy' : length y' = nrows X.
Hypothesis Hsub : forall preds : vec F,
    length preds = nrows X ->
    broadcast sub preds y = Return (zip sub preds y').

Lemma linear_fit_body_pass (k : nat) (lr : F) (st : list F * vec F * F) :
  ncols X = length (snd (fst st)) ->
  LinearRegression.fit_body X y (nrows X) (fst (fst st)) (holding k lr st) =
  (Return (fst (fst (LinearRegression.pass X y' lr st))),
   holding k lr (LinearRegression.pass X y' lr st)).
Proof.
  destruct st as [[losses w] b]. unfold holding. cbn [fst snd]. intros Hw.
  assert (Hp : length (vec_scalar add (matvec X w) b) = nrows X).
  { now rewrite vec_scalar_length, wf_matvec_length. }
  rewrite (linear_fit_body_returns (nrows X) losses k lr w b
             (zip sub (vec_scalar add (matvec X w) b) y')
             eq_refl Hrows Hw (Hsub _ Hp)).
  - reflexivity.
  - rewrite zip_length_same; [exact Hp | now rewrite Hp].
Qed.

Lemma linear_fit_returns_as (self : obj F) :
  let k := max_iterations self in
  let lr := learning_rate self in
  let final := Nat.iter k (LinearRegression.pass X y' lr)
                 (fit_start (ncols X)) in
  LinearRegression.fit X y self = (Return final, holding k lr final).
Proof.
  intros k lr final. destruct self as [k0 lr0 w0 b0]. cbn in k, lr.
  unfold LinearRegression.fit, LinearRegression.initialize.
  unfold bind at 1. unfold bind at 1. cbn [set_coef set_bias].
  cbn [max_iterations learning_rate coef bias].
  unfold bind at 1, self_max_iterations at 1. cbn [max_iterations].
  pose proof (for_range_passes
    (LinearRegression.fit_body X y (nrows X))
    (LinearRegression.pass X y' lr)
    (fun st => ncols X = length (snd (fst st))) k lr
    (linear_pass_shape y' lr) (linear_fit_body_pass k lr)
    k (fit_start (ncols X))) as Hloop.
  cbn [fit_start fst snd holding] in Hloop.
  rewrite (bind_returns _ _ _ _ _
             (Hloop (eq_sym (np_zeros_length (ncols X))))).
  fold final. destruct final as [[losses w] b]. reflexivity.
Qed.

End LinearPass.

(** ** One pass of the logistic trainer *)

Section LogisticPass.
Context {F : Type} {AF : Arith F} {TF : Transc F}.
Variables (X : matrix F) (y : vec F).

Lemma sigmoid_length (z : vec F) :
  length (LogisticRegression.sigmoid z) = length z.
Proof.
  unfold LogisticRegression.sigmoid.
  now rewrite !scalar_vec_length, !length_map.
Qed.

(** The loss line returns when the labels have the shape of the
    predictions. *)
Lemma nll_same (t preds : vec F) :
  length t = length preds ->
  LogisticRegression.nll t preds =
  Return (neg (np_mean
                 (zip add
                    (zip mul t (map flog preds))
                    (zip mul (scalar_vec sub one t)
                       (map flog (scalar_vec sub one preds)))))).
Proof.
  intros E. unfold LogisticRegression.nll.
  rewrite broadcast_same by now rewrite length_map.
  rewrite broadcast_same
    by now rewrite length_map, !scalar_vec_length.
  rewrite broadcast_same; [reflexivity|].
  rewrite !zip_length, !length_map, !scalar_vec_length. now rewrite E.
Qed.

(** The body returns as soon as the loss line does and the residual
    broadcasts to one entry per row; [r] is that residual. *)
Lemma logistic_fit_body_returns (m : nat) (losses : list F) (k : nat)
  (lr : F) (w : vec F) (b : F) (loss : F) (r : vec F) :
  let preds := LogisticRegression.sigmoid (vec_scalar add (matvec X w) b) in
  m = nrows X -> m <> 0 -> ncols X = length w ->
  LogisticRegression.nll y preds = Return loss ->
  broadcast sub preds y = Return r ->
  length r = m ->
  LogisticRegression.fit_body X y m losses (Obj k lr (Some w) (Some b)) =
  (Return (losses ++ [loss]),
   Obj k lr
     (Some (zip sub w (matvec (scale (div lr (of_nat m)) (transpose X)) r)))
     (Some (sub b (mul lr (np_mean r))))).
Proof.
  intros preds Hm Hm0 Hw Hloss Hr Hlen. subst preds.
  unfold LogisticRegression.fit_body.
  unfold self_coef, self_bias, self_learning_rate, getattr, bind at 1.
  cbn [coef]. rewrite (bind_lift _ _ _ _ (matmul_returns X w Hw)).
  unfold bind at 1. cbn [bias].
  rewrite (bind_lift _ _ _ _ Hloss).
  unfold bind at 1. cbn [coef]. unfold bind at 1. cbn [learning_rate].
  rewrite (bind_lift _ _ _ _ (truediv_returns lr m Hm0)).
  rewrite (bind_lift _ _ _ _ Hr).
  rewrite (bind_lift _ _ _ _ (matmul_returns (scale _ (transpose X)) r
                            (eq_trans (eq_sym Hm) (eq_sym Hlen)))).
  assert (Hg : length w =
    length (matvec (scale (div lr (of_nat m)) (transpose X)) r)).
  { now rewrite matvec_length, scale_rows_length, transpose_rows_length. }
  rewrite (bind_lift _ _ _ _ (isub_returns w _ Hg)).
  unfold bind at 1, set_coef at 1. unfold bind at 1. cbn [bias].
  unfold bind at 1. cbn [learning_rate].
  rewrite (bind_lift _ _ _ _ Hr).
  reflexivity.
Qed.

Lemma logistic_pass_shape (t : vec F) (lr : F)
  (st : list F * vec F * F) :
  ncols X = length (snd (fst st)) ->
  ncols X = length (snd (fst (LogisticRegression.pass X t lr st))).
Proof.
  destruct st as [[losses w] b]. cbn [fst snd LogisticRegression.pass].
  intros Hw. symmetry. now apply descent_length.
Qed.

Lemma logistic_pass_trace (t : vec F) (lr : F)
  (st : list F * vec F * F) :
  length (fst (fst (LogisticRegression.pass X t lr st))) =
  S (length (fst (fst st))).
Proof.
  destruct st as [[losses w] b]. cbn [fst snd LogisticRegression.pass].
  rewrite length_app. simpl. lia.
Qed.

(** [y'] is what [y] stands for in the loop: [y] itself when it has
    one entry per row, its single entry repeated when it has one. *)
Variable y' : vec F.
Hypothesis WF : wf_matrix X.
Hypothesis Hrows : nrows X <> 0.
Hypothesis Hy' : length y' = nrows X.
Hypothesis Hsub : forall preds : vec F,
    length preds = nrows X ->
    broadcast sub preds y = Return (zip sub preds y').
Hypothesis Hnll : forall preds : vec F,
    length preds = nrows X ->
    LogisticRegression.nll y preds = LogisticRegression.nll y' preds.

Lemma logistic_fit_body_pass (k : nat) (lr : F) (st : list F * vec F * F) :
  ncols X = length (snd (fst st)) ->
  LogisticRegression.fit_body X y (nrows X) (fst (fst st))
    (holding k lr st) =
  (Return (fst (fst (LogisticRegression.pass X y' lr st))),
   holding k lr (LogisticRegression.pass X y' lr st)).
Proof.
  destruct st as [[losses w] b]. unfold holding. cbn [fst snd]. intros Hw.
  assert (Hp : length (LogisticRegression.sigmoid
                         (vec_scalar add (matvec X w) b)) = nrows X).
  { now rewrite sigmoid_length, vec_scalar_length, wf_matvec_length. }
  assert (Hl : LogisticRegression.nll y
                 (LogisticRegression.sigmoid
                    (vec_scalar add (matvec X w) b)) = _)
    by (rewrite (Hnll _ Hp); apply nll_same; now rewrite Hp, Hy').
  rewrite (logistic_fit_body_returns (nrows X) losses k lr w b _ _
             eq_refl Hrows Hw Hl (Hsub _ Hp)).
  - reflexivity.
  - rewrite zip_length_same; [exact Hp | now rewrite Hp].
Qed.

Lemma logistic_fit_returns_as (self : obj F) :
  let k := max_iterations self in
  let lr := learning_rate self in
  let final := Nat.iter k (LogisticRegression.pass X y' lr)
                 (fit_start (ncols X)) in
  LogisticRegression.fit X y self = (Return final, holding k lr final).
Proof.
  intros k lr final. destruct self as [k0 lr0 w0 b0]. cbn in k, lr.
  unfold LogisticRegression.fit, LogisticRegression.initialize.
  unfold bind at 1. unfold bind at 1. cbn [set_coef set_bias].
  cbn [max_iterations learning_rate coef bias].
  unfold bind at 1, self_max_iterations at 1. cbn [max_iterations].
  pose proof (for_range_passes
    (LogisticRegression.fit_body X y (nrows X))
    (LogisticRegression.pass X y' lr)
    (fun st => ncols X = length (snd (fst st))) k lr
    (logistic_pass_shape y' lr) (logistic_fit_body_pass k lr)
    k (fit_start (ncols X))) as Hloop.
  cbn [fit_start fst snd holding] in Hloop.
  rewrite (bind_returns _ _ _ _ _
             (Hloop (eq_sym (np_zeros_length (ncols X))))).
  fold final. destruct final as [[losses w] b]. reflexivity.
Qed.

End LogisticPass.

(** ** [fit] on valid data *)

Section ValidData.
Context {F : Type} {AF : Arith F} {TF : Transc F}.
Variables (X : matrix F) (y : vec F).
Hypothesis WF : wf_matrix X.
Hypothesis Hrows : nrows X <> 0.
Hypothesis Hy : length y = nrows X.

(** [fit] on any object: it returns the trace and the parameters that
    [max_iterations] passes leave, and keeps the parameters. *)
Lemma linear_fit_returns (self : obj F) :
  let k := max_iterations self in
  let lr := learning_rate self in
  let final := Nat.iter k (LinearRegression.pass X y lr)
                 (fit_start (ncols X)) in
  LinearRegression.fit X y self = (Return final, holding k lr final).
Proof.
  apply linear_fit_returns_as; auto.
  intros preds Hp. apply broadcast_same. congruence.
Qed.

Lemma logistic_fit_returns (self : obj F) :
  let k := max_iterations self in
  let lr := learning_rate self in
  let final := Nat.iter k (LogisticRegression.pass X y lr)
                 (fit_start (ncols X)) in
  LogisticRegression.fit X y self = (Return final, holding k lr final).
Proof.
  apply logistic_fit_returns_as; auto.
  intros preds Hp. apply broadcast_same. congruence.
Qed.

Lemma linear_fit_body_valid (k : nat) (lr : F) (st : list F * vec F * F) :
  ncols X = length (snd (fst st)) ->
  LinearRegression.fit_body X y (nrows X) (fst (fst st)) (holding k lr st) =
  (Return (fst (fst (LinearRegression.pass X y lr st))),
   holding k lr (LinearRegression.pass X y lr st)).
Proof.
  apply linear_fit_body_pass; auto.
  intros preds Hp. apply broadcast_same. congruence.
Qed.

Lemma logistic_fit_body_valid (k : nat) (lr : F)
  (st : list F * vec F * F) :
  ncols X = length (snd (fst st)) ->
  LogisticRegression.fit_body X y (nrows X) (fst (fst st))
    (holding k lr st) =
  (Return (fst (fst (LogisticRegression.pass X y lr st))),
   holding k lr (LogisticRegression.pass X y lr st)).
Proof.
  apply logistic_fit_body_pass; auto.
  intros preds Hp. apply broadcast_same. congruence.
Qed.

End ValidData.

(** ** The fixed iteration count *)

Section Iterations.
Context {F : Type} {AF : Arith F} {TF : Transc F}.

Lemma valid_data_rows (X : matrix F) (y : vec F) :
  valid_data X y -> nrows X <> 0.
Proof. intros (_ & H & _). lia. Qed.

Lemma iter_trace_length (step : list F * vec F * F -> list F * vec F * F) :
  (forall st, length (fst (fst (step st))) = S (length (fst (fst st)))) ->
  forall k st,
    length (fst (fst (Nat.iter k step st))) = k + length (fst (fst st)).
Proof.
  intros Hstep k st. induction k as [|k IH]; [reflexivity|].
  cbn [Nat.iter nat_rect]. rewrite Hstep. change (Nat.iter k step st)
    with (nat_rect (fun _ => (list F * vec F * F)%type) st
            (fun _ => step) k) in IH.
  rewrite IH. reflexivity.
Qed.

End Iterations.

(** C2. On valid data, [fit] of either trainer returns after exactly
    [max_iterations] passes of its loop body, whatever the data (there
    is no early exit): the value returned is the state that
    [max_iterations] iterated passes reach from the zero parameters and
    the empty trace; its trace has length [max_iterations], and its
    weights and bias are the ones the object holds afterwards. *)
Theorem fit_runs_max_iterations
  {F : Type} {AF : Arith F} {TF : Transc F}
  (X : matrix F) (y : vec F) (self : obj F) :
  valid_data X y ->
  let k := max_iterations self in
  let lr := learning_rate self in
  (exists losses w b,
      LinearRegression.fit X y self =
        (Return (losses, w, b), Obj k lr (Some w) (Some b)) /\
      (losses, w, b) =
        Nat.iter k (LinearRegression.pass X y lr) (fit_start (ncols X)) /\
      length losses = k) /\
  (exists losses w b,
      LogisticRegression.fit X y self =
        (Return (losses, w, b), Obj k lr (Some w) (Some b)) /\
      (losses, w, b) =
        Nat.iter k (LogisticRegression.pass X y lr) (fit_start (ncols X)) /\
      length losses = k).
Proof.
  intros V k lr. pose proof (valid_data_rows X y V) as Hm.
  destruct V as (WF & _ & _ & Hy). split.
  - pose proof (linear_fit_returns X y WF Hm Hy self) as E.
    cbn zeta in E. fold k lr in E.
    pose proof (iter_trace_length (LinearRegression.pass X y lr)
                  (linear_pass_trace X y lr) k (fit_start (ncols X))) as L.
    destruct (Nat.iter k (LinearRegression.pass X y lr)
                (fit_start (ncols X))) as [[losses w] b].
    exists losses, w, b. cbn in L. repeat split; [exact E | lia].
  - pose proof (logistic_fit_returns X y WF Hm Hy self) as E.
    cbn zeta in E. fold k lr in E.
    pose proof (iter_trace_length (LogisticRegression.pass X y lr)
                  (logistic_pass_trace X y lr) k (fit_start (ncols X))) as L.
    destruct (Nat.iter k (LogisticRegression.pass X y lr)
                (fit_start (ncols X))) as [[losses w] b].
    exists losses, w, b. cbn in L. repeat split; [exact E | lia].
Qed.

Lemma valid_two : valid_data X_two y_two.
Proof.
  unfold valid_data, wf_matrix. cbn.
  repeat split; auto.
Qed.

Lemma fit_runs_max_iterations_witness :
  valid_data X_two y_two /\
  (exists losses w b,
      LinearRegression.fit X_two y_two (LinearRegression.__init__ 3 1%R) =
        (Return (losses, w, b), Obj 3 1%R (Some w) (Some b)) /\
      (losses, w, b) =
        Nat.iter 3 (LinearRegression.pass X_two y_two 1%R) (fit_start 1) /\
      length losses = 3) /\
  (exists losses w b,
      LogisticRegression.fit X_two y_two (LinearRegression.__init__ 3 1%R) =
        (Return (losses, w, b), Obj 3 1%R (Some w) (Some b)) /\
      (losses, w, b) =
        Nat.iter 3 (LogisticRegression.pass X_two y_two 1%R) (fit_start 1) /\
      length losses = 3).
Proof.
  split; [exact valid_two|].
  exact (fit_runs_max_iterations X_two y_two
           (LinearRegression.__init__ 3 1%R) valid_two).
Defined.

(** C3. A trainer of either class constructed with [max_iterations = 0]
    returns from [fit], on any data, the empty trace, the zero vector
    with one entry per column of [X] and the bias 0; these
    zero-initialised values are also the parameters it holds
    afterwards. *)
Theorem fit_zero_iterations
  {F : Type} {AF : Arith F} {TF : Transc F}
  (X : matrix F) (y : vec F) (lr : F) :
  LinearRegression.fit X y (LinearRegression.__init__ 0 lr) =
    (Return ([], repeat zero (ncols X), zero),
     Obj 0 lr (Some (repeat zero (ncols X))) (Some zero)) /\
  LogisticRegression.fit X y (LogisticRegression.__init__ 0 lr) =
    (Return ([], repeat zero (ncols X), zero),
     Obj 0 lr (Some (repeat zero (ncols X))) (Some zero)) /\
  length (repeat (zero (F := F)) (ncols X)) = ncols X.
Proof.
  split; [reflexivity|]. split; [reflexivity|]. apply repeat_length.
Qed.

(** A run over the rationals: one iteration at learning rate 0.1 on two
    samples, [y = 3, 5] at [x = 1, 2]. *)
Example linear_one_step_small :
  LinearRegression.fit X_small y_small fresh_small =
    (Return ([(17 # 2)%Q], [(13 # 20)%Q], (2 # 5)%Q),
     Obj 1 (1 # 10)%Q (Some [(13 # 20)%Q]) (Some (2 # 5)%Q)).
Proof. vm_compute. reflexivity. Qed.

(** ** The classes over the reals and the formulas of the specification *)

Section RealFormulas.
Local Open Scope R_scope.

Lemma np_sum_R (v : list R) : np_sum v = fold_right Rplus 0 v.
Proof. reflexivity. Qed.

Lemma np_mean_R (v : list R) : np_mean v = Spec.mean v.
Proof. reflexivity. Qed.

Lemma dot_R (u v : list R) : dot u v = fold_right Rplus 0 (zip Rmult u v).
Proof. reflexivity. Qed.

(** A factor on one operand of an inner product comes out of it. *)
Lemma dot_scale_l (c : R) (u v : list R) :
  dot (map (Rmult c) u) v = c * dot u v.
Proof.
  revert v. induction u as [|a u IH]; intros [|x v]; cbn.
  - ring.
  - ring.
  - ring.
  - specialize (IH v). unfold dot, np_sum, zip in IH. cbn in IH.
    rewrite IH. ring.
Qed.

Lemma predictions_R (X : matrix R) (w : list R) (b : R) :
  vec_scalar add (matvec X w) b = Spec.predictions X w b.
Proof.
  unfold vec_scalar, matvec, Spec.predictions. rewrite map_map.
  reflexivity.
Qed.

(** Scaling the transposed matrix and then multiplying, as the code
    does, gives the scaled product the specification writes. *)
Lemma scaled_transpose_R (X : matrix R) (c : R) (r : list R) :
  matvec (scale c (transpose X)) r = map (Rmult c) (Spec.Xt_times X r).
Proof.
  unfold matvec, Spec.Xt_times. cbn [scale transpose rows].
  rewrite !map_map. apply map_ext. intros j.
  rewrite dot_scale_l. reflexivity.
Qed.

Lemma mean_square_R (r : list R) :
  mul half (np_mean (np_square r)) =
  0.5 * Spec.mean (map (fun e => e ^ 2) r).
Proof.
  assert (E : map (fun x : R => x * x) r = map (fun e => e ^ 2) r).
  { apply map_ext. intros e. ring. }
  rewrite np_mean_R. unfold np_square. cbn [mul half R_arith].
  rewrite E. lra.
Qed.

(** The update of both parameters, as either class performs it from
    a residual [r], is the update of the specification. *)
Lemma descent_R (X : matrix R) (lr : R) (r w : list R) (b : R) :
  (zip sub w (matvec (scale (div lr (of_nat (nrows X))) (transpose X)) r),
   sub b (mul lr (np_mean r))) =
  Spec.gd_update X lr r (w, b).
Proof.
  unfold Spec.gd_update. cbn [fst snd].
  rewrite scaled_transpose_R. reflexivity.
Qed.

Lemma linear_pass_R (X : matrix R) (y : list R) (lr : R)
  (st : list R * list R * R) :
  LinearRegression.pass X y lr st = Spec.linear_iteration X y lr st.
Proof.
  destruct st as [[losses w] b].
  unfold LinearRegression.pass, Spec.linear_iteration.
  rewrite predictions_R, mean_square_R.
  cbv zeta.
  rewrite <- descent_R. reflexivity.
Qed.

Lemma iter_ext {A : Type} (f g : A -> A) :
  (forall a, f a = g a) ->
  forall k a, Nat.iter k f a = Nat.iter k g a.
Proof.
  intros E k a. induction k as [|k IH]; [reflexivity|].
  cbn [Nat.iter nat_rect]. unfold Nat.iter in IH. now rewrite IH, E.
Qed.

End RealFormulas.

(** C1. On valid data and with a positive learning rate, [fit] of the
    linear trainer returns what [max_iterations] iterations of the
    specification's step produce from [w] = zero vector, [b] = 0 and the
    empty trace, each iteration computing y_hat = X.w + b, appending
    0.5 * mean((y_hat - y)^2), then replacing [w] by
    w - (learning_rate/m).X^T.(y_hat - y) and [b] by
    b - learning_rate.mean(y_hat - y), both from the same y_hat. *)
Theorem linear_fit_iterates_spec
  (X : matrix R) (y : vec R) (self : obj R) :
  valid_data X y ->
  (0 < learning_rate self)%R ->
  let k := max_iterations self in
  let lr := learning_rate self in
  fst (LinearRegression.fit X y self) =
    Return (Nat.iter k (Spec.linear_iteration X y lr)
              ([], repeat 0%R (ncols X), 0%R)) /\
  forall i : nat,
    Nat.iter (S i) (Spec.linear_iteration X y lr)
      ([], repeat 0%R (ncols X), 0%R) =
    (let '(losses, w, b) :=
       Nat.iter i (Spec.linear_iteration X y lr)
         ([], repeat 0%R (ncols X), 0%R) in
     let yhat := Spec.predictions X w b in
     let r := zip Rminus yhat y in
     (losses ++ [0.5 * Spec.mean (map (fun e => e ^ 2) r)],
      zip Rminus w
        (map (Rmult (lr / INR (nrows X))) (Spec.Xt_times X r)),
      b - lr * Spec.mean r))%R.
Proof.
  intros V _ k lr. pose proof (valid_data_rows X y V) as Hm.
  destruct V as (WF & _ & _ & Hy). split.
  - rewrite (linear_fit_returns X y WF Hm Hy self). cbn [fst].
    f_equal. apply iter_ext. apply linear_pass_R.
  - intros i. rewrite Nat.iter_succ.
    destruct (Nat.iter i _ _) as [[losses w] b]. reflexivity.
Qed.

(** ** Inner products of real vectors *)

Section RealVectors.
Local Open Scope R_scope.

Lemma dot_cons (a x : R) (u v : list R) :
  dot (a :: u) (x :: v) = a * x + dot u v.
Proof. reflexivity. Qed.

Lemma dot_nil_r (u : list R) : dot u [] = 0.
Proof. destruct u; reflexivity. Qed.

Lemma dot_zeros_l (n : nat) (v : list R) : dot (repeat 0 n) v = 0.
Proof.
  revert v. induction n as [|n IH]; intros [|x v]; try reflexivity.
  cbn [repeat]. rewrite dot_cons, IH. ring.
Qed.

Lemma dot_zeros_r (n : nat) (u : list R) : dot u (repeat 0 n) = 0.
Proof.
  revert u. induction n as [|n IH]; intros [|a u]; try reflexivity.
  cbn [repeat]. rewrite dot_cons, IH. ring.
Qed.

Lemma dot_nonneg (u : list R) : 0 <= dot u u.
Proof.
  induction u as [|a u IH]; [unfold dot; cbn; lra|].
  rewrite dot_cons. nra.
Qed.

Lemma dot_add_l (u v g : list R) :
  length u = length v ->
  dot (zip Rplus u v) g = dot u g + dot v g.
Proof.
  revert v g. induction u as [|a u IH]; intros [|b v] [|x g] E;
    try discriminate; try (unfold dot; cbn; ring).
  injection E as E. change (zip Rplus (a :: u) (b :: v))
    with ((a + b) :: zip Rplus u v).
  rewrite !dot_cons, IH by exact E. ring.
Qed.

(** The inner product with the updated weights. *)
Lemma dot_descent (c : R) (x w g : list R) :
  length w = length g ->
  dot x (zip Rminus w (map (Rmult c) g)) = dot x w - c * dot x g.
Proof.
  revert w g. induction x as [|a x IH]; intros [|b w] [|d g] E;
    try discriminate; try (unfold dot; cbn; ring).
  injection E as E. change (zip Rminus (b :: w) (map (Rmult c) (d :: g)))
    with ((b - c * d) :: zip Rminus w (map (Rmult c) g)).
  rewrite !dot_cons, IH by exact E. ring.
Qed.

Lemma sum_squares (r : list R) :
  fold_right Rplus 0 (map (fun e => e ^ 2) r) = dot r r.
Proof.
  induction r as [|a r IH]; [reflexivity|].
  rewrite dot_cons. cbn [map fold_right]. rewrite IH. ring.
Qed.

(** Cauchy-Schwarz. *)
Lemma cauchy_step (a x d U V : R) :
  0 <= U -> 0 <= V -> d ^ 2 <= U * V ->
  (a * x + d) ^ 2 <= (a ^ 2 + U) * (x ^ 2 + V).
Proof.
  intros HU HV Hd.
  assert (K : 2 * (a * x * d) <= a ^ 2 * V + U * x ^ 2).
  { destruct (Req_dec V 0) as [-> | HV0].
    - assert (d = 0) by nra. subst d. nra.
    - assert (0 < V) by lra.
      assert (S1 : 0 <= (a * V - x * d) ^ 2) by apply pow2_ge_0.
      assert (S2 : x ^ 2 * d ^ 2 <= x ^ 2 * (U * V))
        by (apply Rmult_le_compat_l; [apply pow2_ge_0 | exact Hd]).
      assert (S3 : V * (2 * (a * x * d)) <= V * (a ^ 2 * V + U * x ^ 2))
        by nra.
      apply Rmult_le_reg_l with V; assumption. }
  nra.
Qed.

Lemma cauchy_schwarz (u v : list R) :
  dot u v ^ 2 <= dot u u * dot v v.
Proof.
  revert v. induction u as [|a u IH]; intros [|x v].
  - unfold dot; cbn; lra.
  - unfold dot at 1 2. cbn. pose proof (dot_nonneg (x :: v)). nra.
  - rewrite !dot_nil_r. pose proof (dot_nonneg (a :: u)). nra.
  - rewrite !dot_cons.
    replace (a * a + dot u u) with (a ^ 2 + dot u u) by ring.
    replace (x * x + dot v v) with (x ^ 2 + dot v v) by ring.
    apply cauchy_step; [apply dot_nonneg | apply dot_nonneg | apply IH].
Qed.

(** The squared norm after a step of size [c] along [q]. *)
Lemma dot_step (c : R) (r q : list R) :
  length r = length q ->
  dot (zip Rminus r (map (Rmult c) q)) (zip Rminus r (map (Rmult c) q)) =
  dot r r - 2 * c * dot r q + c ^ 2 * dot q q.
Proof.
  revert q. induction r as [|a r IH]; intros [|b q] E; try discriminate.
  - unfold dot; cbn; ring.
  - injection E as E.
    change (zip Rminus (a :: r) (map (Rmult c) (b :: q)))
      with ((a - c * b) :: zip Rminus r (map (Rmult c) q)).
    rewrite !dot_cons, IH by exact E. ring.
Qed.

End RealVectors.

(** ** The descent step of the linear trainer *)

Section Descent.
Local Open Scope R_scope.

Lemma nth_map_seq (f : nat -> R) (k i : nat) :
  (i < k)%nat -> nth i (map f (seq 0 k)) 0 = f i.
Proof.
  intros Hi.
  rewrite (nth_indep _ 0 (f 0%nat)) by now rewrite length_map, length_seq.
  rewrite (map_nth f), seq_nth by exact Hi. reflexivity.
Qed.

Lemma map_nth_seq (x : list R) :
  map (fun j => nth j x 0) (seq 0 (length x)) = x.
Proof.
  apply nth_ext with (d := 0) (d' := 0).
  - now rewrite length_map, length_seq.
  - intros i Hi. rewrite length_map, length_seq in Hi.
    now rewrite nth_map_seq.
Qed.

Lemma map_zero_seq (n : nat) :
  map (fun _ : nat => 0) (seq 0 n) = repeat 0 n.
Proof.
  generalize 0%nat. induction n as [|n IH]; intros s; [reflexivity|].
  cbn. now rewrite IH.
Qed.

Lemma zip_map_map {A : Type} (op : R -> R -> R) (f h : A -> R)
  (l : list A) :
  zip op (map f l) (map h l) = map (fun j => op (f j) (h j)) l.
Proof.
  induction l as [|a l IH]; [reflexivity|].
  cbn. unfold zip in IH. now rewrite IH.
Qed.

Variable n : nat.

Lemma lincomb_length (Xs : list (list R)) (r : list R) :
  Forall (fun x => length x = n) Xs -> length (lincomb n Xs r) = n.
Proof.
  intros H. revert r. induction H as [|x Xs' Hx _ IH]; intros [|ri r];
    try apply repeat_length.
  cbn [lincomb]. rewrite zip_length_same; rewrite length_map; [exact Hx|].
  now rewrite IH.
Qed.

(** Column by column, as [X.T @ r] is computed, or row by row: the
    same vector. *)
Lemma columns_lincomb (Xs : list (list R)) (r : list R) :
  Forall (fun x => length x = n) Xs ->
  map (fun j => dot (map (fun row => nth j row 0) Xs) r) (seq 0 n) =
  lincomb n Xs r.
Proof.
  intros H. revert r. induction H as [|x Xs' Hx _ IH]; intros [|ri r].
  - apply map_zero_seq.
  - apply map_zero_seq.
  - cbn [lincomb]. rewrite <- map_zero_seq. apply map_ext.
    intros j. apply dot_nil_r.
  - cbn [lincomb]. rewrite <- IH.
    replace (map (Rmult ri) x)
      with (map (Rmult ri) (map (fun j => nth j x 0) (seq 0 n)))
      by (now rewrite <- Hx, map_nth_seq).
    rewrite map_map, zip_map_map. apply map_ext. intros j.
    cbn [map]. rewrite dot_cons. ring.
Qed.

(** The transposed product is the adjoint of the product. *)
Lemma lincomb_adjoint (Xs : list (list R)) (r g : list R) :
  Forall (fun x => length x = n) Xs ->
  dot (lincomb n Xs r) g = dot r (map (fun x => dot x g) Xs).
Proof.
  intros H. revert r. induction H as [|x Xs' Hx H' IH]; intros [|ri r].
  - apply dot_zeros_l.
  - cbn [lincomb map]. now rewrite dot_zeros_l, dot_nil_r.
  - cbn [lincomb]. apply dot_zeros_l.
  - cbn [lincomb map]. rewrite dot_add_l.
    + rewrite dot_scale_l, dot_cons, IH. reflexivity.
    + now rewrite length_map, Hx, lincomb_length.
Qed.

Lemma dot_shifted (Xs : list (list R)) (r g : list R) (s : R) :
  length r = length Xs ->
  dot r (map (fun x => dot x g + s) Xs) =
  dot r (map (fun x => dot x g) Xs) + s * np_sum r.
Proof.
  revert r. induction Xs as [|x Xs' IH]; intros [|ri r] E;
    try discriminate.
  - unfold dot, np_sum; cbn; ring.
  - injection E as E. cbn [map]. rewrite !dot_cons, IH by exact E.
    change (np_sum (ri :: r)) with (ri + np_sum r). ring.
Qed.

Lemma frobenius1_bounds (Xs : list (list R)) (g : list R) (s : R) :
  let q := map (fun x => dot x g + s) Xs in
  dot q q <= frobenius1 Xs * (dot g g + s ^ 2).
Proof.
  cbv zeta. induction Xs as [|x Xs' IH].
  - unfold frobenius1, dot; cbn; lra.
  - cbn [map]. rewrite dot_cons.
    change (frobenius1 (x :: Xs'))
      with (dot x x + 1 + frobenius1 Xs').
    pose proof (cauchy_step 1 s (dot x g) (dot x x) (dot g g)
                  (dot_nonneg x) (dot_nonneg g) (cauchy_schwarz x g)) as C.
    nra.
Qed.

Lemma frobenius1_ge (Xs : list (list R)) :
  INR (length Xs) <= frobenius1 Xs.
Proof.
  induction Xs as [|x Xs' IH].
  - unfold frobenius1; cbn; lra.
  - change (frobenius1 (x :: Xs'))
      with (dot x x + 1 + frobenius1 Xs').
    change (length (x :: Xs')) with (S (length Xs')). rewrite S_INR.
    pose proof (dot_nonneg x). lra.
Qed.

End Descent.

Section LossDecrease.
Local Open Scope R_scope.
Variables (X : matrix R) (y : list R).
Hypothesis WF : wf_matrix X.
Hypothesis Hm : nrows X <> 0%nat.
Hypothesis Hy : length y = nrows X.

Lemma Xt_times_lincomb (r : list R) :
  Spec.Xt_times X r = lincomb (ncols X) (rows X) r.
Proof. destruct WF as [_ H]. exact (columns_lincomb _ _ r H). Qed.

Lemma predictions_length (w : list R) (b : R) :
  length (Spec.predictions X w b) = nrows X.
Proof. unfold Spec.predictions. rewrite length_map. apply WF. Qed.

Lemma residual_length (w : list R) (b : R) :
  length (zip Rminus (Spec.predictions X w b) y) = nrows X.
Proof.
  rewrite zip_length_same; rewrite predictions_length; congruence.
Qed.

(** The residual after an update of size [c] along [(g, s)]. *)
Lemma residual_step (c s b : R) (w g : list R) :
  length w = length g ->
  zip Rminus
    (Spec.predictions X (zip Rminus w (map (Rmult c) g)) (b - c * s)) y =
  zip Rminus
    (zip Rminus (Spec.predictions X w b) y)
    (map (Rmult c) (map (fun x => dot x g + s) (rows X))).
Proof.
  intros E. unfold Spec.predictions. clear WF Hm Hy. revert y.
  induction (rows X) as [|x Xs IH]; intros [|yi y']; try reflexivity.
  cbn [map]. unfold zip in *. cbn [combine map fst snd].
  rewrite IH. f_equal.
  pose proof (dot_descent c x w g E) as D. unfold dot, np_sum, zip in D.
  cbn [mul add zero R_arith] in D. rewrite D.
  unfold dot, np_sum, zip. cbn [mul add zero R_arith]. ring.
Qed.

(** One iteration does not increase the squared norm of the residual,
    for a step size [c = lr / m] with [0 <= c] and
    [c * frobenius1 <= 2]. *)
Lemma residual_descent (lr : R) (w : list R) (b : R) :
  length w = ncols X ->
  0 <= lr -> lr <= lr_bound X ->
  let r := zip Rminus (Spec.predictions X w b) y in
  let wb := Spec.gd_update X lr r (w, b) in
  let r' := zip Rminus (Spec.predictions X (fst wb) (snd wb)) y in
  dot r' r' <= dot r r.
Proof.
  intros Hw Hlr Hbound r wb r'.
  assert (Hr : length r = nrows X) by apply residual_length.
  assert (HM : 0 < INR (nrows X)) by (apply lt_0_INR; lia).
  pose proof (frobenius1_ge (rows X)) as HF.
  replace (length (rows X)) with (nrows X) in HF by (symmetry; apply WF).
  set (c := lr / INR (nrows X)).
  set (g := Spec.Xt_times X r).
  set (s := np_sum r).
  assert (Hg : length w = length g).
  { unfold g. rewrite Xt_times_lincomb, lincomb_length; [exact Hw|].
    apply WF. }
  assert (Hc : 0 <= c).
  { unfold c. apply Rmult_le_pos; [exact Hlr|].
    apply Rlt_le, Rinv_0_lt_compat, HM. }
  assert (HcF : c * frobenius1 (rows X) <= 2).
  { unfold c, lr_bound in *.
    assert (0 < frobenius1 (rows X)) by lra.
    apply Rmult_le_reg_r with (/ frobenius1 (rows X));
      [now apply Rinv_0_lt_compat|].
    apply Rmult_le_reg_r with (INR (nrows X)); [exact HM|].
    replace (lr / INR (nrows X) * frobenius1 (rows X) *
             / frobenius1 (rows X) * INR (nrows X)) with lr
      by (field; split; lra).
    replace (2 * / frobenius1 (rows X) * INR (nrows X))
      with (2 * INR (nrows X) / frobenius1 (rows X))
      by (field; lra).
    exact Hbound. }
  assert (E : r' =
    zip Rminus r (map (Rmult c) (map (fun x => dot x g + s) (rows X)))).
  { unfold r', wb, Spec.gd_update. cbn [fst snd].
    fold c g. replace (b - lr * Spec.mean r) with (b - c * s).
    - apply residual_step. exact Hg.
    - unfold Spec.mean, c, s. rewrite Hr. change (np_sum r)
        with (fold_right Rplus 0 r). field. lra. }
  rewrite E. rewrite dot_step
    by (rewrite !length_map, Hr; symmetry; apply WF).
  set (q := map (fun x => dot x g + s) (rows X)).
  assert (Hrq : dot r q = dot g g + s ^ 2).
  { unfold q. rewrite dot_shifted by (rewrite Hr; symmetry; apply WF).
    rewrite <- lincomb_adjoint with (n := ncols X) by apply WF.
    rewrite <- Xt_times_lincomb. fold g. fold s. ring. }
  pose proof (frobenius1_bounds (rows X) g s) as Hq. cbv zeta in Hq.
  fold q in Hq. rewrite Hrq.
  pose proof (dot_nonneg g) as G0.
  assert (S0 : 0 <= s ^ 2) by apply pow2_ge_0.
  set (G := dot g g + s ^ 2) in *.
  assert (0 <= G) by (unfold G; lra).
  assert (c ^ 2 * dot q q <= c ^ 2 * (frobenius1 (rows X) * G)).
  { apply Rmult_le_compat_l; [apply pow2_ge_0 | exact Hq]. }
  assert (0 <= c * G * (2 - c * frobenius1 (rows X))).
  { apply Rmult_le_pos; [apply Rmult_le_pos; assumption | lra]. }
  nra.
Qed.

End LossDecrease.

(** ** The loss trace of the linear trainer *)

Section LinearTrace.
Local Open Scope R_scope.
Variables (X : matrix R) (y : list R) (lr : R).

Local Abbreviation step := (Spec.linear_iteration X y lr).

Lemma step_appends_mse (st : list R * list R * R) :
  fst (fst (step st)) = fst (fst st) ++ [mse X y st].
Proof. destruct st as [[losses w] b]. reflexivity. Qed.

Lemma step_keeps_shape (st : list R * list R * R) :
  length (snd (fst st)) = ncols X ->
  length (snd (fst (step st))) = ncols X.
Proof.
  destruct st as [[losses w] b]. cbn [fst snd step Spec.linear_iteration].
  intros E. unfold Spec.gd_update. cbn [fst snd].
  rewrite zip_length_same; [exact E|].
  unfold Spec.Xt_times. now rewrite !length_map, length_seq.
Qed.

Lemma iter_keeps_shape (k : nat) (st : list R * list R * R) :
  length (snd (fst st)) = ncols X ->
  length (snd (fst (Nat.iter k step st))) = ncols X.
Proof.
  intros E. induction k as [|k IH]; [exact E|].
  rewrite Nat.iter_succ. now apply step_keeps_shape.
Qed.

(** The trace after [k] iterations lists the loss at each of the
    states passed through. *)
Lemma trace_of_iter (k : nat) (st : list R * list R * R) :
  fst (fst (Nat.iter k step st)) =
  fst (fst st) ++ map (fun i => mse X y (Nat.iter i step st)) (seq 0 k).
Proof.
  induction k as [|k IH].
  - cbn. now rewrite app_nil_r.
  - rewrite Nat.iter_succ, step_appends_mse, IH, seq_S, map_app.
    now rewrite <- app_assoc.
Qed.

Hypothesis WF : wf_matrix X.
Hypothesis Hm : nrows X <> 0%nat.
Hypothesis Hy : length y = nrows X.
Hypothesis Hlr : 0 <= lr <= lr_bound X.

Lemma mse_descent (st : list R * list R * R) :
  length (snd (fst st)) = ncols X ->
  mse X y (step st) <= mse X y st.
Proof.
  destruct st as [[losses w] b]. cbn [fst snd]. intros Hw.
  pose proof (residual_descent X y WF Hm Hy lr w b Hw
                (proj1 Hlr) (proj2 Hlr)) as D.
  cbv zeta in D. unfold mse, step, Spec.linear_iteration. cbn [fst snd].
  unfold Spec.mean. rewrite !sum_squares, !length_map.
  rewrite !(residual_length X y WF Hy).
  assert (HM : 0 < / INR (nrows X))
    by (apply Rinv_0_lt_compat, lt_0_INR; lia).
  unfold Rdiv. nra.
Qed.

Lemma trace_non_increasing (k : nat) :
  Spec.non_increasing
    (fst (fst (Nat.iter k step ([], repeat 0 (ncols X), 0)))).
Proof.
  rewrite trace_of_iter. cbn [fst app]. intros i Hi.
  rewrite length_map, length_seq in Hi.
  rewrite !nth_map_seq by lia.
  replace (i + 1)%nat with (S i) by lia. rewrite Nat.iter_succ.
  apply mse_descent, iter_keeps_shape. apply repeat_length.
Qed.

End LinearTrace.

Lemma lr_bound_pos (X : matrix R) :
  wf_matrix X -> 1 <= nrows X -> (0 < lr_bound X)%R.
Proof.
  intros WF Hm. unfold lr_bound.
  pose proof (frobenius1_ge (rows X)) as HF.
  replace (length (rows X)) with (nrows X) in HF by (symmetry; apply WF).
  assert (0 < INR (nrows X))%R by (apply lt_0_INR; lia).
  apply Rdiv_lt_0_compat; lra.
Qed.


(** ** The logistic trainer over the reals *)

Section LogisticReal.
Local Open Scope R_scope.

Lemma sigmoid_R (z : list R) :
  LogisticRegression.sigmoid z = map Spec.g z.
Proof.
  unfold LogisticRegression.sigmoid, scalar_vec. now rewrite !map_map.
Qed.

Lemma g_between (z : R) : 0 < Spec.g z < 1.
Proof.
  unfold Spec.g. pose proof (exp_pos (- z)) as E.
  assert (P : 0 < 1 + exp (- z)) by lra.
  split.
  - apply Rdiv_lt_0_compat; lra.
  - apply Rmult_lt_reg_r with (1 + exp (- z)); [exact P|].
    replace (1 / (1 + exp (- z)) * (1 + exp (- z))) with 1
      by (field; lra).
    lra.
Qed.

Lemma g_zero : Spec.g 0 = / 2.
Proof. unfold Spec.g. rewrite Ropp_0, exp_0. lra. Qed.

End LogisticReal.

(** C7. From parameters [(w, b)] and on valid data, one pass of the
    loop body of either trainer leaves the parameters that the single
    update of the specification, w - (learning_rate/m) Xt r and
    b - learning_rate mean(r), gives at that trainer's residual [r]:
    X w + b - y for the linear trainer, sigmoid(X w + b) - y for the
    logistic one. As a function of the residual the two updates are the
    same function. *)
Theorem update_same_function_of_residual
  (X : matrix R) (y : vec R) (k : nat) (lr : R) (w : vec R) (b : R)
  (losses : list R) :
  valid_data X y ->
  length w = ncols X ->
  let self := Obj k lr (Some w) (Some b) in
  let update := Spec.gd_update X lr in
  let r_linear := zip Rminus (Spec.predictions X w b) y in
  let r_logistic := zip Rminus (map Spec.g (Spec.predictions X w b)) y in
  snd (LinearRegression.fit_body X y (nrows X) losses self) =
    Obj k lr (Some (fst (update r_linear (w, b))))
      (Some (snd (update r_linear (w, b)))) /\
  snd (LogisticRegression.fit_body X y (nrows X) losses self) =
    Obj k lr (Some (fst (update r_logistic (w, b))))
      (Some (snd (update r_logistic (w, b)))).
Proof.
  intros V Hw self update r_linear r_logistic.
  pose proof (valid_data_rows X y V) as Hm.
  destruct V as (WF & _ & _ & Hy). split.
  - pose proof (linear_fit_body_valid X y WF Hm Hy k lr (losses, w, b)
                  (eq_sym Hw)) as E.
    unfold holding in E. cbn [fst snd] in E. fold self in E. rewrite E.
    cbn [snd fst LinearRegression.pass]. unfold update.
    rewrite <- descent_R, predictions_R. reflexivity.
  - pose proof (logistic_fit_body_valid X y WF Hm Hy k lr (losses, w, b)
                  (eq_sym Hw)) as E.
    unfold holding in E. cbn [fst snd] in E. fold self in E. rewrite E.
    cbn [snd fst LogisticRegression.pass]. unfold update.
    rewrite <- descent_R, predictions_R, sigmoid_R. reflexivity.
Qed.

(** ** The first loss of the logistic trainer *)

Section FirstLoss.
Local Open Scope R_scope.

Lemma predictions_at_zero (X : matrix R) :
  Spec.predictions X (repeat 0 (ncols X)) 0 = repeat 0 (length (rows X)).
Proof.
  unfold Spec.predictions. induction (rows X) as [|x Xs IH]; [reflexivity|].
  cbn [map length repeat]. rewrite IH. f_equal.
  rewrite <- dot_R, dot_zeros_r. ring.
Qed.

Lemma map_repeat_R (f : R -> R) (c : R) (m : nat) :
  map f (repeat c m) = repeat (f c) m.
Proof. induction m as [|m IH]; [reflexivity|]. cbn. now rewrite IH. Qed.

(** With every prediction at 1/2 each term of the log-likelihood is
    log(1/2), whatever the label. *)
Lemma likelihood_at_half (y : list R) (m : nat) :
  length y = m ->
  zip Rplus
    (zip Rmult y (repeat (ln (/ 2)) m))
    (zip Rmult (map (Rminus 1) y) (repeat (ln (1 - / 2)) m)) =
  repeat (ln (/ 2)) m.
Proof.
  replace (1 - / 2) with (/ 2) by lra.
  revert m. induction y as [|l y IH]; intros [|m] E; try discriminate.
  - reflexivity.
  - injection E as E. cbn [map repeat]. unfold zip in *.
    cbn [combine map fst snd]. rewrite IH by exact E. f_equal. ring.
Qed.

Lemma mean_repeat (c : R) (m : nat) :
  m <> 0%nat -> Spec.mean (repeat c m) = c.
Proof.
  intros Hm. unfold Spec.mean. rewrite repeat_length.
  assert (S : fold_right Rplus 0 (repeat c m) = INR m * c).
  { clear Hm. induction m as [|m IH]; [cbn; ring|].
    cbn [repeat fold_right]. rewrite IH, S_INR. ring. }
  rewrite S. field. apply not_0_INR, Hm.
Qed.

Lemma first_logistic_loss (X : matrix R) (y : list R) (lr : R) :
  wf_matrix X -> nrows X <> 0%nat -> length y = nrows X ->
  fst (fst (LogisticRegression.pass X y lr (fit_start (ncols X)))) =
  [ln 2].
Proof.
  intros WF Hm Hy. unfold fit_start, LogisticRegression.pass.
  cbn [fst app]. f_equal.
  rewrite predictions_R. change (np_zeros (ncols X))
    with (repeat 0 (ncols X)). change (@zero R R_arith) with 0.
  rewrite predictions_at_zero, sigmoid_R, (proj1 WF).
  rewrite map_repeat_R, g_zero.
  unfold scalar_vec. rewrite !map_repeat_R.
  change (@flog R R_transc) with ln.
  change (@sub R R_arith (@one R R_arith)) with (Rminus 1).
  change (@add R R_arith) with Rplus. change (@mul R R_arith) with Rmult.
  rewrite likelihood_at_half by exact Hy.
  rewrite np_mean_R, mean_repeat by exact Hm.
  change (@neg R R_arith) with Ropp.
  rewrite ln_Rinv by lra. ring.
Qed.

End FirstLoss.

Section TracePrefix.
Context {F : Type} {AF : Arith F} {TF : Transc F}.

(** Later passes only append to the trace. *)
Lemma logistic_trace_grows (X : matrix F) (y : vec F) (lr : F) (k : nat)
  (st : list F * vec F * F) :
  exists rest,
    fst (fst (Nat.iter k (LogisticRegression.pass X y lr) st)) =
    fst (fst st) ++ rest.
Proof.
  induction k as [|k [rest IH]].
  - exists []. cbn. now rewrite app_nil_r.
  - rewrite Nat.iter_succ.
    destruct (Nat.iter k _ st) as [[losses w] b]. cbn [fst] in IH.
    subst losses. cbn [LogisticRegression.pass fst].
    eexists. now rewrite <- app_assoc.
Qed.

End TracePrefix.

(** C10. On valid data and with at least one iteration, the loss trace
    [fit] of the logistic trainer returns starts with ln 2, whatever
    [X], [y] and the learning rate are: at the zero initialisation every
    prediction is sigmoid(0) = 1/2. (The labels need not even be
    binary.) *)
Theorem logistic_first_loss_ln2
  (X : matrix R) (y : vec R) (self : obj R) :
  valid_data X y ->
  1 <= max_iterations self ->
  exists losses w b,
    fst (LogisticRegression.fit X y self) = Return (losses, w, b) /\
    nth_error losses 0 = Some (ln 2).
Proof.
  intros V Hk. pose proof (valid_data_rows X y V) as Hm.
  destruct V as (WF & _ & _ & Hy).
  pose proof (logistic_fit_returns X y WF Hm Hy self) as E. cbv zeta in E.
  destruct (max_iterations self) as [|k]; [lia|].
  rewrite Nat.iter_succ_r in E.
  destruct (logistic_trace_grows X y (learning_rate self) k
              (LogisticRegression.pass X y (learning_rate self)
                 (fit_start (ncols X)))) as [rest L].
  rewrite (first_logistic_loss X y (learning_rate self) WF Hm Hy) in L.
  destruct (Nat.iter k _ _) as [[losses w] b].
  exists losses, w, b. rewrite E. split; [reflexivity|].
  cbn [fst] in L. rewrite L. reflexivity.
Qed.

(** ** The theorems at a concrete data set *)

Lemma linear_fit_iterates_spec_witness :
  valid_data X_two y_two /\
  (0 < 1)%R /\
  fst (LinearRegression.fit X_two y_two (LinearRegression.__init__ 3 1%R)) =
    Return (Nat.iter 3 (Spec.linear_iteration X_two y_two 1%R)
              ([], repeat 0%R 1, 0%R)).
Proof.
  split; [exact valid_two|]. split; [lra|].
  refine (proj1 (linear_fit_iterates_spec X_two y_two
                   (LinearRegression.__init__ 3 1%R) valid_two _)).
  cbn. lra.
Defined.

Lemma update_same_function_of_residual_witness :
  valid_data X_two y_two /\
  length [0%R] = ncols X_two /\
  snd (LogisticRegression.fit_body X_two y_two 2 []
         (Obj 3 1%R (Some [0%R]) (Some 0%R))) =
    Obj 3 1%R
      (Some (fst (Spec.gd_update X_two 1%R
                    (zip Rminus
                       (map Spec.g (Spec.predictions X_two [0%R] 0%R)) y_two)
                    ([0%R], 0%R))))
      (Some (snd (Spec.gd_update X_two 1%R
                    (zip Rminus
                       (map Spec.g (Spec.predictions X_two [0%R] 0%R)) y_two)
                    ([0%R], 0%R)))).
Proof.
  split; [exact valid_two|]. split; [reflexivity|].
  exact (proj2 (update_same_function_of_residual X_two y_two 3 1%R
                  [0%R] 0%R [] valid_two eq_refl)).
Defined.


Lemma logistic_first_loss_ln2_witness :
  valid_data X_two y_two /\
  1 <= 2 /\
  exists losses w b,
    fst (LogisticRegression.fit X_two y_two
           (LogisticRegression.__init__ 2 1%R)) = Return (losses, w, b) /\
    nth_error losses 0 = Some (ln 2).
Proof.
  split; [exact valid_two|]. split; [lia|].
  apply (logistic_first_loss_ln2 X_two y_two
           (LogisticRegression.__init__ 2 1%R) valid_two).
  cbn. lia.
Defined.

(** ** The parameters across calls *)

Section Parameters.
Context {F : Type} {AF : Arith F} {TF : Transc F}.

Lemma keeps_ret {A : Type} (a : A) : keeps_initialized (F := F) (ret a).
Proof. intros s H. exact H. Qed.

Lemma keeps_lift {A : Type} (o : outcome A) :
  keeps_initialized (F := F) (lift o).
Proof. intros s H. exact H. Qed.

Lemma keeps_getattr {A : Type} (name : string) (field : obj F -> option A) :
  keeps_initialized (getattr name field).
Proof. intros s H. unfold getattr. now destruct (field s). Qed.

Lemma keeps_learning_rate : keeps_initialized (F := F) self_learning_rate.
Proof. intros s H. exact H. Qed.

Lemma keeps_max_iterations : keeps_initialized (F := F) self_max_iterations.
Proof. intros s H. exact H. Qed.

Lemma keeps_set_coef (w : vec F) : keeps_initialized (set_coef w).
Proof. intros s (w0 & b0 & _ & Hb). exists w, b0. now split. Qed.

Lemma keeps_set_bias (b : F) : keeps_initialized (set_bias b).
Proof. intros s (w0 & b0 & Hw & _). exists w0, b. now split. Qed.

Lemma keeps_bind {A B : Type} (c : M (obj F) A) (k : A -> M (obj F) B) :
  keeps_initialized c -> (forall a, keeps_initialized (k a)) ->
  keeps_initialized (bind c k).
Proof.
  intros Hc Hk s H. unfold bind. specialize (Hc s H).
  destruct (c s) as [[a|e] s']; cbn [snd] in *.
  - now apply Hk.
  - exact Hc.
Qed.

Ltac keeps :=
  repeat first
    [ apply keeps_ret | apply keeps_lift | apply keeps_getattr
    | apply keeps_learning_rate | apply keeps_max_iterations
    | apply keeps_set_coef | apply keeps_set_bias
    | apply keeps_bind; [|intro] ].

Lemma keeps_for_range (body : list F -> M (obj F) (list F)) :
  (forall losses, keeps_initialized (body losses)) ->
  forall k losses, keeps_initialized (for_range k body losses).
Proof.
  intros Hb k. induction k as [|k IH]; intros losses; cbn [for_range].
  - apply keeps_ret.
  - apply keeps_bind; [apply Hb | exact IH].
Qed.

Lemma linear_fit_body_keeps (X : matrix F) (y : vec F) (m : nat)
  (losses : list F) :
  keeps_initialized (LinearRegression.fit_body X y m losses).
Proof. unfold LinearRegression.fit_body, self_coef, self_bias. keeps. Qed.

Lemma logistic_fit_body_keeps (X : matrix F) (y : vec F) (m : nat)
  (losses : list F) :
  keeps_initialized (LogisticRegression.fit_body X y m losses).
Proof. unfold LogisticRegression.fit_body, self_coef, self_bias. keeps. Qed.

(** Whatever [fit] does after [initialize], and whether it returns or
    raises, the object holds parameters afterwards. *)
Lemma linear_fit_initializes (X : matrix F) (y : vec F) (s : obj F) :
  initialized (snd (LinearRegression.fit X y s)).
Proof.
  unfold LinearRegression.fit, LinearRegression.initialize.
  unfold bind at 1. unfold bind at 1. cbn [set_coef set_bias].
  match goal with
  | |- initialized (snd (?c ?s1)) =>
      assert (K : keeps_initialized c); [|apply K]
  end.
  - unfold self_coef, self_bias. keeps.
    apply keeps_for_range. intros l. apply linear_fit_body_keeps.
  - eexists _, _. split; reflexivity.
Qed.

Lemma logistic_fit_initializes (X : matrix F) (y : vec F) (s : obj F) :
  initialized (snd (LogisticRegression.fit X y s)).
Proof.
  unfold LogisticRegression.fit, LogisticRegression.initialize.
  unfold bind at 1. unfold bind at 1. cbn [set_coef set_bias].
  match goal with
  | |- initialized (snd (?c ?s1)) =>
      assert (K : keeps_initialized c); [|apply K]
  end.
  - unfold self_coef, self_bias. keeps.
    apply keeps_for_range. intros l. apply logistic_fit_body_keeps.
  - eexists _, _. split; reflexivity.
Qed.

(** An object past a call of [fit] holds parameters. *)
Lemma linear_lifecycle_initialized (o : obj F) (s : state) :
  lifecycle LinearRegression.__init__ LinearRegression.fit o s ->
  s <> UNINITIALIZED -> initialized o.
Proof.
  intros L Hs. destruct L as [k lr | o o' s X y e _ E | o o' s X y res _ E].
  - congruence.
  - replace o' with (snd (LinearRegression.fit X y o)) by now rewrite E.
    apply linear_fit_initializes.
  - replace o' with (snd (LinearRegression.fit X y o)) by now rewrite E.
    apply linear_fit_initializes.
Qed.

Lemma logistic_lifecycle_initialized (o : obj F) (s : state) :
  lifecycle LogisticRegression.__init__ LogisticRegression.fit o s ->
  s <> UNINITIALIZED -> initialized o.
Proof.
  intros L Hs. destruct L as [k lr | o o' s X y e _ E | o o' s X y res _ E].
  - congruence.
  - replace o' with (snd (LogisticRegression.fit X y o)) by now rewrite E.
    apply logistic_fit_initializes.
  - replace o' with (snd (LogisticRegression.fit X y o)) by now rewrite E.
    apply logistic_fit_initializes.
Qed.

(** *** [predict] case by case *)

Lemma linear_predict_no_coef (X : matrix F) (o : obj F) :
  coef o = None ->
  LinearRegression.predict X o = (Raise (AttributeError "coef"), o).
Proof.
  intros E. unfold LinearRegression.predict, bind, self_coef, getattr.
  now rewrite E.
Qed.

Lemma logistic_predict_no_coef (X : matrix F) (o : obj F) :
  coef o = None ->
  LogisticRegression.predict X o = (Raise (AttributeError "coef"), o).
Proof.
  intros E. unfold LogisticRegression.predict, bind, self_coef, getattr.
  now rewrite E.
Qed.

Lemma linear_predict_mismatch (X : matrix F) (o : obj F) (w : vec F) :
  coef o = Some w -> ncols X <> length w ->
  LinearRegression.predict X o =
  (Raise (ValueError_matmul (ncols X) (length w)), o).
Proof.
  intros E H. unfold LinearRegression.predict, bind, self_coef, getattr, lift.
  now rewrite E, matmul_raises.
Qed.

Lemma logistic_predict_mismatch (X : matrix F) (o : obj F) (w : vec F) :
  coef o = Some w -> ncols X <> length w ->
  LogisticRegression.predict X o =
  (Raise (ValueError_matmul (ncols X) (length w)), o).
Proof.
  intros E H.
  unfold LogisticRegression.predict, bind, self_coef, getattr, lift.
  now rewrite E, matmul_raises.
Qed.

Lemma linear_predict_returns (X : matrix F) (o : obj F) (w : vec F) (b : F) :
  coef o = Some w -> bias o = Some b -> ncols X = length w ->
  LinearRegression.predict X o =
  (Return (vec_scalar add (matvec X w) b), o).
Proof.
  intros E Eb H.
  unfold LinearRegression.predict, bind, self_coef, self_bias, getattr, lift,
    ret.
  now rewrite E, matmul_returns, Eb.
Qed.

Lemma logistic_predict_returns (X : matrix F) (o : obj F) (w : vec F)
  (b : F) :
  coef o = Some w -> bias o = Some b -> ncols X = length w ->
  LogisticRegression.predict X o =
  (Return (LogisticRegression.sigmoid (vec_scalar add (matvec X w) b)), o).
Proof.
  intros E Eb H.
  unfold LogisticRegression.predict, bind, self_coef, self_bias, getattr,
    lift, ret.
  now rewrite E, matmul_returns, Eb.
Qed.

End Parameters.

(** ** Predictions of the logistic trainer *)


Lemma fitted_two_lifecycle :
  lifecycle LogisticRegression.__init__ LogisticRegression.fit
    fitted_two FITTED.
Proof.
  apply life_fit_returned
    with (o := LogisticRegression.__init__ 1 1%R) (s := UNINITIALIZED)
         (X := X_two) (y := y_two) (res := final_two).
  - constructor.
  - destruct valid_two as (WF & Hm & _ & Hy).
    assert (Hm0 : nrows X_two <> 0) by (cbn; lia).
    exact (logistic_fit_returns X_two y_two WF Hm0 Hy
             (LogisticRegression.__init__ 1 1%R)).
Qed.


(** ** The sigmoid under overflow *)

Section Overflow.
Local Open Scope R_scope.

Lemma pow2_ge_1 (n : nat) : 1 <= 2 ^ n.
Proof. apply pow_R1_Rle. lra. Qed.

Lemma fmax_ge_2 : 2 <= fmax.
Proof.
  unfold fmax. pose proof (pow2_ge_1 52) as P52.
  pose proof (pow2_ge_1 1022) as P.
  change (2 ^ 1023) with (2 * 2 ^ 1022).
  assert (/ 2 ^ 52 <= 1).
  { rewrite <- Rinv_1. apply Rinv_le_contravar; lra. }
  nra.
Qed.

Lemma fmax_lt_pow : fmax < 2 ^ 1024.
Proof.
  unfold fmax. change (2 ^ 1024) with (2 * 2 ^ 1023).
  pose proof (pow2_ge_1 1023) as P. pose proof (pow2_ge_1 52) as P52.
  assert (0 < / 2 ^ 52) by (apply Rinv_0_lt_compat; lra).
  nra.
Qed.

Lemma exp_ge_pow2 (n : nat) : 2 ^ n <= exp (INR n).
Proof.
  induction n as [|n IH].
  - cbn. rewrite exp_0. lra.
  - rewrite S_INR, exp_plus. cbn [pow].
    pose proof (exp_ineq1 1 ltac:(lra)) as E1.
    pose proof (pow2_ge_1 n). pose proof (exp_pos (INR n)). nra.
Qed.

Lemma fmax_lt_exp_1024 : fmax < exp 1024.
Proof.
  replace 1024 with (INR 1024) by (rewrite INR_IZR_INZ; reflexivity).
  eapply Rlt_le_trans; [apply fmax_lt_pow | apply exp_ge_pow2].
Qed.

Lemma overflow_in_range (r : R) :
  - fmax <= r <= fmax -> overflow r = Fin r.
Proof.
  intros [Hl Hu]. unfold overflow.
  destruct (Rlt_dec fmax r); [lra|].
  destruct (Rlt_dec r (- fmax)); [lra|]. reflexivity.
Qed.

Lemma overflow_above (r : R) : fmax < r -> overflow r = PInf.
Proof.
  intros H. unfold overflow. destruct (Rlt_dec fmax r); [reflexivity|lra].
Qed.

(** No operation of [1 / (1 + exp (- z))] overflows at a [z >= 0]. *)
Lemma sigmoid_x_nonneg (z : R) :
  0 <= z ->
  x_div (Fin 1) (x_add (Fin 1) (x_exp (x_neg (Fin z)))) = Fin (Spec.g z).
Proof.
  intros Hz. pose proof fmax_ge_2 as HF.
  pose proof (exp_pos (- z)) as E0.
  assert (E1 : exp (- z) <= 1).
  { rewrite <- exp_0. destruct (Req_dec z 0) as [-> | Hne].
    - rewrite Ropp_0. lra.
    - left. apply exp_increasing. lra. }
  cbn [x_neg x_exp]. rewrite overflow_in_range by lra.
  cbn [x_add]. rewrite overflow_in_range by lra.
  cbn [x_div]. destruct (Req_dec_T (1 + exp (- z)) 0) as [H0 | _]; [lra|].
  pose proof (g_between z) as G. unfold Spec.g in *.
  rewrite overflow_in_range by lra. reflexivity.
Qed.

(** The form left as a comment divides an infinity by an infinity once
    [exp z] overflows. *)
Lemma commented_out_x_overflow (z : R) :
  fmax < exp z ->
  x_div (x_exp (Fin z)) (x_add (Fin 1) (x_exp (Fin z))) = NaN.
Proof.
  intros H. cbn [x_exp]. rewrite overflow_above by exact H. reflexivity.
Qed.

(** Where [exp (- z)] overflows, for a very negative [z], the sigmoid is
    exactly 0. *)
Lemma sigmoid_saturates_on_overflow (z : R) :
  fmax < exp (- z) ->
  LogisticRegression.sigmoid [Fin z] = [Fin 0].
Proof.
  intros H. unfold LogisticRegression.sigmoid, scalar_vec.
  cbn [map neg fexp add div one X_arith X_transc x_neg x_exp].
  rewrite overflow_above by exact H. reflexivity.
Qed.

(** In exact arithmetic the two forms are one function. *)
Lemma commented_out_R (z : list R) :
  LogisticRegression.sigmoid_commented_out z = LogisticRegression.sigmoid z.
Proof.
  unfold LogisticRegression.sigmoid_commented_out,
    LogisticRegression.sigmoid, scalar_vec, zip.
  induction z as [|x z IH]; [reflexivity|].
  cbn [map combine fst snd] in *. rewrite IH. f_equal.
  cbn [div add one neg fexp R_arith R_transc].
  rewrite exp_Ropp. pose proof (exp_pos x). field. lra.
Qed.

End Overflow.

(** C6. [sigmoid] computes g(z) = 1 / (1 + e^(-z)) entry by entry. In
    exact arithmetic the form left as a comment, e^z / (1 + e^z), is the
    same function; with overflow to infinity the form in use returns
    the finite value g(z) at every z >= 0, no operation overflowing,
    where the commented form returns NaN as soon as e^z overflows, which
    it does at z = 1024. *)
Theorem sigmoid_stable_form :
  (forall z : vec R,
      LogisticRegression.sigmoid z =
      map (fun x => 1 / (1 + exp (- x)))%R z) /\
  (forall z : vec R,
      LogisticRegression.sigmoid_commented_out z =
      LogisticRegression.sigmoid z) /\
  (forall zs : list R,
      Forall (fun z => 0 <= z)%R zs ->
      LogisticRegression.sigmoid (map Fin zs) =
      map (fun z => Fin (1 / (1 + exp (- z)))) zs) /\
  (forall z : R,
      (fmax < exp z)%R ->
      LogisticRegression.sigmoid_commented_out [Fin z] = [NaN]) /\
  (fmax < exp 1024)%R.
Proof.
  split; [exact sigmoid_R|]. split; [exact commented_out_R|].
  split; [|split; [|exact fmax_lt_exp_1024]].
  - intros zs H. unfold LogisticRegression.sigmoid, scalar_vec.
    rewrite !map_map. induction H as [|z zs Hz _ IH]; [reflexivity|].
    cbn [map]. rewrite IH. f_equal. exact (sigmoid_x_nonneg z Hz).
  - intros z H. unfold LogisticRegression.sigmoid_commented_out, scalar_vec,
      zip. cbn [map combine fst snd]. f_equal.
    exact (commented_out_x_overflow z H).
Qed.

(** ** Shapes that do not agree *)

Section Mismatch.
Context {F : Type} {AF : Arith F} {TF : Transc F}.

Lemma zip_repeat_r (op : F -> F -> F) (u : vec F) (c : F) :
  zip op u (repeat c (length u)) = map (fun x => op x c) u.
Proof.
  induction u as [|a u IH]; [reflexivity|].
  cbn [length repeat map]. rewrite <- IH. reflexivity.
Qed.

Lemma zip_repeat_l (op : F -> F -> F) (c : F) (v : vec F) :
  zip op (repeat c (length v)) v = map (op c) v.
Proof.
  induction v as [|a v IH]; [reflexivity|].
  cbn [length repeat map]. rewrite <- IH. reflexivity.
Qed.

(** A one-element left operand is repeated over the right one. *)
Lemma broadcast_one_l (op : F -> F -> F) (c : F) (v : vec F) :
  broadcast op [c] v = Return (map (op c) v).
Proof.
  unfold broadcast. destruct (length [c] =? length v) eqn:E.
  - apply Nat.eqb_eq in E. destruct v as [|a [|a' v]]; try discriminate.
    reflexivity.
  - reflexivity.
Qed.

Lemma map_repeat {A B : Type} (f : A -> B) (c : A) (m : nat) :
  map f (repeat c m) = repeat (f c) m.
Proof. induction m as [|m IH]; [reflexivity|]. cbn. now rewrite IH. Qed.

Lemma sub_one_target (c : F) (preds : vec F) :
  broadcast sub preds [c] = Return (zip sub preds (repeat c (length preds))).
Proof. now rewrite broadcast_one_r, zip_repeat_r. Qed.

Lemma nll_one_target (c : F) (preds : vec F) :
  LogisticRegression.nll [c] preds =
  LogisticRegression.nll (repeat c (length preds)) preds.
Proof.
  rewrite (nll_same (repeat c (length preds)) preds)
    by apply repeat_length.
  unfold LogisticRegression.nll, scalar_vec. cbn [map].
  rewrite !broadcast_one_l, map_repeat.
  replace (length preds) with (length (map flog preds)) at 1
    by apply length_map.
  rewrite zip_repeat_l.
  replace (length preds)
    with (length (map flog (map (fun x => sub one x) preds)))
    by now rewrite !length_map.
  rewrite zip_repeat_l.
  rewrite broadcast_same by now rewrite !length_map.
  reflexivity.
Qed.

(** A single target is used for every row, without a word. *)
Lemma linear_fit_one_target (X : matrix F) (c : F) (self : obj F) :
  wf_matrix X -> nrows X <> 0 ->
  LinearRegression.fit X [c] self =
  LinearRegression.fit X (repeat c (nrows X)) self.
Proof.
  intros WF Hm.
  rewrite (linear_fit_returns X (repeat c (nrows X)) WF Hm
             (repeat_length c (nrows X)) self).
  apply linear_fit_returns_as; auto using repeat_length.
  intros preds Hp. now rewrite sub_one_target, Hp.
Qed.

Lemma logistic_fit_one_target (X : matrix F) (c : F) (self : obj F) :
  wf_matrix X -> nrows X <> 0 ->
  LogisticRegression.fit X [c] self =
  LogisticRegression.fit X (repeat c (nrows X)) self.
Proof.
  intros WF Hm.
  rewrite (logistic_fit_returns X (repeat c (nrows X)) WF Hm
             (repeat_length c (nrows X)) self).
  apply logistic_fit_returns_as; auto using repeat_length.
  - intros preds Hp. now rewrite sub_one_target, Hp.
  - intros preds Hp. now rewrite nll_one_target, Hp.
Qed.

Lemma for_range_raises (body : list F -> M (obj F) (list F)) (k : nat)
  (losses : list F) (s s' : obj F) (e : exn) :
  body losses s = (Raise e, s') ->
  for_range (S k) body losses s = (Raise e, s').
Proof. intros E. cbn [for_range]. now apply bind_raises. Qed.

Lemma linear_fit_body_mismatch (X : matrix F) (y : vec F) (losses : list F)
  (k : nat) (lr : F) (w : vec F) (b : F) :
  wf_matrix X -> nrows X <> 0 -> ncols X = length w ->
  length y <> nrows X -> length y <> 1 ->
  LinearRegression.fit_body X y (nrows X) losses
    (Obj k lr (Some w) (Some b)) =
  (Raise (mismatch_error false (nrows X) (length y)),
   Obj k lr (Some w) (Some b)).
Proof.
  intros WF Hm Hw Hy Hy1.
  assert (Hp : length (vec_scalar add (matvec X w) b) = nrows X)
    by now rewrite vec_scalar_length, wf_matvec_length.
  unfold LinearRegression.fit_body, mismatch_error.
  unfold self_coef, self_bias, self_learning_rate, getattr, bind at 1.
  cbn [coef]. rewrite (bind_lift _ _ _ _ (matmul_returns X w Hw)).
  unfold bind at 1. cbn [bias].
  destruct (nrows X =? 1) eqn:E1.
  - apply Nat.eqb_eq in E1.
    destruct (vec_scalar add (matvec X w) b) as [|p [|p' ps]] eqn:Ep;
      cbn [length] in Hp; try lia.
    assert (Hr : broadcast sub [p] y = Return (map (sub p) y))
      by apply broadcast_one_l.
    rewrite (bind_lift _ _ _ _ Hr).
    unfold bind at 1. cbn [coef]. unfold bind at 1. cbn [learning_rate].
    rewrite (bind_lift _ _ _ _ (truediv_returns lr (nrows X) Hm)).
    rewrite (bind_lift _ _ _ _ Hr).
    assert (Hne : ncols (scale (div lr (of_nat (nrows X))) (transpose X)) <>
                  length (map (sub p) y))
      by (cbn [scale transpose ncols]; rewrite length_map; congruence).
    rewrite (bind_lift_raise _ _ _ _ (matmul_raises _ _ Hne)).
    cbn [scale transpose ncols]. now rewrite length_map.
  - apply Nat.eqb_neq in E1.
    assert (Hb : broadcast sub (vec_scalar add (matvec X w) b) y =
                 Raise (ValueError_broadcast (nrows X) (length y))).
    { rewrite <- Hp. apply broadcast_raises; rewrite ?Hp; congruence. }
    now rewrite (bind_lift_raise _ _ _ _ Hb).
Qed.

Lemma nll_mismatch (y preds : vec F) :
  length y <> length preds -> length y <> 1 -> length preds <> 1 ->
  LogisticRegression.nll y preds =
  Raise (ValueError_broadcast (length y) (length preds)).
Proof.
  intros H H1 H2. unfold LogisticRegression.nll.
  rewrite broadcast_raises; rewrite ?length_map; auto.
Qed.

Lemma nll_one_prediction (y : vec F) (p : F) :
  exists loss, LogisticRegression.nll y [p] = Return loss.
Proof.
  unfold LogisticRegression.nll, scalar_vec. cbn [map].
  rewrite !broadcast_one_r, broadcast_same by now rewrite !length_map.
  eauto.
Qed.

Lemma logistic_fit_body_mismatch (X : matrix F) (y : vec F)
  (losses : list F) (k : nat) (lr : F) (w : vec F) (b : F) :
  wf_matrix X -> nrows X <> 0 -> ncols X = length w ->
  length y <> nrows X -> length y <> 1 ->
  LogisticRegression.fit_body X y (nrows X) losses
    (Obj k lr (Some w) (Some b)) =
  (Raise (mismatch_error true (nrows X) (length y)),
   Obj k lr (Some w) (Some b)).
Proof.
  intros WF Hm Hw Hy Hy1.
  assert (Hp : length (LogisticRegression.sigmoid
                         (vec_scalar add (matvec X w) b)) = nrows X)
    by now rewrite sigmoid_length, vec_scalar_length, wf_matvec_length.
  unfold LogisticRegression.fit_body, mismatch_error.
  unfold self_coef, self_bias, self_learning_rate, getattr, bind at 1.
  cbn [coef]. rewrite (bind_lift _ _ _ _ (matmul_returns X w Hw)).
  unfold bind at 1. cbn [bias].
  destruct (nrows X =? 1) eqn:E1.
  - apply Nat.eqb_eq in E1.
    destruct (LogisticRegression.sigmoid (vec_scalar add (matvec X w) b))
      as [|p [|p' ps]] eqn:Ep; cbn [length] in Hp; try lia.
    destruct (nll_one_prediction y p) as [loss Hl].
    rewrite (bind_lift _ _ _ _ Hl).
    assert (Hr : broadcast sub [p] y = Return (map (sub p) y))
      by apply broadcast_one_l.
    unfold bind at 1. cbn [coef]. unfold bind at 1. cbn [learning_rate].
    rewrite (bind_lift _ _ _ _ (truediv_returns lr (nrows X) Hm)).
    rewrite (bind_lift _ _ _ _ Hr).
    assert (Hne : ncols (scale (div lr (of_nat (nrows X))) (transpose X)) <>
                  length (map (sub p) y))
      by (cbn [scale transpose ncols]; rewrite length_map; congruence).
    rewrite (bind_lift_raise _ _ _ _ (matmul_raises _ _ Hne)).
    cbn [scale transpose ncols]. now rewrite length_map.
  - apply Nat.eqb_neq in E1.
    assert (Hb : LogisticRegression.nll y
                   (LogisticRegression.sigmoid
                      (vec_scalar add (matvec X w) b)) =
                 Raise (ValueError_broadcast (length y) (nrows X))).
    { rewrite <- Hp. apply nll_mismatch; rewrite ?Hp; congruence. }
    now rewrite (bind_lift_raise _ _ _ _ Hb).
Qed.

Lemma linear_fit_mismatch (X : matrix F) (y : vec F) (self : obj F) :
  wf_matrix X -> nrows X <> 0 -> 1 <= max_iterations self ->
  length y <> nrows X -> length y <> 1 ->
  fst (LinearRegression.fit X y self) =
  Raise (mismatch_error false (nrows X) (length y)).
Proof.
  intros WF Hm Hk Hy Hy1. destruct self as [k lr w0 b0]. cbn in Hk.
  destruct k as [|k]; [lia|].
  unfold LinearRegression.fit, LinearRegression.initialize.
  unfold bind at 1. unfold bind at 1. cbn [set_coef set_bias].
  cbn [max_iterations learning_rate coef bias].
  unfold bind at 1, self_max_iterations at 1. cbn [max_iterations].
  erewrite bind_raises; [reflexivity|].
  apply for_range_raises.
  apply linear_fit_body_mismatch; auto.
  now rewrite np_zeros_length.
Qed.

Lemma logistic_fit_mismatch (X : matrix F) (y : vec F) (self : obj F) :
  wf_matrix X -> nrows X <> 0 -> 1 <= max_iterations self ->
  length y <> nrows X -> length y <> 1 ->
  fst (LogisticRegression.fit X y self) =
  Raise (mismatch_error true (nrows X) (length y)).
Proof.
  intros WF Hm Hk Hy Hy1. destruct self as [k lr w0 b0]. cbn in Hk.
  destruct k as [|k]; [lia|].
  unfold LogisticRegression.fit, LogisticRegression.initialize.
  unfold bind at 1. unfold bind at 1. cbn [set_coef set_bias].
  cbn [max_iterations learning_rate coef bias].
  unfold bind at 1, self_max_iterations at 1. cbn [max_iterations].
  erewrite bind_raises; [reflexivity|].
  apply for_range_raises.
  apply logistic_fit_body_mismatch; auto.
  now rewrite np_zeros_length.
Qed.

End Mismatch.

(** C4, as the specification states it, fails: [X_small] has two rows,
    [y_one] a single entry, and [fit] returns, having used that entry
    for both rows. *)
Lemma fit_single_target_returns :
  length y_one <> nrows X_small /\
  LinearRegression.fit X_small y_one fresh_small =
    (Return ([(25 # 2)%Q], [(3 # 4)%Q], (1 # 2)%Q),
     Obj 1 (1 # 10)%Q (Some [(3 # 4)%Q]) (Some (1 # 2)%Q)).
Proof. split; [cbn; lia | vm_compute; reflexivity]. Qed.

(** C4, amended. On a rectangular [X] with at least one row:
    [predict] of either class raises a matmul shape error when the
    column count of [X] differs from the length of the weights;
    [fit] of either class, with at least one iteration, raises a
    broadcast or matmul shape error when [y] has neither one entry per
    row nor a single entry; [fit] on a single-entry [y] returns,
    being the same call as [fit] on that entry repeated for every
    row; and [fit] on one entry per row returns whatever weights the
    object held before, since it starts by replacing them. *)
Theorem shape_mismatch_errors
  {F : Type} {AF : Arith F} {TF : Transc F}
  (X : matrix F) (self : obj F) :
  wf_matrix X -> 1 <= nrows X ->
  (forall w : vec F,
      coef self = Some w -> ncols X <> length w ->
      LinearRegression.predict X self =
        (Raise (ValueError_matmul (ncols X) (length w)), self) /\
      LogisticRegression.predict X self =
        (Raise (ValueError_matmul (ncols X) (length w)), self)) /\
  (forall y : vec F,
      1 <= max_iterations self ->
      length y <> nrows X -> length y <> 1 ->
      fst (LinearRegression.fit X y self) =
        Raise (mismatch_error false (nrows X) (length y)) /\
      fst (LogisticRegression.fit X y self) =
        Raise (mismatch_error true (nrows X) (length y))) /\
  (forall c : F,
      LinearRegression.fit X [c] self =
        LinearRegression.fit X (repeat c (nrows X)) self /\
      LogisticRegression.fit X [c] self =
        LogisticRegression.fit X (repeat c (nrows X)) self /\
      returned (LinearRegression.fit X [c] self) /\
      returned (LogisticRegression.fit X [c] self)) /\
  (forall y : vec F,
      length y = nrows X ->
      returned (LinearRegression.fit X y self) /\
      returned (LogisticRegression.fit X y self)).
Proof.
  intros WF Hm. assert (Hm0 : nrows X <> 0) by lia.
  split; [|split; [|split]].
  - intros w Hw Hn. split.
    + now apply linear_predict_mismatch.
    + now apply logistic_predict_mismatch.
  - intros y Hk Hy Hy1. split.
    + now apply linear_fit_mismatch.
    + now apply logistic_fit_mismatch.
  - intros c.
    pose proof (linear_fit_one_target X c self WF Hm0) as E1.
    pose proof (logistic_fit_one_target X c self WF Hm0) as E2.
    split; [exact E1|]. split; [exact E2|]. split.
    + rewrite E1, (linear_fit_returns X _ WF Hm0 (repeat_length c _) self).
      eexists. reflexivity.
    + rewrite E2, (logistic_fit_returns X _ WF Hm0 (repeat_length c _) self).
      eexists. reflexivity.
  - intros y Hy. split.
    + rewrite (linear_fit_returns X y WF Hm0 Hy self). eexists. reflexivity.
    + rewrite (logistic_fit_returns X y WF Hm0 Hy self). eexists. reflexivity.
Qed.

Lemma shape_mismatch_errors_witness :
  wf_matrix X_two /\ 1 <= nrows X_two /\
  fst (LinearRegression.fit X_two y_three_R
         (LinearRegression.__init__ 1 1%R)) =
    Raise (ValueError_broadcast 2 3) /\
  fst (LogisticRegression.fit X_two y_three_R
         (LinearRegression.__init__ 1 1%R)) =
    Raise (ValueError_broadcast 3 2).
Proof.
  assert (WF : wf_matrix X_two) by apply valid_two.
  assert (Hm : 1 <= nrows X_two) by (cbn; lia).
  split; [exact WF|]. split; [exact Hm|].
  refine (proj1 (proj2 (shape_mismatch_errors X_two
                          (LinearRegression.__init__ 1 1%R) WF Hm))
            y_three_R _ _ _); cbn; lia.
Defined.

(** C5, as the specification states it, fails: a call of [fit] that
    raises in its first pass has already run [initialize], and [predict]
    then returns predictions from the zero parameters. *)
Lemma predict_after_failed_fit :
  LinearRegression.fit X_small y_three fresh_small =
    (Raise (ValueError_broadcast 2 3), failed_small) /\
  lifecycle LinearRegression.__init__ LinearRegression.fit
    failed_small FITTING /\
  LinearRegression.predict X_small failed_small =
    (Return [0%Q; 0%Q], failed_small).
Proof.
  assert (E : LinearRegression.fit X_small y_three fresh_small =
              (Raise (ValueError_broadcast 2 3), failed_small))
    by (vm_compute; reflexivity).
  split; [exact E|]. split.
  - eapply life_fit_raised; [|exact E]. apply life_constructed.
  - vm_compute. reflexivity.
Qed.

(** C5, amended. On an object of either class on which [fit] was never
    called (UNINITIALIZED), [predict] raises an AttributeError for
    [coef] and leaves the object as it was. An object whose call of
    [fit] raised (FITTING) holds parameters, and [predict] returns the
    predictions they give for every [X] with as many columns as there
    are weights. *)
Theorem predict_before_fit
  {F : Type} {AF : Arith F} {TF : Transc F} (o : obj F) :
  (lifecycle LinearRegression.__init__ LinearRegression.fit
     o UNINITIALIZED ->
   forall X, LinearRegression.predict X o =
             (Raise (AttributeError "coef"), o)) /\
  (lifecycle LogisticRegression.__init__ LogisticRegression.fit
     o UNINITIALIZED ->
   forall X, LogisticRegression.predict X o =
             (Raise (AttributeError "coef"), o)) /\
  (lifecycle LinearRegression.__init__ LinearRegression.fit o FITTING ->
   exists w b,
     coef o = Some w /\ bias o = Some b /\
     forall X, ncols X = length w ->
       LinearRegression.predict X o =
       (Return (vec_scalar add (matvec X w) b), o)) /\
  (lifecycle LogisticRegression.__init__ LogisticRegression.fit o FITTING ->
   exists w b,
     coef o = Some w /\ bias o = Some b /\
     forall X, ncols X = length w ->
       LogisticRegression.predict X o =
       (Return (LogisticRegression.sigmoid
                  (vec_scalar add (matvec X w) b)), o)).
Proof.
  split; [|split; [|split]].
  - intros L X. inversion L; subst. now apply linear_predict_no_coef.
  - intros L X. inversion L; subst. now apply logistic_predict_no_coef.
  - intros L.
    destruct (linear_lifecycle_initialized o FITTING L)
      as (w & b & Hw & Hb); [discriminate|].
    exists w, b. split; [exact Hw|]. split; [exact Hb|].
    intros X Hn. now apply linear_predict_returns.
  - intros L.
    destruct (logistic_lifecycle_initialized o FITTING L)
      as (w & b & Hw & Hb); [discriminate|].
    exists w, b. split; [exact Hw|]. split; [exact Hb|].
    intros X Hn. now apply logistic_predict_returns.
Qed.

Lemma predict_before_fit_witness :
  lifecycle LinearRegression.__init__ LinearRegression.fit
    (LinearRegression.__init__ 1 1%R) UNINITIALIZED /\
  LinearRegression.predict X_two (LinearRegression.__init__ 1 1%R) =
    (Raise (AttributeError "coef"), LinearRegression.__init__ 1 1%R).
Proof.
  assert (L : lifecycle LinearRegression.__init__ LinearRegression.fit
                (LinearRegression.__init__ 1 1%R) UNINITIALIZED)
    by apply life_constructed.
  split; [exact L|].
  exact (proj1 (predict_before_fit (LinearRegression.__init__ 1 1%R))
           L X_two).
Defined.

Lemma sigmoid_stable_form_witness :
  (fmax < exp 1024)%R /\
  LogisticRegression.sigmoid_commented_out [Fin 1024] = [NaN].
Proof.
  destruct sigmoid_stable_form as (_ & _ & _ & H & E).
  split; [exact E|]. exact (H 1024%R E).
Defined.

(** * Further properties of the classes *)

(** ** A call of [fit] raises in its first pass or not at all *)

Section AllOrNothing.
Context {F : Type} {AF : Arith F} {TF : Transc F}.

Lemma broadcast_status (op : F -> F -> F) (u v : vec F) :
  match broadcast_shape (length u) (length v) with
  | Some r => exists w, broadcast op u v = Return w /\ length w = r
  | None =>
      broadcast op u v = Raise (ValueError_broadcast (length u) (length v))
  end.
Proof.
  unfold broadcast_shape, broadcast.
  destruct (length u =? length v) eqn:E.
  - apply Nat.eqb_eq in E. eexists. split; [reflexivity|].
    now apply zip_length_same.
  - destruct u as [|a [|a' u]]; destruct v as [|c [|c' v]];
      cbn [length Nat.eqb] in *; try discriminate;
      try (eexists; split; [reflexivity|]);
      rewrite ?length_map; reflexivity.
Qed.

Lemma broadcast_shape_sym (a b : nat) :
  broadcast_shape a b = None -> broadcast_shape b a = None.
Proof.
  unfold broadcast_shape. rewrite (Nat.eqb_sym b a).
  destruct (a =? b), (a =? 1), (b =? 1); congruence.
Qed.

Lemma broadcast_shape_swap (a b r : nat) :
  broadcast_shape a b = Some r -> broadcast_shape b a = Some r.
Proof.
  unfold broadcast_shape. rewrite (Nat.eqb_sym b a).
  destruct (a =? b) eqn:E.
  - apply Nat.eqb_eq in E. congruence.
  - destruct (a =? 1) eqn:E1, (b =? 1) eqn:E2; try congruence.
    apply Nat.eqb_eq in E1, E2. apply Nat.eqb_neq in E. congruence.
Qed.

(** The loss line of the logistic trainer returns exactly when its
    operands broadcast. *)
Lemma nll_status (y preds : vec F) :
  match broadcast_shape (length preds) (length y) with
  | Some _ => exists loss, LogisticRegression.nll y preds = Return loss
  | None =>
      LogisticRegression.nll y preds =
      Raise (ValueError_broadcast (length y) (length preds))
  end.
Proof.
  destruct (broadcast_shape (length preds) (length y)) as [r|] eqn:E.
  - apply broadcast_shape_swap in E. unfold LogisticRegression.nll.
    pose proof (broadcast_status mul y (map flog preds)) as B1.
    rewrite length_map, E in B1. destruct B1 as (t1 & -> & L1).
    pose proof (broadcast_status mul (scalar_vec sub one y)
                  (map flog (scalar_vec sub one preds))) as B2.
    rewrite length_map, !scalar_vec_length, E in B2.
    destruct B2 as (t2 & -> & L2).
    rewrite broadcast_same by congruence. eauto.
  - apply broadcast_shape_sym in E. unfold LogisticRegression.nll.
    pose proof (broadcast_status mul y (map flog preds)) as B1.
    rewrite length_map, E in B1. now rewrite B1.
Qed.

(** One pass of the linear trainer: its outcome is decided by the
    shapes, and a pass that raises writes nothing. *)
Lemma linear_fit_body_outcome (X : matrix F) (y : vec F) (losses : list F)
  (k : nat) (lr : F) (w : vec F) (b : F) :
  ncols X = length w ->
  match first_pass_error false X y with
  | Some e =>
      LinearRegression.fit_body X y (nrows X) losses
        (Obj k lr (Some w) (Some b)) = (Raise e, Obj k lr (Some w) (Some b))
  | None =>
      exists loss w' b',
        LinearRegression.fit_body X y (nrows X) losses
          (Obj k lr (Some w) (Some b)) =
        (Return (losses ++ [loss]), Obj k lr (Some w') (Some b')) /\
        ncols X = length w'
  end.
Proof.
  intros Hw. unfold first_pass_error.
  pose proof (broadcast_status sub (vec_scalar add (matvec X w) b) y) as B.
  rewrite vec_scalar_length, matvec_length in B.
  destruct (broadcast_shape (length (rows X)) (length y)) as [r|].
  - destruct B as (res & Hr & Hlen).
    destruct (nrows X =? 0) eqn:E0.
    + unfold LinearRegression.fit_body.
      unfold self_coef, self_bias, self_learning_rate, getattr, bind at 1.
      cbn [coef]. rewrite (bind_lift _ _ _ _ (matmul_returns X w Hw)).
      unfold bind at 1. cbn [bias]. rewrite (bind_lift _ _ _ _ Hr).
      unfold bind at 1. cbn [coef]. unfold bind at 1. cbn [learning_rate].
      unfold truediv. rewrite E0. reflexivity.
    + apply Nat.eqb_neq in E0. destruct (nrows X =? r) eqn:Er.
      * apply Nat.eqb_eq in Er. eexists _, _, _. split.
        -- apply (linear_fit_body_returns X y (nrows X) losses k lr w b res
                    eq_refl E0 Hw Hr). congruence.
        -- symmetry. now apply descent_length.
      * apply Nat.eqb_neq in Er.
        unfold LinearRegression.fit_body.
        unfold self_coef, self_bias, self_learning_rate, getattr, bind at 1.
        cbn [coef]. rewrite (bind_lift _ _ _ _ (matmul_returns X w Hw)).
        unfold bind at 1. cbn [bias]. rewrite (bind_lift _ _ _ _ Hr).
        unfold bind at 1. cbn [coef]. unfold bind at 1. cbn [learning_rate].
        rewrite (bind_lift _ _ _ _ (truediv_returns lr (nrows X) E0)).
        rewrite (bind_lift _ _ _ _ Hr).
        assert (Hne : ncols (scale (div lr (of_nat (nrows X))) (transpose X))
                      <> length res)
          by (cbn [scale transpose ncols]; congruence).
        rewrite (bind_lift_raise _ _ _ _ (matmul_raises _ _ Hne)).
        cbn [scale transpose ncols]. now rewrite Hlen.
  - unfold LinearRegression.fit_body.
    unfold self_coef, self_bias, self_learning_rate, getattr, bind at 1.
    cbn [coef]. rewrite (bind_lift _ _ _ _ (matmul_returns X w Hw)).
    unfold bind at 1. cbn [bias].
    now rewrite (bind_lift_raise _ _ _ _ B).
Qed.

(** One pass of the logistic trainer, likewise. *)
Lemma logistic_fit_body_outcome (X : matrix F) (y : vec F)
  (losses : list F) (k : nat) (lr : F) (w : vec F) (b : F) :
  ncols X = length w ->
  match first_pass_error true X y with
  | Some e =>
      LogisticRegression.fit_body X y (nrows X) losses
        (Obj k lr (Some w) (Some b)) = (Raise e, Obj k lr (Some w) (Some b))
  | None =>
      exists loss w' b',
        LogisticRegression.fit_body X y (nrows X) losses
          (Obj k lr (Some w) (Some b)) =
        (Return (losses ++ [loss]), Obj k lr (Some w') (Some b')) /\
        ncols X = length w'
  end.
Proof.
  intros Hw. unfold first_pass_error.
  set (preds := LogisticRegression.sigmoid (vec_scalar add (matvec X w) b)).
  assert (Hp : length preds = length (rows X))
    by (unfold preds;
        now rewrite sigmoid_length, vec_scalar_length, matvec_length).
  pose proof (broadcast_status sub preds y) as B.
  pose proof (nll_status y preds) as N.
  rewrite Hp in B, N.
  destruct (broadcast_shape (length (rows X)) (length y)) as [r|].
  - destruct B as (res & Hr & Hlen). destruct N as (loss & Hl).
    destruct (nrows X =? 0) eqn:E0.
    + unfold LogisticRegression.fit_body.
      unfold self_coef, self_bias, self_learning_rate, getattr, bind at 1.
      cbn [coef]. rewrite (bind_lift _ _ _ _ (matmul_returns X w Hw)).
      unfold bind at 1. cbn [bias]. fold preds.
      rewrite (bind_lift _ _ _ _ Hl).
      unfold bind at 1. cbn [coef]. unfold bind at 1. cbn [learning_rate].
      unfold truediv. rewrite E0. reflexivity.
    + apply Nat.eqb_neq in E0. destruct (nrows X =? r) eqn:Er.
      * apply Nat.eqb_eq in Er. eexists _, _, _. split.
        -- apply (logistic_fit_body_returns X y (nrows X) losses k lr w b
                    loss res eq_refl E0 Hw Hl Hr). congruence.
        -- symmetry. now apply descent_length.
      * apply Nat.eqb_neq in Er.
        unfold LogisticRegression.fit_body.
        unfold self_coef, self_bias, self_learning_rate, getattr, bind at 1.
        cbn [coef]. rewrite (bind_lift _ _ _ _ (matmul_returns X w Hw)).
        unfold bind at 1. cbn [bias]. fold preds.
        rewrite (bind_lift _ _ _ _ Hl).
        unfold bind at 1. cbn [coef]. unfold bind at 1. cbn [learning_rate].
        rewrite (bind_lift _ _ _ _ (truediv_returns lr (nrows X) E0)).
        rewrite (bind_lift _ _ _ _ Hr).
        assert (Hne : ncols (scale (div lr (of_nat (nrows X))) (transpose X))
                      <> length res)
          by (cbn [scale transpose ncols]; congruence).
        rewrite (bind_lift_raise _ _ _ _ (matmul_raises _ _ Hne)).
        cbn [scale transpose ncols]. now rewrite Hlen.
  - unfold LogisticRegression.fit_body.
    unfold self_coef, self_bias, self_learning_rate, getattr, bind at 1.
    cbn [coef]. rewrite (bind_lift _ _ _ _ (matmul_returns X w Hw)).
    unfold bind at 1. cbn [bias]. fold preds.
    now rewrite (bind_lift_raise _ _ _ _ N).
Qed.

(** A loop whose every pass returns and keeps the shape of the weights
    returns, with one loss per pass. *)
Lemma for_range_returns (X : matrix F)
  (body : list F -> M (obj F) (list F)) (k : nat) (lr : F) :
  (forall losses w b,
      ncols X = length w ->
      exists loss w' b',
        body losses (Obj k lr (Some w) (Some b)) =
        (Return (losses ++ [loss]), Obj k lr (Some w') (Some b')) /\
        ncols X = length w') ->
  forall n losses w b,
    ncols X = length w ->
    exists losses' w' b',
      for_range n body losses (Obj k lr (Some w) (Some b)) =
      (Return losses', Obj k lr (Some w') (Some b')) /\
      length losses' = n + length losses /\
      ncols X = length w'.
Proof.
  intros Hbody n. induction n as [|n IH]; intros losses w b Hw.
  - exists losses, w, b. repeat split; assumption.
  - destruct (Hbody losses w b Hw) as (loss & w1 & b1 & E & Hw1).
    destruct (IH (losses ++ [loss]) w1 b1 Hw1) as (l' & w' & b' & E' & L & H).
    exists l', w', b'. cbn [for_range].
    rewrite (bind_returns _ _ _ _ _ E). split; [exact E'|].
    split; [|exact H]. rewrite L, length_app. cbn. lia.
Qed.

End AllOrNothing.

(** [fit] after [initialize]: the loop and the final reads, run on the
    object with the zero parameters. *)
Lemma linear_fit_unfold {F : Type} {AF : Arith F}
  (X : matrix F) (y : vec F) (k : nat) (lr : F)
  (w0 : option (vec F)) (b0 : option F) :
  LinearRegression.fit X y (Obj k lr w0 b0) =
  (losses <- for_range k (LinearRegression.fit_body X y (nrows X)) [] ;;
   w <- self_coef ;; b <- self_bias ;; ret (losses, w, b))
    (Obj k lr (Some (np_zeros (ncols X))) (Some zero)).
Proof. reflexivity. Qed.

Lemma logistic_fit_unfold {F : Type} {AF : Arith F} {TF : Transc F}
  (X : matrix F) (y : vec F) (k : nat) (lr : F)
  (w0 : option (vec F)) (b0 : option F) :
  LogisticRegression.fit X y (Obj k lr w0 b0) =
  (losses <- for_range k (LogisticRegression.fit_body X y (nrows X)) [] ;;
   w <- self_coef ;; b <- self_bias ;; ret (losses, w, b))
    (Obj k lr (Some (np_zeros (ncols X))) (Some zero)).
Proof. reflexivity. Qed.

(** A call of [LinearRegression.fit] raises what [fit_error] tells, in its
    first pass. *)
Lemma linear_fit_raises {F : Type} {AF : Arith F}
  (X : matrix F) (y : vec F) (self : obj F) (e : exn) :
  fit_error false X y (max_iterations self) = Some e ->
  LinearRegression.fit X y self =
  (Raise e,
   Obj (max_iterations self) (learning_rate self)
     (Some (np_zeros (ncols X))) (Some zero)).
Proof.
  destruct self as [k lr w0 b0]. cbn [max_iterations learning_rate].
  unfold fit_error. rewrite linear_fit_unfold.
  destruct k as [|k]; cbn [Nat.eqb]; [discriminate|]. intros E.
  assert (Hz : ncols X = length (np_zeros (F := F) (ncols X)))
    by now rewrite np_zeros_length.
  pose proof (linear_fit_body_outcome X y [] (S k) lr
                (np_zeros (ncols X)) zero Hz) as B.
  rewrite E in B. erewrite bind_raises; [reflexivity|].
  apply for_range_raises. exact B.
Qed.

(** It returns when [fit_error] tells no exception. *)
Lemma linear_fit_returns_shaped {F : Type} {AF : Arith F}
  (X : matrix F) (y : vec F) (self : obj F) :
  fit_error false X y (max_iterations self) = None ->
  exists losses w b,
    LinearRegression.fit X y self =
    (Return (losses, w, b),
     Obj (max_iterations self) (learning_rate self) (Some w) (Some b)) /\
    length losses = max_iterations self /\ length w = ncols X.
Proof.
  destruct self as [k lr w0 b0]. cbn [max_iterations learning_rate].
  unfold fit_error. rewrite linear_fit_unfold.
  assert (Hz : ncols X = length (np_zeros (F := F) (ncols X)))
    by now rewrite np_zeros_length.
  destruct k as [|k]; cbn [Nat.eqb]; intros E.
  - exists [], (np_zeros (ncols X)), zero. cbn. now rewrite np_zeros_length.
  - assert (Hbody : forall losses w b,
               ncols X = length w ->
               exists loss w' b',
                 LinearRegression.fit_body X y (nrows X) losses
                   (Obj (S k) lr (Some w) (Some b)) =
                 (Return (losses ++ [loss]),
                  Obj (S k) lr (Some w') (Some b')) /\
                 ncols X = length w').
    { intros losses w b Hw.
      pose proof (linear_fit_body_outcome X y losses (S k) lr w b Hw)
        as B.
      now rewrite E in B. }
    destruct (for_range_returns X _ (S k) lr Hbody
                (S k) [] (np_zeros (ncols X)) zero Hz)
      as (losses & w & b & El & L & Hw).
    exists losses, w, b. rewrite (bind_returns _ _ _ _ _ El).
    split; [reflexivity|]. cbn in L. split; [lia | now symmetry].
Qed.

(** X1. A call of [LinearRegression.fit], on any [X], [y] and object,
    either returns, with one loss per iteration and one weight per
    column, or raises the exception that the shapes of [X] and [y]
    decide, and then it raised in its first pass: the object is left
    with the zero parameters of [initialize], never with partly trained
    ones. The hyperparameters are the same afterwards in both cases. *)
Theorem linear_fit_all_or_nothing {F : Type} {AF : Arith F}
  (X : matrix F) (y : vec F) (self : obj F) :
  let k := max_iterations self in
  let lr := learning_rate self in
  match fit_error false X y k with
  | Some e =>
      LinearRegression.fit X y self =
      (Raise e, Obj k lr (Some (np_zeros (ncols X))) (Some zero))
  | None =>
      exists losses w b,
        LinearRegression.fit X y self =
        (Return (losses, w, b), Obj k lr (Some w) (Some b)) /\
        length losses = k /\ length w = ncols X
  end.
Proof.
  intros k lr. destruct (fit_error false X y k) as [e|] eqn:E.
  - exact (linear_fit_raises X y self e E).
  - exact (linear_fit_returns_shaped X y self E).
Qed.

(** A call of [LogisticRegression.fit] raises what [fit_error] tells, in its
    first pass. *)
Lemma logistic_fit_raises {F : Type} {AF : Arith F} {TF : Transc F}
  (X : matrix F) (y : vec F) (self : obj F) (e : exn) :
  fit_error true X y (max_iterations self) = Some e ->
  LogisticRegression.fit X y self =
  (Raise e,
   Obj (max_iterations self) (learning_rate self)
     (Some (np_zeros (ncols X))) (Some zero)).
Proof.
  destruct self as [k lr w0 b0]. cbn [max_iterations learning_rate].
  unfold fit_error. rewrite logistic_fit_unfold.
  destruct k as [|k]; cbn [Nat.eqb]; [discriminate|]. intros E.
  assert (Hz : ncols X = length (np_zeros (F := F) (ncols X)))
    by now rewrite np_zeros_length.
  pose proof (logistic_fit_body_outcome X y [] (S k) lr
                (np_zeros (ncols X)) zero Hz) as B.
  rewrite E in B. erewrite bind_raises; [reflexivity|].
  apply for_range_raises. exact B.
Qed.

(** It returns when [fit_error] tells no exception. *)
Lemma logistic_fit_returns_shaped {F : Type} {AF : Arith F} {TF : Transc F}
  (X : matrix F) (y : vec F) (self : obj F) :
  fit_error true X y (max_iterations self) = None ->
  exists losses w b,
    LogisticRegression.fit X y self =
    (Return (losses, w, b),
     Obj (max_iterations self) (learning_rate self) (Some w) (Some b)) /\
    length losses = max_iterations self /\ length w = ncols X.
Proof.
  destruct self as [k lr w0 b0]. cbn [max_iterations learning_rate].
  unfold fit_error. rewrite logistic_fit_unfold.
  assert (Hz : ncols X = length (np_zeros (F := F) (ncols X)))
    by now rewrite np_zeros_length.
  destruct k as [|k]; cbn [Nat.eqb]; intros E.
  - exists [], (np_zeros (ncols X)), zero. cbn. now rewrite np_zeros_length.
  - assert (Hbody : forall losses w b,
               ncols X = length w ->
               exists loss w' b',
                 LogisticRegression.fit_body X y (nrows X) losses
                   (Obj (S k) lr (Some w) (Some b)) =
                 (Return (losses ++ [loss]),
                  Obj (S k) lr (Some w') (Some b')) /\
                 ncols X = length w').
    { intros losses w b Hw.
      pose proof (logistic_fit_body_outcome X y losses (S k) lr w b Hw)
        as B.
      now rewrite E in B. }
    destruct (for_range_returns X _ (S k) lr Hbody
                (S k) [] (np_zeros (ncols X)) zero Hz)
      as (losses & w & b & El & L & Hw).
    exists losses, w, b. rewrite (bind_returns _ _ _ _ _ El).
    split; [reflexivity|]. cbn in L. split; [lia | now symmetry].
Qed.

(** X2. A call of [LogisticRegression.fit] behaves in the same way: it
    returns, or it raised in its first pass the exception that the
    shapes decide and left the zero parameters of [initialize]. *)
Theorem logistic_fit_all_or_nothing
  {F : Type} {AF : Arith F} {TF : Transc F}
  (X : matrix F) (y : vec F) (self : obj F) :
  let k := max_iterations self in
  let lr := learning_rate self in
  match fit_error true X y k with
  | Some e =>
      LogisticRegression.fit X y self =
      (Raise e, Obj k lr (Some (np_zeros (ncols X))) (Some zero))
  | None =>
      exists losses w b,
        LogisticRegression.fit X y self =
        (Return (losses, w, b), Obj k lr (Some w) (Some b)) /\
        length losses = k /\ length w = ncols X
  end.
Proof.
  intros k lr. destruct (fit_error true X y k) as [e|] eqn:E.
  - exact (logistic_fit_raises X y self e E).
  - exact (logistic_fit_returns_shaped X y self E).
Qed.

(** Without rows the division by the row count raises. *)
Lemma fit_error_no_rows {F : Type} (swap : bool) (X : matrix F)
  (y : vec F) (k : nat) :
  wf_matrix X -> nrows X = 0 -> length y <= 1 -> 1 <= k ->
  fit_error swap X y k = Some ZeroDivisionError.
Proof.
  intros [Hr _] Hm Hy Hk. unfold fit_error, first_pass_error.
  destruct k as [|k]; [lia|]. cbn [Nat.eqb].
  rewrite Hr, Hm. destruct y as [|c [|c' y]]; cbn in Hy |- *;
    [reflexivity | reflexivity | lia].
Qed.

(** X3. On a design matrix without rows and a target vector with no or
    one entry, [fit] of either class with at least one iteration raises
    ZeroDivisionError, from the division of the learning rate by the
    row count, and leaves the zero parameters in the object. *)
Theorem fit_no_rows_divides_by_zero
  {F : Type} {AF : Arith F} {TF : Transc F}
  (X : matrix F) (y : vec F) (self : obj F) :
  wf_matrix X -> nrows X = 0 -> length y <= 1 ->
  1 <= max_iterations self ->
  let after :=
    Obj (max_iterations self) (learning_rate self)
      (Some (np_zeros (ncols X))) (Some zero) in
  LinearRegression.fit X y self = (Raise ZeroDivisionError, after) /\
  LogisticRegression.fit X y self = (Raise ZeroDivisionError, after).
Proof.
  intros WF Hm Hy Hk after. unfold after. split.
  - apply linear_fit_raises. now apply fit_error_no_rows.
  - apply logistic_fit_raises. now apply fit_error_no_rows.
Qed.

Lemma fit_no_rows_divides_by_zero_witness :
  wf_matrix X_empty /\ nrows X_empty = 0 /\
  length (@nil R) <= 1 /\ 1 <= 1 /\
  LinearRegression.fit X_empty [] (LinearRegression.__init__ 1 1%R) =
    (Raise ZeroDivisionError, Obj 1 1%R (Some [0%R]) (Some 0%R)).
Proof.
  assert (WF : wf_matrix X_empty) by (split; [reflexivity | constructor]).
  split; [exact WF|]. split; [reflexivity|]. split; [cbn; lia|].
  split; [lia|].
  refine (proj1 (fit_no_rows_divides_by_zero X_empty []
                   (LinearRegression.__init__ 1 1%R) WF eq_refl _ _));
    cbn; lia.
Defined.

(** X4. Training never resumes: a call of [fit] on an object that an
    earlier call of [fit] has been made on, whether that call returned
    or raised and whatever its data, is the same call as on a newly
    constructed object with the same hyperparameters. *)
Theorem refit_starts_afresh {F : Type} {AF : Arith F} {TF : Transc F}
  (X X' : matrix F) (y y' : vec F) (self : obj F) :
  let k := max_iterations self in
  let lr := learning_rate self in
  LinearRegression.fit X' y' (snd (LinearRegression.fit X y self)) =
    LinearRegression.fit X' y' (LinearRegression.__init__ k lr) /\
  LogisticRegression.fit X' y' (snd (LogisticRegression.fit X y self)) =
    LogisticRegression.fit X' y' (LogisticRegression.__init__ k lr).
Proof.
  intros k lr. split.
  - destruct (fit_error false X y k) as [e|] eqn:E.
    + rewrite (linear_fit_raises X y self e E). apply linear_fit_unfold.
    + destruct (linear_fit_returns_shaped X y self E)
        as (losses & w & b & -> & _).
      apply linear_fit_unfold.
  - destruct (fit_error true X y k) as [e|] eqn:E.
    + rewrite (logistic_fit_raises X y self e E). apply logistic_fit_unfold.
    + destruct (logistic_fit_returns_shaped X y self E)
        as (losses & w & b & -> & _).
      apply logistic_fit_unfold.
Qed.

(** X5. [predict] of either class never writes to the object, whether
    it returns or raises; and what the linear [predict] returns has one
    entry per row of [X]. *)
Theorem predict_reads_only {F : Type} {AF : Arith F} {TF : Transc F}
  (X : matrix F) (o : obj F) :
  snd (LinearRegression.predict X o) = o /\
  snd (LogisticRegression.predict X o) = o /\
  (forall p, fst (LinearRegression.predict X o) = Return p ->
             length p = length (rows X)).
Proof.
  unfold LinearRegression.predict, LogisticRegression.predict.
  unfold bind, self_coef, self_bias, getattr, lift, ret.
  destruct (coef o) as [w|]; cbn [fst snd]; [|repeat split; discriminate].
  destruct (matmul X w) as [xw|e] eqn:E; cbn [fst snd];
    [|repeat split; discriminate].
  destruct (bias o) as [b|]; cbn [fst snd]; [|repeat split; discriminate].
  repeat split. intros p [= <-]. rewrite vec_scalar_length.
  unfold matmul in E. destruct (ncols X =? length w); [|discriminate].
  injection E as <-. apply matvec_length.
Qed.

(** ** What the loss trace records *)

Section Trace.
Context {F : Type} {AF : Arith F}.

(** A step that appends one value to the trace: after [k] steps the
    trace lists that value at each state passed through. *)
Lemma trace_of_steps
  (step : list F * vec F * F -> list F * vec F * F)
  (loss_at : list F * vec F * F -> F) :
  (forall st, fst (fst (step st)) = fst (fst st) ++ [loss_at st]) ->
  forall k st,
    fst (fst (Nat.iter k step st)) =
    fst (fst st) ++ map (fun i => loss_at (Nat.iter i step st)) (seq 0 k).
Proof.
  intros Hstep k st. induction k as [|k IH].
  - cbn. now rewrite app_nil_r.
  - rewrite Nat.iter_succ, Hstep, IH, seq_S, map_app.
    now rewrite <- app_assoc.
Qed.

Lemma nth_error_map_seq {A : Type} (f : nat -> A) (k i : nat) :
  i < k -> nth_error (map f (seq 0 k)) i = Some (f i).
Proof.
  intros Hi. rewrite nth_error_map.
  rewrite (nth_error_nth' (seq 0 k) 0) by now rewrite length_seq.
  now rewrite seq_nth.
Qed.

Lemma linear_iter_shape (X : matrix F) (y : vec F) (lr : F) (k : nat) :
  ncols X =
  length (snd (fst (Nat.iter k (LinearRegression.pass X y lr)
                      (fit_start (ncols X))))).
Proof.
  induction k as [|k IH].
  - cbn. now rewrite np_zeros_length.
  - rewrite Nat.iter_succ. now apply linear_pass_shape.
Qed.

End Trace.

(** X6. On valid data, entry [i] of the loss trace that [fit] of the
    linear trainer returns is the error, by the test-error formula of
    the notebook, of the predictions on the training data of the model
    trained for [i] iterations. So the trace starts with the error of
    the zero model, and the error of the model returned after [k]
    iterations is not in its own trace. *)
Theorem losses_are_errors_of_earlier_models {F : Type} {AF : Arith F}
  (X : matrix F) (y : vec F) (k i : nat) (lr : F) :
  valid_data X y -> i < k ->
  let model_i :=
    snd (LinearRegression.fit X y (LinearRegression.__init__ i lr)) in
  exists losses w b p e,
    fst (LinearRegression.fit X y (LinearRegression.__init__ k lr)) =
      Return (losses, w, b) /\
    LinearRegression.predict X model_i = (Return p, model_i) /\
    test_mse p y = Return e /\
    nth_error losses i = Some e.
Proof.
  intros V Hi model_i. pose proof (valid_data_rows X y V) as Hm.
  destruct V as (WF & _ & _ & Hy).
  pose proof (linear_fit_returns X y WF Hm Hy
                (LinearRegression.__init__ k lr)) as Ek.
  pose proof (linear_fit_returns X y WF Hm Hy
                (LinearRegression.__init__ i lr)) as Ei.
  cbn [max_iterations learning_rate LinearRegression.__init__] in Ek, Ei.
  cbv zeta in Ek, Ei.
  set (step := LinearRegression.pass X y lr) in *.
  set (loss_at := fun st : list F * vec F * F =>
         mul half (np_mean (np_square
           (zip sub (vec_scalar add (matvec X (snd (fst st))) (snd st)) y)))).
  assert (Hstep : forall st,
             fst (fst (step st)) = fst (fst st) ++ [loss_at st])
    by (intros [[l w] b]; reflexivity).
  pose proof (trace_of_steps step loss_at Hstep k (fit_start (ncols X))) as T.
  pose proof (linear_iter_shape X y lr i) as Hshape. fold step in Hshape.
  unfold model_i. rewrite Ei, Ek. cbn [fst snd].
  destruct (Nat.iter k step (fit_start (ncols X))) as [[losses w] b].
  destruct (Nat.iter i step (fit_start (ncols X))) as [[li wi] bi] eqn:Eit.
  cbn [fst snd] in *.
  exists losses, w, b, (vec_scalar add (matvec X wi) bi),
    (loss_at (li, wi, bi)).
  split; [reflexivity|]. split.
  - now apply linear_predict_returns.
  - split.
    + unfold test_mse. rewrite broadcast_same; [reflexivity|].
      now rewrite vec_scalar_length, wf_matvec_length.
    + rewrite T. change (fst (fst (fit_start (F := F) (ncols X))))
        with (@nil F). cbn [app].
      rewrite nth_error_map_seq by exact Hi. now rewrite Eit.
Qed.

Lemma losses_are_errors_of_earlier_models_witness :
  valid_data X_small y_small /\ 0 < 1 /\
  exists losses w b p e,
    fst (LinearRegression.fit X_small y_small fresh_small) =
      Return (losses, w, b) /\
    LinearRegression.predict X_small
      (snd (LinearRegression.fit X_small y_small
              (LinearRegression.__init__ 0 (1 # 10)%Q))) =
      (Return p,
       snd (LinearRegression.fit X_small y_small
              (LinearRegression.__init__ 0 (1 # 10)%Q))) /\
    test_mse p y_small = Return e /\
    nth_error losses 0 = Some e.
Proof.
  assert (V : valid_data X_small y_small)
    by (unfold valid_data, wf_matrix; cbn; repeat split; auto).
  split; [exact V|]. split; [lia|].
  exact (losses_are_errors_of_earlier_models X_small y_small 1 0
           (1 # 10)%Q V (Nat.lt_0_1)).
Defined.

(** ** The losses over the reals *)

Section RealLosses.
Local Open Scope R_scope.

Lemma ln_below_one (x : R) : 0 < x < 1 -> ln x < 0.
Proof. intros [H0 H1]. rewrite <- ln_1. now apply ln_increasing. Qed.

Lemma sum_negative (t : list R) :
  t <> [] -> Forall (fun v => v < 0) t -> fold_right Rplus 0 t < 0.
Proof.
  intros Hne H. induction H as [|v t Hv Ht IH]; [congruence|].
  cbn [fold_right]. destruct t as [|v' t'].
  - cbn. lra.
  - assert (fold_right Rplus 0 (v' :: t') < 0) by (apply IH; discriminate).
    lra.
Qed.

Lemma sum_nonneg (t : list R) :
  Forall (fun v => 0 <= v) t -> 0 <= fold_right Rplus 0 t.
Proof.
  intros H. induction H as [|v t Hv _ IH]; cbn [fold_right]; lra.
Qed.

(** Every term of the log-likelihood is negative for a label in [0, 1]
    and a probability strictly inside (0, 1). *)
Lemma likelihood_terms_negative (y p : list R) :
  Forall (fun l => 0 <= l <= 1) y ->
  Forall (fun v => 0 < v < 1) p ->
  Forall (fun v => v < 0)
    (zip Rplus (zip Rmult y (map ln p))
       (zip Rmult (map (Rminus 1) y) (map ln (map (Rminus 1) p)))).
Proof.
  intros Hy. revert p. induction Hy as [|l y Hl _ IH]; intros p Hp.
  - constructor.
  - destruct Hp as [|v p Hv Hp]; [constructor|].
    unfold zip in *. cbn [map combine fst snd]. constructor.
    + pose proof (ln_below_one v Hv).
      assert (ln (1 - v) < 0) by (apply ln_below_one; lra).
      nra.
    + now apply IH.
Qed.

Lemma mse_nonneg (X : matrix R) (y : list R) (st : list R * list R * R) :
  0 <= mse X y st.
Proof.
  unfold mse, Spec.mean. rewrite sum_squares.
  pose proof (dot_nonneg
                (zip Rminus (Spec.predictions X (snd (fst st)) (snd st)) y)).
  assert (0 <= / INR (length
            (map (fun e => e ^ 2)
               (zip Rminus (Spec.predictions X (snd (fst st)) (snd st)) y)))).
  { destruct (length _) as [|n] eqn:E.
    - cbn. rewrite Rinv_0. lra.
    - left. apply Rinv_0_lt_compat, lt_0_INR. lia. }
  unfold Rdiv. nra.
Qed.

(** The loss of the logistic trainer at the parameters of a state. *)
Lemma logistic_pass_appends (X : matrix R) (y : list R) (lr : R)
  (st : list R * list R * R) :
  fst (fst (LogisticRegression.pass X y lr st)) =
  fst (fst st) ++
  [- Spec.mean
       (zip Rplus
          (zip Rmult y
             (map ln (map Spec.g
                        (Spec.predictions X (snd (fst st)) (snd st)))))
          (zip Rmult (map (Rminus 1) y)
             (map ln (map (Rminus 1)
                        (map Spec.g
                           (Spec.predictions X (snd (fst st)) (snd st)))))))].
Proof.
  destruct st as [[losses w] b]. cbn [fst snd LogisticRegression.pass].
  now rewrite predictions_R, sigmoid_R.
Qed.

End RealLosses.

(** X7. On valid data and with at least one iteration, the loss trace of
    the linear trainer starts with 0.5 * mean(y^2), whatever [X] and the
    learning rate are: the first prediction is made with the zero
    parameters. *)
Theorem linear_first_loss (X : matrix R) (y : vec R) (self : obj R) :
  valid_data X y -> 1 <= max_iterations self ->
  exists losses w b,
    fst (LinearRegression.fit X y self) = Return (losses, w, b) /\
    nth_error losses 0 =
    Some (0.5 * Spec.mean (map (fun t => t ^ 2) y))%R.
Proof.
  intros V Hk. pose proof (valid_data_rows X y V) as Hm.
  destruct V as (WF & _ & _ & Hy).
  pose proof (linear_fit_returns X y WF Hm Hy self) as E. cbv zeta in E.
  rewrite (iter_ext _ _ (linear_pass_R X y (learning_rate self))) in E.
  pose proof (trace_of_iter X y (learning_rate self) (max_iterations self)
                (fit_start (ncols X))) as T.
  destruct (Nat.iter (max_iterations self) _ _) as [[losses w] b].
  exists losses, w, b. rewrite E. split; [reflexivity|].
  cbn [fst] in T. rewrite T. cbn [fit_start fst app].
  rewrite nth_error_map_seq by lia. f_equal. cbn [Nat.iter nat_rect].
  unfold mse. cbn [fst snd]. do 2 f_equal.
  change (np_zeros (ncols X)) with (repeat 0%R (ncols X)).
  change (@zero R R_arith) with 0%R.
  rewrite predictions_at_zero, (proj1 WF), <- Hy, zip_repeat_l, map_map.
  apply map_ext. intros t. ring.
Qed.

Lemma linear_first_loss_witness :
  valid_data X_two y_two /\ 1 <= 2 /\
  exists losses w b,
    fst (LinearRegression.fit X_two y_two
           (LinearRegression.__init__ 2 1%R)) = Return (losses, w, b) /\
    nth_error losses 0 =
    Some (0.5 * Spec.mean (map (fun t => t ^ 2) y_two))%R.
Proof.
  split; [exact valid_two|]. split; [lia|].
  apply (linear_first_loss X_two y_two (LinearRegression.__init__ 2 1%R)
           valid_two).
  cbn. lia.
Defined.





(** ** Parameters that a pass leaves alone *)

Section FixedParameters.
Local Open Scope R_scope.

Lemma zip_minus_self (y : list R) : zip Rminus y y = repeat 0 (length y).
Proof.
  induction y as [|a y IH]; [reflexivity|].
  unfold zip in *. cbn [combine map fst snd length repeat].
  rewrite IH. f_equal. ring.
Qed.

Lemma zip_minus_zeros (c : R) (w g : list R) :
  length w = length g ->
  Forall (fun v => v = 0) g ->
  zip Rminus w (map (Rmult c) g) = w.
Proof.
  intros E H. revert w E. induction H as [|v g Hv _ IH]; intros [|a w] E;
    try discriminate; [reflexivity|].
  injection E as E. unfold zip in *. cbn [map combine fst snd].
  rewrite IH by exact E. subst v. f_equal. ring.
Qed.

Lemma zip_minus_zero_rate (w g : list R) :
  length w = length g -> zip Rminus w (map (Rmult 0) g) = w.
Proof.
  revert g. induction w as [|a w IH]; intros [|v g] E; try discriminate;
    [reflexivity|].
  injection E as E. unfold zip in *. cbn [map combine fst snd].
  rewrite IH by exact E. f_equal. ring.
Qed.

Lemma Xt_times_length (X : matrix R) (r : list R) :
  length (Spec.Xt_times X r) = ncols X.
Proof. unfold Spec.Xt_times. now rewrite length_map, length_seq. Qed.

Lemma Xt_times_zeros (X : matrix R) (m : nat) :
  Forall (fun v => v = 0) (Spec.Xt_times X (repeat 0 m)).
Proof.
  unfold Spec.Xt_times. apply Forall_map, Forall_forall. intros j _.
  rewrite <- dot_R. apply dot_zeros_r.
Qed.

(** At a zero residual the update changes nothing. *)
Lemma gd_update_zero_residual (X : matrix R) (lr : R) (w : list R) (b : R)
  (m : nat) :
  length w = ncols X -> m <> 0%nat ->
  Spec.gd_update X lr (repeat 0 m) (w, b) = (w, b).
Proof.
  intros Hw Hm. unfold Spec.gd_update. cbn [fst snd]. f_equal.
  - apply zip_minus_zeros; [now rewrite Xt_times_length|].
    apply Xt_times_zeros.
  - rewrite (mean_repeat 0 m Hm). ring.
Qed.

(** At a zero learning rate the update changes nothing. *)
Lemma gd_update_zero_rate (X : matrix R) (r w : list R) (b : R) :
  length w = ncols X -> Spec.gd_update X 0 r (w, b) = (w, b).
Proof.
  intros Hw. unfold Spec.gd_update. cbn [fst snd]. f_equal.
  - replace (0 / INR (nrows X)) with 0 by (unfold Rdiv; ring).
    apply zip_minus_zero_rate. now rewrite Xt_times_length.
  - ring.
Qed.

Lemma mse_at_zero (X : matrix R) (y : list R) (losses : list R) :
  wf_matrix X -> length y = nrows X ->
  mse X y (losses, repeat 0 (ncols X), 0) =
  0.5 * Spec.mean (map (fun t => t ^ 2) y).
Proof.
  intros WF Hy. unfold mse. cbn [fst snd]. do 2 f_equal.
  rewrite predictions_at_zero, (proj1 WF), <- Hy, zip_repeat_l, map_map.
  apply map_ext. intros t. ring.
Qed.

Lemma linear_pass_zero_rate (X : matrix R) (y : list R) (losses : list R) :
  LinearRegression.pass X y 0 (losses, repeat 0 (ncols X), 0) =
  (losses ++ [mse X y (losses, repeat 0 (ncols X), 0)],
   repeat 0 (ncols X), 0).
Proof.
  rewrite linear_pass_R. unfold Spec.linear_iteration.
  rewrite gd_update_zero_rate by apply repeat_length. reflexivity.
Qed.

Lemma logistic_pass_split (X : matrix R) (y : list R) (lr : R)
  (losses w : list R) (b : R) :
  LogisticRegression.pass X y lr (losses, w, b) =
  (losses ++ fst (fst (LogisticRegression.pass X y lr ([], w, b))),
   snd (fst (LogisticRegression.pass X y lr ([], w, b))),
   snd (LogisticRegression.pass X y lr ([], w, b))).
Proof. reflexivity. Qed.

Lemma logistic_pass_params (X : matrix R) (y : list R) (lr : R)
  (losses w : list R) (b : R) :
  (snd (fst (LogisticRegression.pass X y lr (losses, w, b))),
   snd (LogisticRegression.pass X y lr (losses, w, b))) =
  Spec.gd_update X lr
    (zip Rminus (map Spec.g (Spec.predictions X w b)) y) (w, b).
Proof.
  cbn [LogisticRegression.pass fst snd].
  now rewrite descent_R, predictions_R, sigmoid_R.
Qed.

Lemma logistic_pass_zero_rate (X : matrix R) (y : list R)
  (losses : list R) :
  wf_matrix X -> nrows X <> 0%nat -> length y = nrows X ->
  LogisticRegression.pass X y 0 (losses, repeat 0 (ncols X), 0) =
  (losses ++ [ln 2], repeat 0 (ncols X), 0).
Proof.
  intros WF Hm Hy. rewrite logistic_pass_split.
  pose proof (first_logistic_loss X y 0 WF Hm Hy) as L.
  change (fit_start (ncols X)) with ([] : list R, repeat 0 (ncols X), 0)
    in L.
  pose proof (logistic_pass_params X y 0 [] (repeat 0 (ncols X)) 0) as P.
  rewrite gd_update_zero_rate in P by apply repeat_length.
  assert (P1 : snd (fst (LogisticRegression.pass X y 0
                           ([], repeat 0 (ncols X), 0))) =
               repeat 0 (ncols X)) by exact (f_equal fst P).
  assert (P2 : snd (LogisticRegression.pass X y 0
                      ([], repeat 0 (ncols X), 0)) = 0)
    by exact (f_equal snd P).
  now rewrite L, P1, P2.
Qed.

End FixedParameters.

(** X10. Once the linear model fits the training data exactly,
    [X w + b = y], a pass of the loop body records the loss 0 and
    leaves the weights and the bias as they are, for every learning
    rate. *)
Theorem exact_fit_is_kept
  (X : matrix R) (y : vec R) (k : nat) (lr : R) (w : vec R) (b : R)
  (losses : list R) :
  wf_matrix X -> 1 <= nrows X -> length w = ncols X ->
  Spec.predictions X w b = y ->
  LinearRegression.fit_body X y (nrows X) losses
    (Obj k lr (Some w) (Some b)) =
  (Return (losses ++ [0%R]), Obj k lr (Some w) (Some b)).
Proof.
  intros WF Hm Hw Hfit.
  assert (Hm0 : nrows X <> 0) by lia.
  assert (Hy : length y = nrows X)
    by (rewrite <- Hfit; now apply predictions_length).
  pose proof (linear_fit_body_valid X y WF Hm0 Hy k lr (losses, w, b)
                (eq_sym Hw)) as E.
  unfold holding in E. cbn [fst snd] in E. rewrite E.
  rewrite linear_pass_R. unfold Spec.linear_iteration.
  rewrite Hfit, zip_minus_self, Hy.
  rewrite (gd_update_zero_residual X lr w b (nrows X) Hw Hm0).
  cbn [fst snd]. rewrite map_repeat_R.
  replace (0 ^ 2)%R with 0%R by ring.
  rewrite (mean_repeat 0 (nrows X) Hm0).
  replace (0.5 * 0)%R with 0%R by ring. reflexivity.
Qed.

Lemma exact_fit_is_kept_witness :
  wf_matrix X_two /\ 1 <= nrows X_two /\ length [1%R] = ncols X_two /\
  Spec.predictions X_two [1%R] (-1)%R = y_two /\
  LinearRegression.fit_body X_two y_two 2 []
    (Obj 5 1%R (Some [1%R]) (Some (-1)%R)) =
  (Return [0%R], Obj 5 1%R (Some [1%R]) (Some (-1)%R)).
Proof.
  assert (WF : wf_matrix X_two) by apply valid_two.
  assert (P : Spec.predictions X_two [1%R] (-1)%R = y_two).
  { unfold Spec.predictions, y_two, zip. cbn. f_equal; [ring|].
    f_equal. ring. }
  split; [exact WF|]. split; [cbn; lia|]. split; [reflexivity|].
  split; [exact P|].
  refine (exact_fit_is_kept X_two y_two 5 1%R [1%R] (-1)%R [] WF _ eq_refl P).
  cbn. lia.
Defined.

(** X11. With a learning rate of 0 nothing is learnt, and nothing is
    reported: on valid data [fit] of either class returns the zero
    weights and the zero bias, and a trace that repeats the loss of the
    zero model, 0.5 * mean(y^2) for the linear trainer and ln 2 for the
    logistic one. *)
Theorem zero_learning_rate_learns_nothing
  (X : matrix R) (y : vec R) (self : obj R) :
  valid_data X y -> learning_rate self = 0%R ->
  let k := max_iterations self in
  fst (LinearRegression.fit X y self) =
    Return (repeat (0.5 * Spec.mean (map (fun t => t ^ 2) y))%R k,
            repeat 0%R (ncols X), 0%R) /\
  fst (LogisticRegression.fit X y self) =
    Return (repeat (ln 2) k, repeat 0%R (ncols X), 0%R).
Proof.
  intros V Hlr k. pose proof (valid_data_rows X y V) as Hm.
  destruct V as (WF & _ & _ & Hy). split.
  - rewrite (linear_fit_returns X y WF Hm Hy self). cbn [fst]. f_equal.
    rewrite Hlr. unfold fit_start.
    change (np_zeros (ncols X)) with (repeat 0%R (ncols X)).
    change (@zero R R_arith) with 0%R.
    assert (G : forall n l,
               Nat.iter n (LinearRegression.pass X y 0%R)
                 (l, repeat 0%R (ncols X), 0%R) =
               (l ++ repeat (0.5 * Spec.mean (map (fun t => t ^ 2) y))%R n,
                repeat 0%R (ncols X), 0%R)).
    { intros n. induction n as [|n IH]; intros l.
      - cbn. now rewrite app_nil_r.
      - rewrite Nat.iter_succ_r, linear_pass_zero_rate, IH, <- app_assoc.
        now rewrite (mse_at_zero X y l WF Hy). }
    exact (G (max_iterations self) []).
  - rewrite (logistic_fit_returns X y WF Hm Hy self). cbn [fst]. f_equal.
    rewrite Hlr. unfold fit_start.
    change (np_zeros (ncols X)) with (repeat 0%R (ncols X)).
    change (@zero R R_arith) with 0%R.
    assert (G : forall n l,
               Nat.iter n (LogisticRegression.pass X y 0%R)
                 (l, repeat 0%R (ncols X), 0%R) =
               (l ++ repeat (ln 2) n, repeat 0%R (ncols X), 0%R)).
    { intros n. induction n as [|n IH]; intros l.
      - cbn. now rewrite app_nil_r.
      - rewrite Nat.iter_succ_r,
          (logistic_pass_zero_rate X y l WF Hm Hy), IH, <- app_assoc.
        reflexivity. }
    exact (G (max_iterations self) []).
Qed.

Lemma zero_learning_rate_learns_nothing_witness :
  valid_data X_two y_two /\
  learning_rate (LinearRegression.__init__ 3 0%R) = 0%R /\
  fst (LogisticRegression.fit X_two y_two
         (LinearRegression.__init__ 3 0%R)) =
    Return (repeat (ln 2) 3, repeat 0%R 1, 0%R).
Proof.
  split; [exact valid_two|]. split; [reflexivity|].
  exact (proj2 (zero_learning_rate_learns_nothing X_two y_two
                  (LinearRegression.__init__ 3 0%R) valid_two eq_refl)).
Defined.

(** ** The sigmoid and the decision threshold *)

Section SigmoidShape.
Local Open Scope R_scope.

Lemma g_increasing (z1 z2 : R) : z1 < z2 -> Spec.g z1 < Spec.g z2.
Proof.
  intros H. unfold Spec.g.
  pose proof (exp_pos (- z1)). pose proof (exp_pos (- z2)).
  assert (exp (- z2) < exp (- z1)) by (apply exp_increasing; lra).
  unfold Rdiv. rewrite !Rmult_1_l.
  apply Rinv_lt_contravar; [nra | lra].
Qed.

Lemma g_opp (z : R) : Spec.g (- z) = 1 - Spec.g z.
Proof.
  unfold Spec.g. rewrite Ropp_involutive, exp_Ropp.
  pose proof (exp_pos z). field. lra.
Qed.

Lemma g_above_half (z : R) : / 2 < Spec.g z <-> 0 < z.
Proof.
  rewrite <- g_zero. split; intros H.
  - destruct (Rlt_le_dec 0 z) as [Hz | Hz]; [exact Hz | exfalso].
    destruct Hz as [Hz | Hz].
    + pose proof (g_increasing z 0 Hz). lra.
    + subst z. lra.
  - now apply g_increasing.
Qed.

End SigmoidShape.




(** ** A saturated prediction in the loss *)

Section Saturation.

Lemma x_add_nan_r (a : xreal) : x_add a NaN = NaN.
Proof. destruct a; reflexivity. Qed.

Lemma np_sum_nan (t : vec xreal) :
  In NaN t -> np_sum t = NaN.
Proof.
  induction t as [|a t IH]; intros H; [contradiction|].
  change (np_sum (a :: t)) with (x_add a (np_sum t)).
  destruct H as [-> | H]; [reflexivity|].
  rewrite IH by exact H. apply x_add_nan_r.
Qed.

Lemma nth_error_zip (op : xreal -> xreal -> xreal) (u v : vec xreal)
  (i : nat) (a c : xreal) :
  nth_error u i = Some a -> nth_error v i = Some c ->
  nth_error (zip op u v) i = Some (op a c).
Proof.
  revert u v. induction i as [|i IH]; intros [|a' u] [|c' v] Hu Hv;
    try discriminate.
  - cbn in *. congruence.
  - cbn in Hu, Hv. exact (IH u v Hu Hv).
Qed.

Lemma sigmoid_x_overflow (z : R) :
  (fmax < exp (- z))%R ->
  x_div (Fin 1) (x_add (Fin 1) (x_exp (x_neg (Fin z)))) = Fin 0.
Proof.
  intros H. cbn [x_neg x_exp]. rewrite overflow_above by exact H.
  reflexivity.
Qed.

End Saturation.

(** X14. With overflow to infinity, one training sample is enough to
    lose the loss: if the score [z] of a sample is so negative that
    [exp (- z)] overflows, its prediction is exactly 0, and if its label
    is 0 (the prediction being right), the term [0 * log 0] is NaN and
    the loss line returns NaN, whatever the other samples are. *)
Theorem saturated_sample_makes_loss_nan
  (y : vec xreal) (zs : list R) (i : nat) (z : R) :
  length y = length zs ->
  nth_error zs i = Some z -> (fmax < exp (- z))%R ->
  nth_error y i = Some (Fin 0) ->
  nth_error (LogisticRegression.sigmoid (map Fin zs)) i = Some (Fin 0) /\
  LogisticRegression.nll y (LogisticRegression.sigmoid (map Fin zs)) =
    Return NaN.
Proof.
  intros Hlen Hz Hov Hy.
  set (preds := LogisticRegression.sigmoid (map Fin zs)).
  assert (Hp : nth_error preds i = Some (Fin 0)).
  { unfold preds, LogisticRegression.sigmoid, scalar_vec.
    rewrite !map_map, nth_error_map, Hz. cbn [option_map]. f_equal.
    exact (sigmoid_x_overflow z Hov). }
  split; [exact Hp|].
  rewrite nll_same
    by (unfold preds; now rewrite sigmoid_length, length_map).
  assert (Hin : In NaN
            (zip add (zip mul y (map flog preds))
               (zip mul (scalar_vec sub one y)
                  (map flog (scalar_vec sub one preds))))).
  { apply (nth_error_In _ i).
    assert (H1 : nth_error (zip mul y (map flog preds)) i = Some NaN).
    { rewrite (nth_error_zip mul y (map flog preds) i (Fin 0) NInf Hy).
      - cbn. unfold x_signed.
        destruct (Rlt_dec 0 0) as [H | _]; [lra | reflexivity].
      - rewrite nth_error_map, Hp. cbn.
        destruct (Rlt_dec 0 0) as [H | _]; [lra|].
        destruct (Req_dec_T 0 0) as [_ | H]; [reflexivity | lra]. }
    assert (H2 : exists t,
               nth_error (zip mul (scalar_vec sub one y)
                            (map flog (scalar_vec sub one preds))) i =
               Some t).
    { eexists. apply (nth_error_zip mul).
      - unfold scalar_vec. rewrite nth_error_map, Hy. reflexivity.
      - unfold scalar_vec. rewrite !nth_error_map, Hp. reflexivity. }
    destruct H2 as [t H2].
    rewrite (nth_error_zip add _ _ i NaN t H1 H2). reflexivity. }
  unfold np_mean. rewrite (np_sum_nan _ Hin). reflexivity.
Qed.

Lemma saturated_sample_makes_loss_nan_witness :
  length [Fin 0] = length [(-1024)%R] /\
  nth_error [(-1024)%R] 0 = Some (-1024)%R /\
  (fmax < exp (- (-1024)))%R /\
  nth_error [Fin 0] 0 = Some (Fin 0) /\
  LogisticRegression.nll [Fin 0]
    (LogisticRegression.sigmoid (map Fin [(-1024)%R])) = Return NaN.
Proof.
  assert (H : (fmax < exp (- (-1024)))%R)
    by (replace (- (-1024))%R with 1024%R by lra; exact fmax_lt_exp_1024).
  split; [reflexivity|]. split; [reflexivity|]. split; [exact H|].
  split; [reflexivity|].
  exact (proj2 (saturated_sample_makes_loss_nan [Fin 0] [(-1024)%R] 0
                  (-1024)%R eq_refl eq_refl H eq_refl)).
Defined.

(** * The cells around the classes *)

(** ** The train/test split *)

Section SplitProofs.
Context {F : Type}.

Lemma take_in_bounds {A : Type} (a : list A) (indices : list nat) (d : A) :
  Forall (fun i => i < length a) indices ->
  take a indices = Selected (map (fun i => nth i a d) indices).
Proof.
  intros H. induction H as [|i indices Hi _ IH]; [reflexivity|].
  cbn [take map]. rewrite (nth_error_nth' a d Hi), IH. reflexivity.
Qed.

Lemma take_out_of_bounds {A : Type} (a : list A) (indices : list nat) :
  ~ Forall (fun i => i < length a) indices ->
  exists j, In j indices /\ length a <= j /\
            take a indices = IndexError j (length a).
Proof.
  induction indices as [|i indices IH]; intros H.
  - exfalso. apply H. constructor.
  - cbn [take]. destruct (nth_error a i) as [x|] eqn:E.
    + assert (Hi : i < length a)
        by (apply nth_error_Some; congruence).
      destruct IH as (j & Hj & Hle & Ej).
      { intros Hall. apply H. now constructor. }
      exists j. rewrite Ej. repeat split; auto. now right.
    + apply nth_error_None in E. exists i. repeat split; auto. now left.
Qed.

Lemma nth_map_seq_gen {A : Type} (f : nat -> A) (k i : nat) (d : A) :
  i < k -> nth i (map f (seq 0 k)) d = f i.
Proof.
  intros Hi.
  rewrite (nth_indep _ d (f 0)) by now rewrite length_map, length_seq.
  rewrite (map_nth f), seq_nth by exact Hi. reflexivity.
Qed.

Lemma combine_as_map {A B : Type} (a : list A) (b : list B) (da : A)
  (db : B) :
  length a = length b ->
  combine a b = map (fun i => (nth i a da, nth i b db)) (seq 0 (length a)).
Proof.
  intros E. apply nth_ext with (d := (da, db)) (d' := (da, db)).
  - rewrite length_combine, length_map, length_seq, <- E. apply Nat.min_id.
  - intros i Hi. rewrite length_combine, <- E, Nat.min_id in Hi.
    rewrite combine_nth by exact E. now rewrite nth_map_seq_gen.
Qed.

Lemma combine_map_map {A B C : Type} (f : C -> A) (g : C -> B)
  (l : list C) :
  combine (map f l) (map g l) = map (fun i => (f i, g i)) l.
Proof. induction l as [|c l IH]; [reflexivity|]. cbn. now rewrite IH. Qed.

Lemma permutation_in_bounds (n : nat) (p : list nat) :
  Permutation p (seq 0 n) -> Forall (fun i => i < n) p.
Proof.
  intros P. apply Forall_forall. intros i Hi.
  apply (Permutation_in _ P) in Hi. apply in_seq in Hi. lia.
Qed.

Lemma forall_firstn_skipn {A : Type} (P : A -> Prop) (k : nat)
  (l : list A) :
  Forall P l -> Forall P (firstn k l) /\ Forall P (skipn k l).
Proof.
  intros H. rewrite <- (firstn_skipn k l) in H.
  now apply Forall_app in H.
Qed.

End SplitProofs.

Lemma train_size_floor (n : nat) : train_size n = 4 * n / 5.
Proof.
  unfold train_size, python_int. cbn [Qmult Qnum Qden inject_Z].
  rewrite Z.quot_div_nonneg by lia.
  replace (Z.of_nat n * 8)%Z with ((Z.of_nat (4 * n)) * 2)%Z by lia.
  change (Z.pos (1 * 10)) with (5 * 2)%Z.
  rewrite Z.div_mul_cancel_r by lia.
  change 5%Z with (Z.of_nat 5). rewrite <- Nat2Z.inj_div.
  apply Nat2Z.id.
Qed.

Lemma train_size_le (n : nat) : train_size n <= n.
Proof.
  rewrite train_size_floor. apply Nat.Div0.div_le_upper_bound. lia.
Qed.

(** The split of a rectangular data set by a permutation of its row
    indices: the shapes of the parts, and the rows and targets they hold,
    in the order of the permutation. *)
Lemma split_parts {F : Type} {AF : Arith F}
  (X : matrix F) (y : vec F) (permutated_indicies : list nat) :
  wf_matrix X -> length y = nrows X ->
  Permutation permutated_indicies (seq 0 (nrows X)) ->
  exists X_train y_train X_test y_test,
    train_test_split X y permutated_indicies =
      Selected (X_train, y_train, X_test, y_test) /\
    wf_matrix X_train /\ wf_matrix X_test /\
    ncols X_train = ncols X /\ ncols X_test = ncols X /\
    nrows X_train = train_size (nrows X) /\
    length y_train = nrows X_train /\
    nrows X_test = nrows X - train_size (nrows X) /\
    length y_test = nrows X_test /\
    rows X_train ++ rows X_test =
      map (fun i => nth i (rows X) []) permutated_indicies /\
    y_train ++ y_test = map (fun i => nth i y zero) permutated_indicies.
Proof.
  intros [Hrows Hcols] Hy P.
  set (n := nrows X) in *. set (k := train_size n).
  pose proof (train_size_le n) as Hk. fold k in Hk.
  pose proof (permutation_in_bounds n _ P) as B.
  assert (Hlen : length permutated_indicies = n)
    by (rewrite (Permutation_length P); apply length_seq).
  destruct (forall_firstn_skipn _ k _ B) as [Btr Bte].
  set (row := fun i => nth i (rows X) []).
  set (target := fun i => nth i y zero).
  assert (Txtr : take (rows X) (firstn k permutated_indicies) =
                 Selected (map row (firstn k permutated_indicies)))
    by (apply take_in_bounds; now rewrite Hrows).
  assert (Txte : take (rows X) (skipn k permutated_indicies) =
                 Selected (map row (skipn k permutated_indicies)))
    by (apply take_in_bounds; now rewrite Hrows).
  assert (Tytr : take y (firstn k permutated_indicies) =
                 Selected (map target (firstn k permutated_indicies)))
    by (apply take_in_bounds; now rewrite Hy).
  assert (Tyte : take y (skipn k permutated_indicies) =
                 Selected (map target (skipn k permutated_indicies)))
    by (apply take_in_bounds; now rewrite Hy).
  assert (Hrow : forall idx, Forall (fun i => i < n) idx ->
             Forall (fun r => length r = ncols X) (map row idx)).
  { intros idx H. apply Forall_map. eapply Forall_impl; [|exact H].
    intros i Hi. cbn beta. rewrite Forall_forall in Hcols.
    apply Hcols. unfold row. apply nth_In. now rewrite Hrows. }
  eexists _, _, _, _. split.
  - unfold train_test_split, take_rows. fold n k.
    rewrite Txtr, Tytr, Txte, Tyte. reflexivity.
  - unfold wf_matrix. cbn [nrows ncols rows].
    rewrite !length_map, length_firstn, length_skipn, Hlen.
    split; [split; [reflexivity | now apply Hrow]|].
    split; [split; [reflexivity | now apply Hrow]|].
    split; [reflexivity|]. split; [reflexivity|].
    split; [lia|]. split; [reflexivity|].
    split; [reflexivity|]. split; [reflexivity|].
    rewrite <- !map_app, firstn_skipn. split; reflexivity.
Qed.

(** X15. For a rectangular [X] with one target per row and any
    permutation of the row numbers, the split cells raise no IndexError
    and lose, repeat or misalign no sample: the training and the test
    part are rectangular with the columns of [X], hold [train_size] and
    the remaining rows, each with as many targets, and their rows paired
    with their targets are, together, a permutation of the rows of [X]
    paired with theirs. *)
Theorem split_keeps_every_sample {F : Type} {AF : Arith F}
  (X : matrix F) (y : vec F) (permutated_indicies : list nat) :
  wf_matrix X -> length y = nrows X ->
  Permutation permutated_indicies (seq 0 (nrows X)) ->
  exists X_train y_train X_test y_test,
    train_test_split X y permutated_indicies =
      Selected (X_train, y_train, X_test, y_test) /\
    wf_matrix X_train /\ wf_matrix X_test /\
    ncols X_train = ncols X /\ ncols X_test = ncols X /\
    nrows X_train = train_size (nrows X) /\
    length y_train = nrows X_train /\
    nrows X_test = nrows X - train_size (nrows X) /\
    length y_test = nrows X_test /\
    Permutation (combine (rows X_train ++ rows X_test) (y_train ++ y_test))
      (combine (rows X) y).
Proof.
  intros WF Hy P.
  destruct (split_parts X y permutated_indicies WF Hy P)
    as (Xtr & ytr & Xte & yte & E & WFtr & WFte & Ctr & Cte & Ntr & Ltr &
        Nte & Lte & Rx & Ry).
  exists Xtr, ytr, Xte, yte. repeat (split; [assumption|]).
  destruct WF as [Hrows _].
  rewrite Rx, Ry, combine_map_map.
  rewrite (combine_as_map (rows X) y [] zero) by congruence.
  rewrite Hrows. now apply Permutation_map.
Qed.

Lemma split_keeps_every_sample_witness :
  wf_matrix X_small /\ length y_small = nrows X_small /\
  Permutation [1; 0] (seq 0 (nrows X_small)) /\
  train_test_split X_small y_small [1; 0] =
    Selected ({| nrows := 1; ncols := 1; rows := [[2%Q]] |}, [5%Q],
              {| nrows := 1; ncols := 1; rows := [[1%Q]] |}, [3%Q]).
Proof.
  assert (WF : wf_matrix X_small)
    by (split; [reflexivity | repeat constructor]).
  assert (P : Permutation [1; 0] (seq 0 (nrows X_small)))
    by apply perm_swap.
  split; [exact WF|]. split; [reflexivity|]. split; [exact P|].
  destruct (split_keeps_every_sample X_small y_small [1; 0] WF eq_refl P)
    as (Xtr & ytr & Xte & yte & E & _).
  vm_compute. reflexivity.
Defined.

(** X16. The training part gets the floor of 0.8 times the number of
    samples (the product taken exactly): never more than there are
    samples, fewer whenever there is a sample, so that the test part is
    never empty then, and none at all exactly when there is at most one
    sample. *)
Theorem train_size_bounds (n : nat) :
  train_size n = 4 * n / 5 /\
  train_size n <= n /\
  (1 <= n -> train_size n < n) /\
  (train_size n = 0 <-> n <= 1).
Proof.
  pose proof (train_size_floor n) as E. pose proof (train_size_le n) as L.
  split; [exact E|]. split; [exact L|]. rewrite E. split.
  - intros Hn. apply Nat.Div0.div_lt_upper_bound. lia.
  - split; intros H.
    + destruct (Nat.le_gt_cases n 1) as [Hn | Hn]; [exact Hn | exfalso].
      assert (1 <= 4 * n / 5)
        by (apply Nat.div_le_lower_bound; lia).
      lia.
    + apply Nat.div_small. lia.
Qed.

(** X17. On a data set of a single sample the split leaves the training
    part without rows, and [fit] of either class on it, with at least
    one iteration, raises ZeroDivisionError. *)
Theorem single_sample_cannot_be_trained
  {F : Type} {AF : Arith F} {TF : Transc F}
  (X : matrix F) (y : vec F) (permutated_indicies : list nat)
  (self : obj F) :
  wf_matrix X -> nrows X = 1 -> length y = 1 ->
  Permutation permutated_indicies (seq 0 1) ->
  1 <= max_iterations self ->
  exists X_train y_train X_test y_test,
    train_test_split X y permutated_indicies =
      Selected (X_train, y_train, X_test, y_test) /\
    nrows X_train = 0 /\ nrows X_test = 1 /\
    fst (LinearRegression.fit X_train y_train self) =
      Raise ZeroDivisionError /\
    fst (LogisticRegression.fit X_train y_train self) =
      Raise ZeroDivisionError.
Proof.
  intros WF Hn Hy P Hk.
  assert (P' : Permutation permutated_indicies (seq 0 (nrows X)))
    by now rewrite Hn.
  destruct (split_parts X y permutated_indicies WF
              (eq_trans Hy (eq_sym Hn)) P')
    as (Xtr & ytr & Xte & yte & E & WFtr & _ & _ & _ & Ntr & Ltr & Nte & _).
  rewrite Hn in Ntr, Nte. change (train_size 1) with 0 in Ntr, Nte.
  exists Xtr, ytr, Xte, yte. split; [exact E|].
  split; [exact Ntr|]. split; [exact Nte|].
  assert (Hy0 : length ytr <= 1) by lia.
  rewrite (linear_fit_raises Xtr ytr self _
             (fit_error_no_rows false Xtr ytr _ WFtr Ntr Hy0 Hk)).
  rewrite (logistic_fit_raises Xtr ytr self _
             (fit_error_no_rows true Xtr ytr _ WFtr Ntr Hy0 Hk)).
  split; reflexivity.
Qed.

Lemma single_sample_cannot_be_trained_witness :
  wf_matrix X_single /\ nrows X_single = 1 /\ length [1%R] = 1 /\
  Permutation [0] (seq 0 1) /\ 1 <= 1 /\
  exists X_train y_train X_test y_test,
    train_test_split X_single [1%R] [0] =
      Selected (X_train, y_train, X_test, y_test) /\
    nrows X_train = 0 /\ nrows X_test = 1 /\
    fst (LinearRegression.fit X_train y_train
           (LinearRegression.__init__ 1 1%R)) =
      Raise ZeroDivisionError /\
    fst (LogisticRegression.fit X_train y_train
           (LinearRegression.__init__ 1 1%R)) =
      Raise ZeroDivisionError.
Proof.
  assert (WF : wf_matrix X_single)
    by (split; [reflexivity | repeat constructor]).
  split; [exact WF|]. split; [reflexivity|]. split; [reflexivity|].
  split; [apply Permutation_refl|]. split; [lia|].
  apply (single_sample_cannot_be_trained X_single [1%R] [0]
           (LinearRegression.__init__ 1 1%R) WF eq_refl eq_refl
           (Permutation_refl _)).
  cbn. lia.
Defined.

(** ** The standardisation cell *)

Section StandardizeProofs.
Local Open Scope R_scope.

Lemma nth_zip (op : R -> R -> R) (u v : list R) (j : nat) :
  (j < length u)%nat -> (j < length v)%nat ->
  nth j (zip op u v) 0 = op (nth j u 0) (nth j v 0).
Proof.
  revert u v. induction j as [|j IH]; intros [|a u] [|c v] Hu Hv;
    cbn [length] in *; try lia.
  - reflexivity.
  - apply (IH u v); lia.
Qed.

Lemma mean_axis0_length (X : matrix R) : length (mean_axis0 X) = ncols X.
Proof. unfold mean_axis0. now rewrite length_map, length_seq. Qed.

Lemma std_axis0_length (X : matrix R) : length (std_axis0 X) = ncols X.
Proof. unfold std_axis0. now rewrite length_map, length_seq. Qed.

Lemma broadcast_rows_same (op : R -> R -> R) (X : matrix R) (v : list R) :
  ncols X = length v ->
  broadcast_rows op X v =
  Return {| nrows := nrows X; ncols := ncols X;
            rows := map (fun r => zip op r v) (rows X) |}.
Proof.
  intros E. unfold broadcast_rows.
  now rewrite (proj2 (Nat.eqb_eq _ _) E).
Qed.

Lemma broadcast_rows_raises (op : R -> R -> R) (X : matrix R)
  (v : list R) :
  ncols X <> length v -> length v <> 1%nat -> ncols X <> 1%nat ->
  broadcast_rows op X v = Raise (ValueError_broadcast (ncols X) (length v)).
Proof.
  intros E Hv HX. unfold broadcast_rows.
  rewrite (proj2 (Nat.eqb_neq _ _) E), (proj2 (Nat.eqb_neq _ _) HX).
  destruct v as [|c [|c' v]]; try reflexivity. cbn in Hv. lia.
Qed.

(** With agreeing columns the cell assigns [standardized] matrices. *)
Lemma standardize_returns (X_train X_test : matrix R) :
  ncols X_test = ncols X_train ->
  standardize (X_train, X_test) =
  (Return tt,
   (standardized X_train (mean_axis0 X_train) (std_axis0 X_train),
    standardized X_test (mean_axis0 X_train) (std_axis0 X_train))).
Proof.
  intros E. unfold standardize, standardized.
  rewrite (broadcast_rows_same sub X_train)
    by now rewrite mean_axis0_length.
  rewrite broadcast_rows_same by (cbn [ncols]; now rewrite std_axis0_length).
  rewrite (broadcast_rows_same sub X_test)
    by now rewrite mean_axis0_length.
  rewrite broadcast_rows_same by (cbn [ncols]; now rewrite std_axis0_length).
  cbn [nrows ncols rows]. rewrite !map_map. reflexivity.
Qed.

Lemma standardized_wf (X : matrix R) (means std : list R) :
  wf_matrix X -> length means = ncols X -> length std = ncols X ->
  wf_matrix (standardized X means std).
Proof.
  intros [Hr Hc] Hm Hs. split; cbn [standardized nrows ncols rows].
  - now rewrite length_map.
  - apply Forall_map. eapply Forall_impl; [|exact Hc].
    intros r Hlen. cbn beta in *. rewrite !zip_length. lia.
Qed.

(** A column of the standardized matrix is the column of [X], shifted
    and scaled by its own mean and deviation. *)
Lemma standardized_column (X : matrix R) (means std : list R) (j : nat) :
  wf_matrix X -> length means = ncols X -> length std = ncols X ->
  (j < ncols X)%nat ->
  column (standardized X means std) j =
  map (fun x => (x - nth j means 0) / nth j std 0) (column X j).
Proof.
  intros [_ Hc] Hm Hs Hj. unfold column, standardized. cbn [rows].
  rewrite !map_map. apply map_ext_in. intros r Hr.
  rewrite Forall_forall in Hc. specialize (Hc r Hr).
  change (@zero R R_arith) with 0.
  rewrite nth_zip by (rewrite ?zip_length; lia).
  rewrite nth_zip by lia. reflexivity.
Qed.

Lemma sum_shift (c : list R) (mu : R) :
  fold_right Rplus 0 (map (fun x => x - mu) c) =
  fold_right Rplus 0 c - INR (length c) * mu.
Proof.
  induction c as [|a c IH]; [cbn; ring|].
  cbn [map fold_right length]. rewrite IH, S_INR. ring.
Qed.

Lemma sum_scale (f : R -> R) (c : list R) (s : R) :
  fold_right Rplus 0 (map (fun x => f x * s) c) =
  fold_right Rplus 0 (map f c) * s.
Proof.
  induction c as [|a c IH]; [cbn; ring|].
  cbn [map fold_right]. rewrite IH. ring.
Qed.

Lemma column_length (X : matrix R) (j : nat) :
  length (column X j) = length (rows X).
Proof. apply length_map. Qed.

(** The mean of a column shifted by its mean and scaled is 0. *)
Lemma mean_of_standardized (c : list R) (sigma : R) :
  c <> [] ->
  np_mean (map (fun x => (x - np_mean c) / sigma) c) = 0.
Proof.
  intros Hc. rewrite !np_mean_R. unfold Spec.mean. rewrite length_map.
  assert (HM : INR (length c) <> 0)
    by (apply not_0_INR; destruct c; [congruence | discriminate]).
  unfold Rdiv at 2.
  rewrite (sum_scale (fun x => x - fold_right Rplus 0 c / INR (length c))).
  rewrite sum_shift.
  replace (fold_right Rplus 0 c -
           INR (length c) * (fold_right Rplus 0 c / INR (length c)))
    with 0 by (field; exact HM).
  unfold Rdiv. ring.
Qed.

(** The mean of its squares is 1 when the deviation is not 0. *)
Lemma std_of_standardized (c : list R) :
  let mu := np_mean c in
  let sigma := sqrt (np_mean (np_square (vec_scalar sub c mu))) in
  c <> [] -> sigma <> 0 ->
  sqrt (np_mean (np_square
                   (vec_scalar sub (map (fun x => (x - mu) / sigma) c) 0)))
  = 1.
Proof.
  intros mu sigma Hc Hs.
  assert (HM : INR (length c) <> 0)
    by (apply not_0_INR; destruct c; [congruence | discriminate]).
  set (V := np_mean (np_square (vec_scalar sub c mu))) in *.
  assert (HV0 : 0 <= V).
  { unfold V. rewrite np_mean_R. unfold Spec.mean, np_square, vec_scalar.
    rewrite !length_map, map_map.
    assert (0 <= fold_right Rplus 0
                   (map (fun x => sub x mu * sub x mu) c)).
    { apply sum_nonneg, Forall_map, Forall_forall. intros x _.
      cbn beta. cbn [sub R_arith]. exact (Rle_0_sqr (x - mu)). }
    assert (0 < INR (length c))
      by (apply lt_0_INR; destruct c; [congruence | cbn; lia]).
    apply Rmult_le_pos; [assumption|]. left. now apply Rinv_0_lt_compat. }
  assert (HVs : sigma * sigma = V) by (unfold sigma; now apply sqrt_sqrt).
  rewrite <- sqrt_1. f_equal.
  rewrite np_mean_R. unfold Spec.mean, np_square, vec_scalar.
  rewrite !length_map, !map_map.
  replace (map (fun x => sub ((x - mu) / sigma) 0 * sub ((x - mu) / sigma) 0)
             c)
    with (map (fun x => (sub x mu * sub x mu) * / (sigma * sigma)) c).
  - rewrite (sum_scale (fun x => sub x mu * sub x mu)).
    assert (EV : fold_right Rplus 0 (map (fun x => sub x mu * sub x mu) c) =
                 V * INR (length c)).
    { unfold V. rewrite np_mean_R. unfold Spec.mean, np_square, vec_scalar.
      rewrite !length_map, map_map. cbn [mul R_arith]. field. exact HM. }
    assert (HV : V <> 0).
    { intros H0. apply Hs. unfold sigma. rewrite H0. apply sqrt_0. }
    rewrite EV, HVs. field. auto.
  - apply map_ext. intros x. cbn [sub R_arith]. field. exact Hs.
Qed.

Lemma map_seq_const (f : nat -> R) (c : R) (n a : nat) :
  (forall j, (a <= j < a + n)%nat -> f j = c) ->
  map f (seq a n) = repeat c n.
Proof.
  revert a. induction n as [|n IH]; intros a H; [reflexivity|].
  cbn [seq map repeat]. rewrite (H a) by lia. f_equal.
  apply IH. intros j Hj. apply H. lia.
Qed.

(** After the cell every training column has mean 0 and deviation 1. *)
Lemma standardized_moments (X : matrix R) :
  wf_matrix X -> (1 <= nrows X)%nat ->
  Forall (fun s => s <> 0) (std_axis0 X) ->
  mean_axis0 (standardized X (mean_axis0 X) (std_axis0 X)) =
    repeat 0 (ncols X) /\
  std_axis0 (standardized X (mean_axis0 X) (std_axis0 X)) =
    repeat 1 (ncols X).
Proof.
  intros WF Hm Hs.
  set (X' := standardized X (mean_axis0 X) (std_axis0 X)).
  assert (Hstd : forall j, (j < ncols X)%nat ->
            nth j (std_axis0 X) 0 =
            sqrt (np_mean (np_square
                             (vec_scalar sub (column X j)
                                (np_mean (column X j)))))).
  { intros j Hj. unfold std_axis0. now rewrite nth_map_seq by exact Hj. }
  assert (Hcol : forall j, (j < ncols X)%nat ->
            column X' j =
            map (fun x => (x - np_mean (column X j)) /
                          nth j (std_axis0 X) 0) (column X j)).
  { intros j Hj. unfold X'.
    rewrite standardized_column
      by auto using mean_axis0_length, std_axis0_length.
    unfold mean_axis0 at 1. now rewrite nth_map_seq by exact Hj. }
  assert (Hne : forall j, column X j <> []).
  { intros j E. apply (f_equal (@length R)) in E.
    rewrite column_length in E. destruct WF as [Hr _]. cbn in E. lia. }
  split.
  - unfold mean_axis0 at 1. change (ncols X') with (ncols X).
    apply map_seq_const. intros j Hj. rewrite Hcol by lia.
    apply mean_of_standardized, Hne.
  - unfold std_axis0 at 1. change (ncols X') with (ncols X).
    apply map_seq_const. intros j Hj. cbn zeta. rewrite Hcol by lia.
    rewrite mean_of_standardized by apply Hne.
    rewrite Hstd by lia.
    apply (std_of_standardized (column X j)); [apply Hne|].
    rewrite <- Hstd by lia.
    rewrite Forall_forall in Hs. apply Hs, nth_In.
    rewrite std_axis0_length. lia.
Qed.

Lemma zip_zero_one (r : list R) (n : nat) :
  length r = n ->
  zip Rdiv (zip Rminus r (repeat 0 n)) (repeat 1 n) = r.
Proof.
  revert n. induction r as [|x r IH]; intros [|n] E; try discriminate;
    [reflexivity|].
  injection E as E. specialize (IH n E). unfold zip in *.
  cbn [repeat combine map fst snd]. rewrite IH. f_equal. field.
Qed.

(** A matrix whose columns have mean 0 and deviation 1 is left as it
    is. *)
Lemma standardized_id (X : matrix R) :
  wf_matrix X ->
  standardized X (repeat 0 (ncols X)) (repeat 1 (ncols X)) = X.
Proof.
  intros [_ Hc]. destruct X as [m n Xs]. unfold standardized.
  cbn [nrows ncols rows] in *. f_equal.
  rewrite <- (map_id Xs) at 2. apply map_ext_in. intros r Hr.
  rewrite Forall_forall in Hc. now apply zip_zero_one, Hc.
Qed.

Lemma X_square_deviations :
  Forall (fun s => s <> 0) (std_axis0 X_square).
Proof.
  unfold std_axis0, X_square, column, np_mean, np_square, vec_scalar,
    np_sum.
  cbn [ncols rows seq map nth fold_right length fsqrt R_sqrt zero add sub
       mul div of_nat R_arith INR].
  repeat constructor; apply Rgt_not_eq, sqrt_lt_R0; lra.
Qed.

End StandardizeProofs.

(** X18. On a training matrix with at least one row, none of whose
    columns has deviation 0, and a test matrix with as many columns,
    the standardization cell returns: both matrices keep their shapes,
    and every column of the new training matrix has mean 0 and
    deviation 1 (exact arithmetic). *)
Theorem standardized_training_columns (X_train X_test : matrix R) :
  wf_matrix X_train -> wf_matrix X_test -> 1 <= nrows X_train ->
  ncols X_test = ncols X_train ->
  Forall (fun s => s <> 0%R) (std_axis0 X_train) ->
  exists X_train' X_test',
    standardize (X_train, X_test) = (Return tt, (X_train', X_test')) /\
    wf_matrix X_train' /\ wf_matrix X_test' /\
    nrows X_train' = nrows X_train /\ ncols X_train' = ncols X_train /\
    nrows X_test' = nrows X_test /\ ncols X_test' = ncols X_test /\
    mean_axis0 X_train' = repeat 0%R (ncols X_train) /\
    std_axis0 X_train' = repeat 1%R (ncols X_train).
Proof.
  intros WF WFt Hm E Hs.
  destruct (standardized_moments X_train WF Hm Hs) as [M S].
  eexists _, _. split; [now apply standardize_returns|].
  split; [apply standardized_wf;
          auto using mean_axis0_length, std_axis0_length|].
  split; [apply standardized_wf; rewrite ?E;
          auto using mean_axis0_length, std_axis0_length|].
  repeat (split; [reflexivity|]). split; [exact M | exact S].
Qed.

Lemma standardized_training_columns_witness :
  exists X_train' X_test',
    standardize (X_square, X_square) = (Return tt, (X_train', X_test')) /\
    wf_matrix X_train' /\ wf_matrix X_test' /\
    nrows X_train' = 2 /\ ncols X_train' = 2 /\
    nrows X_test' = 2 /\ ncols X_test' = 2 /\
    mean_axis0 X_train' = [0%R; 0%R] /\
    std_axis0 X_train' = [1%R; 1%R].
Proof.
  assert (WF : wf_matrix X_square)
    by (split; [reflexivity | repeat constructor]).
  apply (standardized_training_columns X_square X_square WF WF);
    [cbn; lia | reflexivity | exact X_square_deviations].
Defined.

(** X19. Running the standardization cell a second time changes
    nothing: the training columns already have mean 0 and deviation 1,
    and it is by those that both matrices are shifted and scaled (exact
    arithmetic). *)
Theorem standardize_twice (X_train X_test : matrix R) :
  wf_matrix X_train -> wf_matrix X_test -> 1 <= nrows X_train ->
  ncols X_test = ncols X_train ->
  Forall (fun s => s <> 0%R) (std_axis0 X_train) ->
  exists vars,
    standardize (X_train, X_test) = (Return tt, vars) /\
    standardize vars = (Return tt, vars).
Proof.
  intros WF WFt Hm E Hs.
  destruct (standardized_moments X_train WF Hm Hs) as [M S].
  eexists. split; [now apply standardize_returns|].
  rewrite standardize_returns by exact E. rewrite M, S.
  assert (WF' : wf_matrix (standardized X_train (mean_axis0 X_train)
                             (std_axis0 X_train)))
    by (apply standardized_wf;
        auto using mean_axis0_length, std_axis0_length).
  assert (WFt' : wf_matrix (standardized X_test (mean_axis0 X_train)
                              (std_axis0 X_train)))
    by (apply standardized_wf; rewrite ?E;
        auto using mean_axis0_length, std_axis0_length).
  set (X1 := standardized X_train (mean_axis0 X_train)
               (std_axis0 X_train)) in *.
  set (X2 := standardized X_test (mean_axis0 X_train)
               (std_axis0 X_train)) in *.
  assert (I : standardized X1 (repeat 0%R (ncols X_train))
                (repeat 1%R (ncols X_train)) = X1)
    by exact (standardized_id X1 WF').
  assert (It : standardized X2 (repeat 0%R (ncols X_train))
                 (repeat 1%R (ncols X_train)) = X2)
    by (rewrite <- E; exact (standardized_id X2 WFt')).
  now rewrite I, It.
Qed.

Lemma standardize_twice_witness :
  exists vars,
    standardize (X_square, X_square) = (Return tt, vars) /\
    standardize vars = (Return tt, vars).
Proof.
  assert (WF : wf_matrix X_square)
    by (split; [reflexivity | repeat constructor]).
  apply (standardize_twice X_square X_square WF WF);
    [cbn; lia | reflexivity | exact X_square_deviations].
Defined.

(** X20. With a test matrix whose number of columns differs from that
    of the training matrix, neither number being 1, the cell raises the
    broadcast error on its last line, when the training matrix has
    already been replaced by the standardized one; the test matrix is
    left as it was. *)
Theorem standardize_mismatched_test (X_train X_test : matrix R) :
  ncols X_test <> ncols X_train ->
  ncols X_train <> 1 -> ncols X_test <> 1 ->
  standardize (X_train, X_test) =
  (Raise (ValueError_broadcast (ncols X_test) (ncols X_train)),
   (standardized X_train (mean_axis0 X_train) (std_axis0 X_train),
    X_test)).
Proof.
  intros E H1 H2. unfold standardize, standardized.
  rewrite (broadcast_rows_same sub X_train)
    by now rewrite mean_axis0_length.
  rewrite broadcast_rows_same by (cbn [ncols]; now rewrite std_axis0_length).
  rewrite (broadcast_rows_raises sub X_test)
    by (rewrite ?mean_axis0_length; assumption).
  rewrite mean_axis0_length. cbn [nrows ncols rows]. rewrite !map_map.
  reflexivity.
Qed.

Lemma standardize_mismatched_test_witness :
  fst (standardize (X_square, X_wide)) = Raise (ValueError_broadcast 3 2) /\
  snd (standardize (X_square, X_wide)) =
  (standardized X_square (mean_axis0 X_square) (std_axis0 X_square),
   X_wide).
Proof.
  assert (E : standardize (X_square, X_wide) = _)
    by (apply (standardize_mismatched_test X_square X_wide); cbn; lia).
  rewrite E. split; reflexivity.
Defined.

(** ** The notebooks from the split to the evaluation *)

Lemma train_size_positive (n : nat) : 2 <= n -> 1 <= train_size n < n.
Proof.
  intros H. rewrite train_size_floor. split.
  - apply Nat.div_le_lower_bound; lia.
  - apply Nat.Div0.div_lt_upper_bound. lia.
Qed.

Lemma logistic_iter_shape {F : Type} {AF : Arith F} {TF : Transc F}
  (X : matrix F) (y : vec F) (lr : F) (k : nat) :
  ncols X =
  length (snd (fst (Nat.iter k (LogisticRegression.pass X y lr)
                      (fit_start (ncols X))))).
Proof.
  induction k as [|k IH].
  - cbn. now rewrite np_zeros_length.
  - rewrite Nat.iter_succ. now apply logistic_pass_shape.
Qed.

(** X21. The linear notebook from the split on: on a rectangular data
    set of at least two samples with one target each, whatever
    permutation of the row indices the generator returns, the split
    leaves a training and a test part that are not empty, [fit] on the
    training part returns with [max_iterations] losses, [predict] on the
    test part returns one prediction per test row, and the test error
    of the evaluation cell is computed without a shape error. *)
Theorem linear_notebook_runs {F : Type} {AF : Arith F}
  (X : matrix F) (y : vec F) (permutated_indicies : list nat)
  (self : obj F) :
  wf_matrix X -> length y = nrows X -> 2 <= nrows X ->
  Permutation permutated_indicies (seq 0 (nrows X)) ->
  exists X_train y_train X_test y_test losses w b y_preds e,
    train_test_split X y permutated_indicies =
      Selected (X_train, y_train, X_test, y_test) /\
    1 <= nrows X_train /\ 1 <= nrows X_test /\
    LinearRegression.fit X_train y_train self =
      (Return (losses, w, b),
       Obj (max_iterations self) (learning_rate self) (Some w) (Some b)) /\
    length losses = max_iterations self /\
    LinearRegression.predict X_test
      (Obj (max_iterations self) (learning_rate self) (Some w) (Some b)) =
      (Return y_preds,
       Obj (max_iterations self) (learning_rate self) (Some w) (Some b)) /\
    length y_preds = nrows X_test /\
    test_mse y_preds y_test = Return e.
Proof.
  intros WF Hy Hn P.
  destruct (split_parts X y permutated_indicies WF Hy P)
    as (Xtr & ytr & Xte & yte & E & WFtr & WFte & Ctr & Cte & Ntr & Ltr &
        Nte & Lte & _).
  destruct (train_size_positive _ Hn) as [T1 T2].
  assert (Hm : nrows Xtr <> 0) by lia.
  set (k := max_iterations self). set (lr := learning_rate self).
  pose proof (linear_fit_returns Xtr ytr WFtr Hm Ltr self) as Ef.
  cbv zeta in Ef. fold k lr in Ef.
  pose proof (iter_trace_length (LinearRegression.pass Xtr ytr lr)
                (linear_pass_trace Xtr ytr lr) k (fit_start (ncols Xtr)))
    as L.
  pose proof (linear_iter_shape Xtr ytr lr k) as S.
  destruct (Nat.iter k (LinearRegression.pass Xtr ytr lr)
              (fit_start (ncols Xtr))) as [[losses w] b].
  cbn [fst snd holding fit_start length] in Ef, L, S.
  assert (Hp : length (vec_scalar add (matvec Xte w) b) = nrows Xte)
    by now rewrite vec_scalar_length, wf_matvec_length.
  exists Xtr, ytr, Xte, yte, losses, w, b,
    (vec_scalar add (matvec Xte w) b),
    (mul half (np_mean (np_square
                          (zip sub (vec_scalar add (matvec Xte w) b) yte)))).
  split; [exact E|]. split; [lia|]. split; [lia|]. split; [exact Ef|].
  split; [lia|]. split.
  - apply linear_predict_returns; [reflexivity | reflexivity | congruence].
  - split; [exact Hp|].
    unfold test_mse. rewrite broadcast_same; [reflexivity | congruence].
Qed.

Lemma linear_notebook_runs_witness :
  wf_matrix X_small /\ length y_small = nrows X_small /\
  2 <= nrows X_small /\ Permutation [1; 0] (seq 0 (nrows X_small)) /\
  exists X_train y_train X_test y_test losses w b y_preds e,
    train_test_split X_small y_small [1; 0] =
      Selected (X_train, y_train, X_test, y_test) /\
    1 <= nrows X_train /\ 1 <= nrows X_test /\
    LinearRegression.fit X_train y_train fresh_small =
      (Return (losses, w, b),
       Obj (max_iterations fresh_small) (learning_rate fresh_small)
         (Some w) (Some b)) /\
    length losses = max_iterations fresh_small /\
    LinearRegression.predict X_test
      (Obj (max_iterations fresh_small) (learning_rate fresh_small)
         (Some w) (Some b)) =
      (Return y_preds,
       Obj (max_iterations fresh_small) (learning_rate fresh_small)
         (Some w) (Some b)) /\
    length y_preds = nrows X_test /\
    test_mse y_preds y_test = Return e.
Proof.
  assert (WF : wf_matrix X_small)
    by (split; [reflexivity | repeat constructor]).
  assert (P : Permutation [1; 0] (seq 0 (nrows X_small)))
    by apply perm_swap.
  split; [exact WF|]. split; [reflexivity|]. split; [cbn; lia|].
  split; [exact P|].
  apply (linear_notebook_runs X_small y_small [1; 0] fresh_small WF
           eq_refl); [cbn; lia | exact P].
Defined.

(** X22. The logistic notebook from the split on: on a rectangular data
    set of at least two samples with one label each, split by any
    permutation of the row indices into parts none of whose training
    columns is constant, the standardization cell returns, [fit] on the
    standardized training part returns with [max_iterations] losses,
    [predict] on the standardized test part returns, and the
    thresholded predictions are one label, 0 or 1, per test target. *)
Theorem logistic_notebook_runs
  (X : matrix R) (y : vec R) (permutated_indicies : list nat)
  (self : obj R) (X_train X_test : matrix R) (y_train y_test : vec R) :
  wf_matrix X -> length y = nrows X -> 2 <= nrows X ->
  Permutation permutated_indicies (seq 0 (nrows X)) ->
  train_test_split X y permutated_indicies =
    Selected (X_train, y_train, X_test, y_test) ->
  Forall (fun s => s <> 0%R) (std_axis0 X_train) ->
  exists X_train' X_test' losses w b y_preds,
    standardize (X_train, X_test) = (Return tt, (X_train', X_test')) /\
    LogisticRegression.fit X_train' y_train self =
      (Return (losses, w, b),
       Obj (max_iterations self) (learning_rate self) (Some w) (Some b)) /\
    length losses = max_iterations self /\
    LogisticRegression.predict X_test'
      (Obj (max_iterations self) (learning_rate self) (Some w) (Some b)) =
      (Return y_preds,
       Obj (max_iterations self) (learning_rate self) (Some w) (Some b)) /\
    length (threshold y_preds) = length y_test /\
    1 <= length y_test /\
    Forall (fun label => label = 0%Z \/ label = 1%Z) (threshold y_preds).
Proof.
  intros WF Hy Hn P E Hs.
  destruct (split_parts X y permutated_indicies WF Hy P)
    as (Xtr & ytr & Xte & yte & E' & WFtr & WFte & Ctr & Cte & Ntr & Ltr &
        Nte & Lte & _).
  rewrite E in E'. injection E' as <- <- <- <-.
  destruct (train_size_positive _ Hn) as [T1 T2].
  set (means := mean_axis0 X_train). set (std := std_axis0 X_train).
  assert (Hmeans : length means = ncols X_train)
    by apply mean_axis0_length.
  assert (Hstd : length std = ncols X_train) by apply std_axis0_length.
  set (X1 := standardized X_train means std).
  set (X2 := standardized X_test means std).
  assert (WF1 : wf_matrix X1) by now apply standardized_wf.
  assert (WF2 : wf_matrix X2)
    by (apply standardized_wf; [exact WFte | congruence | congruence]).
  assert (Hm : nrows X1 <> 0) by (cbn [X1 standardized nrows]; lia).
  assert (Hy1 : length y_train = nrows X1) by exact Ltr.
  set (k := max_iterations self). set (lr := learning_rate self).
  pose proof (logistic_fit_returns X1 y_train WF1 Hm Hy1 self) as Ef.
  cbv zeta in Ef. fold k lr in Ef.
  pose proof (iter_trace_length (LogisticRegression.pass X1 y_train lr)
                (logistic_pass_trace X1 y_train lr) k
                (fit_start (ncols X1))) as L.
  pose proof (logistic_iter_shape X1 y_train lr k) as S.
  destruct (Nat.iter k (LogisticRegression.pass X1 y_train lr)
              (fit_start (ncols X1))) as [[losses w] b].
  cbn [fst snd holding fit_start length] in Ef, L, S.
  exists X1, X2, losses, w, b,
    (LogisticRegression.sigmoid (vec_scalar add (matvec X2 w) b)).
  split; [apply standardize_returns; congruence|].
  split; [exact Ef|]. split; [lia|]. split.
  - apply logistic_predict_returns; [reflexivity | reflexivity|].
    change (ncols X2) with (ncols X_test).
    change (ncols X1) with (ncols X_train) in S. congruence.
  - split.
    + unfold threshold.
      rewrite length_map, sigmoid_length, vec_scalar_length,
        wf_matvec_length by exact WF2.
      change (nrows X2) with (nrows X_test). now symmetry.
    + split; [lia|]. unfold threshold. apply Forall_map, Forall_forall.
      intros p _. destruct (gtb p half); [now right | now left].
Qed.

Lemma X_three_deviations :
  Forall (fun s => s <> 0%R)
    (std_axis0 {| nrows := 2; ncols := 1; rows := [[1%R]; [3%R]] |}).
Proof.
  unfold std_axis0, column, np_mean, np_square, vec_scalar, np_sum.
  cbn [ncols rows seq map nth fold_right length fsqrt R_sqrt zero add sub
       mul div of_nat R_arith INR].
  repeat constructor; apply Rgt_not_eq, sqrt_lt_R0; lra.
Qed.

Lemma logistic_notebook_runs_witness :
  wf_matrix X_three /\ length y_labels = nrows X_three /\
  2 <= nrows X_three /\ Permutation [0; 1; 2] (seq 0 (nrows X_three)) /\
  exists X_train' X_test' losses w b y_preds,
    standardize ({| nrows := 2; ncols := 1; rows := [[1%R]; [3%R]] |},
                 {| nrows := 1; ncols := 1; rows := [[5%R]] |}) =
      (Return tt, (X_train', X_test')) /\
    LogisticRegression.fit X_train' [0%R; 1%R]
      (LogisticRegression.__init__ 2 1%R) =
      (Return (losses, w, b), Obj 2 1%R (Some w) (Some b)) /\
    length losses = 2 /\
    LogisticRegression.predict X_test' (Obj 2 1%R (Some w) (Some b)) =
      (Return y_preds, Obj 2 1%R (Some w) (Some b)) /\
    length (threshold y_preds) = 1 /\
    1 <= 1 /\
    Forall (fun label => label = 0%Z \/ label = 1%Z) (threshold y_preds).
Proof.
  assert (WF : wf_matrix X_three)
    by (split; [reflexivity | repeat constructor]).
  assert (P : Permutation [0; 1; 2] (seq 0 (nrows X_three)))
    by apply Permutation_refl.
  split; [exact WF|]. split; [reflexivity|]. split; [cbn; lia|].
  split; [exact P|].
  apply (logistic_notebook_runs X_three y_labels [0; 1; 2]
           (LogisticRegression.__init__ 2 1%R) _ _ _ [1%R] WF eq_refl);
    [cbn; lia | exact P | reflexivity | exact X_three_deviations].
Defined.
